(* Verification of the challenge engine of the prop-trading backend
   (backend/app/services/challenge_engine.py and its collaborators).

   Monetary values are Python [Decimal]s (and, in the payout route, floats);
   they are modelled as exact rationals [Q].  Timestamps are UTC seconds
   since the epoch, as [Z]; the UTC date of a timestamp is its floor
   division by 86400. *)

From Stdlib Require Import QArith Qpower Qabs Qminmax Qround ZArith List String Bool Lia Lqa.
From Stdlib Require Import Floats.SpecFloat.
Import ListNotations.

Open Scope Q_scope.

(* ------------------------------------------------------------------ *)
(** * Decimal helpers *)

Definition Qltb (a b : Q) : bool := negb (Qle_bool b a).
Definition Qgeb (a b : Q) : bool := Qle_bool b a.
Definition Qgtb (a b : Q) : bool := Qltb b a.

(** Python's [min(a, b)]: the first argument unless the second is smaller. *)
Definition py_min (a b : Q) : Q := if Qltb b a then b else a.
(** Python's [max(a, b)]: the first argument unless the second is larger. *)
Definition py_max (a b : Q) : Q := if Qltb a b then b else a.

(** Rounding to a whole number, ties to even (Decimal's default context
    and Python's [round]). *)
Definition round_half_even (q : Q) : Z :=
  let n := Qnum q in
  let d := Zpos (Qden q) in
  let f := (n / d)%Z in
  let r := (n mod d)%Z in
  match Z.compare (2 * r)%Z d with
  | Lt => f
  | Gt => (f + 1)%Z
  | Eq => if Z.even f then f else (f + 1)%Z
  end.

(** [x.quantize(Decimal("0.01"))] and [round(x, 2)]: rounding to cents. *)
Definition round_cents (q : Q) : Q := round_half_even (q * 100) # 100.

Definition pow10 (e : Z) : Q := Qpower 10 e.

Fixpoint log10_fuel (fuel : nat) (n : Z) : Z :=
  match fuel with
  | O => 0
  | S f => if (n <? 10)%Z then 0 else Z.succ (log10_fuel f (n / 10))
  end.

(** floor(log10 n) for n > 0 (log2 n + 1 divisions by 10 are enough). *)
Definition zlog10 (n : Z) : Z := log10_fuel (S (Z.to_nat (Z.log2 n))) n.

(** The adjusted exponent floor(log10 |x|) of a non-zero value. *)
Definition adjexp (x : Q) : Z :=
  let n := Z.abs (Qnum x) in
  let g := (zlog10 n - zlog10 (Zpos (Qden x)))%Z in
  if Qle_bool (pow10 g) (n # Qden x) then g else (g - 1)%Z.

(** Rounding to a whole number, ties away from zero (PostgreSQL's
    [numeric] rounding). *)
Definition round_half_away (q : Q) : Z :=
  let n := Qnum q in
  let d := Zpos (Qden q) in
  let a := (Z.abs n / d)%Z in
  let r := (Z.abs n mod d)%Z in
  let m := if (d <=? 2 * r)%Z then (a + 1)%Z else a in
  if (n <? 0)%Z then (- m)%Z else m.

(* ------------------------------------------------------------------ *)
(** * Python floats (IEEE 754 binary64) *)

(** A Python [float]: the binary64 values of the Standard Library's
    [SpecFloat] (53-bit significand, infinities at exponent 1024); the
    arithmetic operations round to nearest, ties to even. *)
Definition float := spec_float.
Definition f64_prec : Z := 53.
Definition f64_emax : Z := 1024.

Definition fadd : float -> float -> float := SFadd f64_prec f64_emax.
Definition fsub : float -> float -> float := SFsub f64_prec f64_emax.
Definition fmul : float -> float -> float := SFmul f64_prec f64_emax.
Definition fdiv : float -> float -> float := SFdiv f64_prec f64_emax.

(** The float nearest to a rational (ties to even): [float(Decimal)], and
    the parsing of a decimal literal. *)
Definition float_of_Q (q : Q) : float :=
  let conv s n :=
    let '(m, e, l) := SFdiv_core_binary f64_prec f64_emax (Zpos n) 0 (Zpos (Qden q)) 0 in
    binary_round_aux f64_prec f64_emax s m e l in
  match Qnum q with
  | Z0 => S754_zero false
  | Zpos n => conv false n
  | Zneg n => conv true n
  end.

(** The exact value of a finite float (0 for the others). *)
Definition float_to_Q (x : float) : Q :=
  match x with
  | S754_finite s m e =>
      let v := if (0 <=? e)%Z then inject_Z (Zpos m * 2 ^ e)
               else Zpos m # Z.to_pos (2 ^ (- e)) in
      if s then - v else v
  | _ => 0
  end.

(** The float a rounding step produces from a significand [m] and an
    exponent [e] (of sign [s]). *)
Definition fout (s : bool) (m e : Z) : float :=
  match m with
  | Z0 => S754_zero s
  | Zpos p => if (e <=? f64_emax - f64_prec)%Z then S754_finite s p e else S754_infinity s
  | Zneg _ => S754_nan
  end.

(** Python's [x < y] on floats (and on a float and an int, compared
    exactly): false when either side is NaN. *)
Definition py_flt (x y : float) : bool :=
  match x, y with
  | S754_nan, _ | _, S754_nan => false
  | S754_infinity sx, S754_infinity sy => sx && negb sy
  | S754_infinity sx, _ => sx
  | _, S754_infinity sy => negb sy
  | _, _ => Qltb (float_to_Q x) (float_to_Q y)
  end.

(** Python's [x <= y] on floats. *)
Definition py_fle (x y : float) : bool :=
  match x, y with
  | S754_nan, _ | _, S754_nan => false
  | _, _ => negb (py_flt y x)
  end.

(** [0.0]; the int [0] of the payout route behaves as it wherever it
    meets a float. *)
Definition fzero : float := S754_zero false.
(** [100] as a float, with its 53-bit significand:
    (25 * 2^48) * 2^-46. *)
Definition f100 : float := S754_finite false 7036874417766400 (-46).

(** [round(x, 2)] on a float: the decimal string of [x] rounded to two
    places (ties to even, on the exact value), read back as a float;
    NaN and the infinities are returned unchanged, and a zero keeps the
    sign of [x]. *)
Definition py_round2 (x : float) : float :=
  match x with
  | S754_finite s _ _ =>
      let c := round_half_even (float_to_Q x * 100) in
      if (c =? 0)%Z then S754_zero s else float_of_Q (c # 100)
  | _ => x
  end.

(** [sum(xs)] as CPython 3.11 computes it on floats: [0 + x1 + x2 + ...]
    from left to right.  (CPython 3.12 compensates the rounding errors;
    the payout theorems below hold for any summation.) *)
Definition py_sum (xs : list float) : float := fold_left fadd xs fzero.

(** [str(x)] for a finite float: the shortest decimal that reads back as
    [x], the nearest to [x] among the shortest. [shortest_aux] tries [k]
    significant digits, for [k] = 1, 2, ..., 17. *)
Definition roundtrips (x : float) (c : Q) : bool :=
  match float_of_Q c with
  | S754_finite _ _ _ => Qeq_bool (float_to_Q (float_of_Q c)) (float_to_Q x)
  | _ => false
  end.

Fixpoint shortest_aux (fuel : nat) (k : Z) (x : float) (v : Q) (E : Z) : Q :=
  match fuel with
  | O => v
  | S f =>
      let sc := pow10 (k - 1 - E) in
      let lo := Qfloor (v * sc) in
      let clo := inject_Z lo / sc in
      let chi := inject_Z (lo + 1) / sc in
      match roundtrips x clo, roundtrips x chi with
      | true, true =>
          match Qcompare (Qabs (clo - v)) (Qabs (chi - v)) with
          | Lt => clo
          | Gt => chi
          | Eq => if Z.even lo then clo else chi
          end
      | true, false => clo
      | false, true => chi
      | false, false => shortest_aux f (k + 1) x v E
      end
  end.

(** The value of [str(x)] for a finite [x]. *)
Definition py_repr_value (x : float) : Q :=
  let v := Qabs (float_to_Q x) in
  let r := Qred (shortest_aux 17 1 x v (adjexp v)) in
  match x with
  | S754_finite true _ _ => - r
  | _ => r
  end.

(** [f"{x:.2f}"]: the exact value rounded to two places, ties to even. *)
Definition digit_char (d : Z) : Ascii.ascii :=
  Ascii.ascii_of_nat (48 + Z.to_nat d).

Fixpoint digits_aux (fuel : nat) (n : Z) (acc : string) : string :=
  match fuel with
  | O => acc
  | S f =>
      let acc' := String (digit_char (n mod 10)) acc in
      if Z.ltb n 10 then acc' else digits_aux f (n / 10) acc'
  end.

(** Decimal digits of a non-negative integer. *)
Definition Z_to_dec (n : Z) : string := digits_aux 400 n EmptyString.

Definition format_2f (x : float) : string :=
  match x with
  | S754_nan => "nan"
  | S754_infinity s => if s then "-inf" else "inf"
  | S754_zero s => if s then "-0.00" else "0.00"
  | S754_finite s _ _ =>
      let a := round_half_even (Qabs (float_to_Q x) * 100) in
      let frac := (a mod 100)%Z in
      ((if s then "-" else "") ++ Z_to_dec (a / 100) ++ "."
       ++ String (digit_char (frac / 10)) (String (digit_char (frac mod 10)) EmptyString))%string
  end.

(* ------------------------------------------------------------------ *)
(** * Data model (backend/app/models) *)

Inductive DrawdownType := static | trailing.

Inductive ChallengeStatus := phase1 | phase2 | funded | failed | completed.

Definition status_eqb (a b : ChallengeStatus) : bool :=
  match a, b with
  | phase1, phase1 | phase2, phase2 | funded, funded
  | failed, failed | completed, completed => true
  | _, _ => false
  end.

Inductive ViolationType :=
  daily_loss | total_loss | consistency | news_ban | max_trading_days_v
| self_hedging | custom.

Inductive AccountMode := demo | funded_mode.

(** ChallengeType (the plan). *)
Record ChallengeType := mkChallengeType {
  account_size : Q;
  profit_target_p1 : Q;
  profit_target_p2 : Q;
  max_daily_loss : Q;
  max_total_loss : Q;
  drawdown_type : DrawdownType;
  min_trading_days : Z;
  max_trading_days : option Z;
  consistency_rule : bool;
  is_one_phase : bool;
  max_leverage : Z;
  profit_split_pct : Q
}.

Record ScalingStep := mkScalingStep {
  s_challenge_id : Z;
  step_number : Z;
  account_size_before : Q;
  account_size_after : Q;
  triggered_at : Z
}.

(** UserChallenge (its scaling_steps relationship is read from the ledger). *)
Record UserChallenge := mkUserChallenge {
  ch_id : Z;
  status : ChallengeStatus;
  phase : option Z;
  account_mode : AccountMode;
  initial_balance : Q;
  current_balance : Q;
  peak_equity : Q;
  daily_start_balance : Q;
  daily_pnl : Q;
  total_pnl : Q;
  trading_days_count : Z;
  daily_reset_at : option Z;
  started_at : Z;
  funded_at : option Z;
  real_account_id : option Z;
  failed_at : option Z
}.

Record Trade := mkTrade {
  t_challenge_id : Z;
  closed_at : option Z;
  pnl : option Q
}.

Record Violation := mkViolation {
  v_challenge_id : Z;
  v_type : ViolationType;
  v_value : Q;
  v_limit : Q;
  occurred_at : Z
}.

(** The violation dict built by [_check_violations] (its description text
    is a display string and is left out). *)
Record ViolationInfo := mkViolationInfo {
  vi_type : ViolationType;
  vi_value : Q;
  vi_limit : Q
}.

Definition day_seconds : Z := 86400.

(** [now.replace(hour=0, minute=0, second=0, microsecond=0)]. *)
Definition day_start (t : Z) : Z := (t / day_seconds * day_seconds)%Z.

(** [dt.date()], as a day number. *)
Definition date_of (t : Z) : Z := (t / day_seconds)%Z.

(* ------------------------------------------------------------------ *)
(** * Drawdowns (challenge_engine.py, _calc_daily_drawdown / _calc_total_drawdown) *)

Definition calc_daily_drawdown (ch : UserChallenge) (equity : Q) : Q :=
  if Qeq_bool (daily_start_balance ch) 0 then 0
  else
    let daily_loss := daily_start_balance ch - equity in
    if Qle_bool daily_loss 0 then 0
    else (daily_loss / daily_start_balance ch) * 100.

Definition calc_total_drawdown (ch : UserChallenge) (ct : ChallengeType)
    (equity : Q) : Q :=
  let base := match drawdown_type ct with
              | trailing => peak_equity ch
              | static => initial_balance ch
              end in
  if Qeq_bool base 0 then 0
  else
    let loss := base - equity in
    if Qle_bool loss 0 then 0 else (loss / base) * 100.

(** backend/services/pnl_calculator.py, calculate_daily_drawdown_pct. *)
Definition calculate_daily_drawdown_pct (equity day_start_balance : Q) : Q :=
  if Qeq_bool day_start_balance 0 then 0
  else round_cents ((equity - day_start_balance) / day_start_balance * 100).

(* ------------------------------------------------------------------ *)
(** * Rule checks (_check_violations, _check_consistency_rule) *)

(** [sum(t.pnl for t in today_trades if t.pnl)] over the rows selected by
    [challenge_id == id, closed_at >= today_start, pnl IS NOT NULL]. *)
Fixpoint today_pnl (cid today : Z) (trades : list Trade) : Q :=
  match trades with
  | [] => 0
  | t :: ts =>
      let rest := today_pnl cid today ts in
      match closed_at t, pnl t with
      | Some c, Some p =>
          if (Z.eqb (t_challenge_id t) cid && Z.leb today c)%bool
          then (if Qeq_bool p 0 then rest else p + rest)
          else rest
      | _, _ => rest
      end
  end.

(** [_check_consistency_rule]; [wall_now] is the [datetime.now] it reads. *)
Definition check_consistency_rule (ch : UserChallenge) (trades : list Trade)
    (wall_now : Z) : option ViolationInfo :=
  if Qle_bool (total_pnl ch) 0 then None
  else
    let limit_pct := 30 in
    let max_day_pnl := total_pnl ch * limit_pct / 100 in
    let today := today_pnl (ch_id ch) (day_start wall_now) trades in
    if Qgtb today max_day_pnl then
      Some (mkViolationInfo consistency ((today / total_pnl ch) * 100) limit_pct)
    else None.

(** Python truthiness of [ct.max_trading_days] followed by the comparison. *)
Definition max_days_exceeded (ct : ChallengeType) (count : Z) : bool :=
  match max_trading_days ct with
  | Some m => (negb (Z.eqb m 0) && Z.ltb m count)%bool
  | None => false
  end.

Definition check_violations (ch : UserChallenge) (ct : ChallengeType)
    (daily_dd total_dd : Q) (trades : list Trade) (wall_now : Z)
    : option ViolationInfo :=
  if Qgeb daily_dd (max_daily_loss ct) then
    Some (mkViolationInfo daily_loss daily_dd (max_daily_loss ct))
  else if Qgeb total_dd (max_total_loss ct) then
    Some (mkViolationInfo total_loss total_dd (max_total_loss ct))
  else if max_days_exceeded ct (trading_days_count ch) then
    Some (mkViolationInfo max_trading_days_v (inject_Z (trading_days_count ch))
            (match max_trading_days ct with Some m => inject_Z m | None => 0 end))
  else if (consistency_rule ct && Qgtb (total_pnl ch) 0)%bool then
    check_consistency_rule ch trades wall_now
  else None.

(* ------------------------------------------------------------------ *)
(** * Field assignments on a UserChallenge row *)

Definition set_current_balance (v : Q) (c : UserChallenge) : UserChallenge :=
  mkUserChallenge (ch_id c) (status c) (phase c) (account_mode c)
    (initial_balance c) v (peak_equity c) (daily_start_balance c)
    (daily_pnl c) (total_pnl c) (trading_days_count c) (daily_reset_at c)
    (started_at c) (funded_at c) (real_account_id c) (failed_at c).

Definition set_initial_balance (v : Q) (c : UserChallenge) : UserChallenge :=
  mkUserChallenge (ch_id c) (status c) (phase c) (account_mode c)
    v (current_balance c) (peak_equity c) (daily_start_balance c)
    (daily_pnl c) (total_pnl c) (trading_days_count c) (daily_reset_at c)
    (started_at c) (funded_at c) (real_account_id c) (failed_at c).

Definition set_peak_equity (v : Q) (c : UserChallenge) : UserChallenge :=
  mkUserChallenge (ch_id c) (status c) (phase c) (account_mode c)
    (initial_balance c) (current_balance c) v (daily_start_balance c)
    (daily_pnl c) (total_pnl c) (trading_days_count c) (daily_reset_at c)
    (started_at c) (funded_at c) (real_account_id c) (failed_at c).

Definition set_daily_start_balance (v : Q) (c : UserChallenge) : UserChallenge :=
  mkUserChallenge (ch_id c) (status c) (phase c) (account_mode c)
    (initial_balance c) (current_balance c) (peak_equity c) v
    (daily_pnl c) (total_pnl c) (trading_days_count c) (daily_reset_at c)
    (started_at c) (funded_at c) (real_account_id c) (failed_at c).

Definition set_daily_pnl (v : Q) (c : UserChallenge) : UserChallenge :=
  mkUserChallenge (ch_id c) (status c) (phase c) (account_mode c)
    (initial_balance c) (current_balance c) (peak_equity c)
    (daily_start_balance c) v (total_pnl c) (trading_days_count c)
    (daily_reset_at c) (started_at c) (funded_at c) (real_account_id c)
    (failed_at c).

Definition set_total_pnl (v : Q) (c : UserChallenge) : UserChallenge :=
  mkUserChallenge (ch_id c) (status c) (phase c) (account_mode c)
    (initial_balance c) (current_balance c) (peak_equity c)
    (daily_start_balance c) (daily_pnl c) v (trading_days_count c)
    (daily_reset_at c) (started_at c) (funded_at c) (real_account_id c)
    (failed_at c).

Definition set_trading_days_count (v : Z) (c : UserChallenge) : UserChallenge :=
  mkUserChallenge (ch_id c) (status c) (phase c) (account_mode c)
    (initial_balance c) (current_balance c) (peak_equity c)
    (daily_start_balance c) (daily_pnl c) (total_pnl c) v
    (daily_reset_at c) (started_at c) (funded_at c) (real_account_id c)
    (failed_at c).

Definition set_daily_reset_at (v : Z) (c : UserChallenge) : UserChallenge :=
  mkUserChallenge (ch_id c) (status c) (phase c) (account_mode c)
    (initial_balance c) (current_balance c) (peak_equity c)
    (daily_start_balance c) (daily_pnl c) (total_pnl c)
    (trading_days_count c) (Some v) (started_at c) (funded_at c)
    (real_account_id c) (failed_at c).

(** [status] and [phase] are assigned together by every transition. *)
Definition set_status (s : ChallengeStatus) (p : option Z) (c : UserChallenge)
    : UserChallenge :=
  mkUserChallenge (ch_id c) s p (account_mode c)
    (initial_balance c) (current_balance c) (peak_equity c)
    (daily_start_balance c) (daily_pnl c) (total_pnl c)
    (trading_days_count c) (daily_reset_at c) (started_at c) (funded_at c)
    (real_account_id c) (failed_at c).

Definition set_funded_account (acc : Z) (t : Z) (c : UserChallenge)
    : UserChallenge :=
  mkUserChallenge (ch_id c) (status c) (phase c) funded_mode
    (initial_balance c) (current_balance c) (peak_equity c)
    (daily_start_balance c) (daily_pnl c) (total_pnl c)
    (trading_days_count c) (daily_reset_at c) (started_at c) (Some t)
    (Some acc) (failed_at c).

Definition set_failed_at (t : Z) (c : UserChallenge) : UserChallenge :=
  mkUserChallenge (ch_id c) (status c) (phase c) (account_mode c)
    (initial_balance c) (current_balance c) (peak_equity c)
    (daily_start_balance c) (daily_pnl c) (total_pnl c)
    (trading_days_count c) (daily_reset_at c) (started_at c) (funded_at c)
    (real_account_id c) (Some t).

(* ------------------------------------------------------------------ *)
(** * The session: a ledger in memory and the ledger committed to the DB *)

Record Ledger := mkLedger {
  lch : UserChallenge;
  trades : list Trade;
  violations : list Violation;
  steps : list ScalingStep
}.

Record World := mkWorld {
  session : Ledger;
  committed : Ledger
}.

(** The exceptions the modelled code raises: [BybitAPIError], Decimal's
    [DivisionByZero] (a [ZeroDivisionError]), [ValueError], SQLAlchemy's
    [MissingGreenlet] (an implicit lazy load under an [AsyncSession]), and
    Decimal's [InvalidOperation] and [Overflow]. *)
Inductive Exc :=
  BybitAPIError | ZeroDivisionError | ValueError | MissingGreenlet | InvalidOperation
| Overflow.

Inductive Result (A : Type) :=
| ROk (a : A) (w : World)
| RErr (e : Exc) (w : World).
Arguments ROk {A} a w.
Arguments RErr {A} e w.

(** Statements that may raise, threading the session. *)
Definition M (A : Type) := World -> Result A.

Definition ret {A} (a : A) : M A := fun w => ROk a w.
Definition bind {A B} (m : M A) (k : A -> M B) : M B :=
  fun w => match m w with
           | ROk a w' => k a w'
           | RErr e w' => RErr e w'
           end.
Definition raise {A} (e : Exc) : M A := fun w => RErr e w.

Notation "x <- m ;; k" := (bind m (fun x => k))
  (at level 61, m at next level, right associativity).
Notation "m ;;; k" := (bind m (fun _ => k)) (at level 61, right associativity).

Definition get_ch : M UserChallenge := fun w => ROk (lch (session w)) w.

Definition modify_ch (f : UserChallenge -> UserChallenge) : M unit :=
  fun w => let l := session w in
    ROk tt (mkWorld (mkLedger (f (lch l)) (trades l) (violations l) (steps l))
                    (committed w)).

Definition get_ledger : M Ledger := fun w => ROk (session w) w.

(** [session.add(violation)]. *)
Definition add_violation (v : Violation) : M unit :=
  fun w => let l := session w in
    ROk tt (mkWorld (mkLedger (lch l) (trades l) (violations l ++ [v]) (steps l))
                    (committed w)).

(** [session.add(step)]. *)
Definition add_step (s : ScalingStep) : M unit :=
  fun w => let l := session w in
    ROk tt (mkWorld (mkLedger (lch l) (trades l) (violations l) (steps l ++ [s]))
                    (committed w)).

(** [await session.commit()]. *)
Definition commit : M unit :=
  fun w => ROk tt (mkWorld (session w) (session w)).

(** Decimal division: [x / 0] raises. *)
Definition qdiv (a b : Q) : M Q :=
  if Qeq_bool b 0 then raise ZeroDivisionError else ret (a / b).

(** Outcomes of the remote calls of one tick (the exchange and the master
    account), fixed by the environment. *)
Record Env := mkEnv {
  fetched : option (Q * Q);         (* get_balance: (equity, wallet_balance) *)
  now : Z;                          (* datetime.now(timezone.utc) *)
  close_all_ok : bool;              (* close_all_positions succeeds *)
  funded_setup : Exc + Z;           (* setup_funded_account: raises, or the new account id *)
  transfer_ok : bool                (* master internal_transfer succeeds *)
}.

(* ------------------------------------------------------------------ *)
(** * The engine (challenge_engine.py, class ChallengeEngine) *)

Definition SCALING_TRIGGER_PCT : Q := 10.
Definition SCALING_INCREASE_PCT : Q := 25.
Definition MAX_ACCOUNT_SIZE : Q := 2000000.

(** [_daily_reset_check]. *)
Definition daily_reset_check (current_balance : Q) (now : Z) : M unit :=
  ch <- get_ch ;;
  match daily_reset_at ch with
  | None =>
      modify_ch (fun c => set_daily_start_balance current_balance
                            (set_daily_reset_at now c))
  | Some r =>
      if Z.ltb (date_of r) (date_of now) then
        modify_ch (fun c => set_daily_reset_at now
                              (set_daily_pnl 0
                                 (set_daily_start_balance current_balance c)))
      else ret tt
  end.

(** [client.close_all_positions()] outside a [try/except]. *)
Definition close_all_positions (env : Env) : M unit :=
  if close_all_ok env then ret tt else raise BybitAPIError.

(** [_handle_violation]; a failure to close positions is caught and logged.
    The user role update and the notification do not touch the ledger. *)
Definition handle_violation (env : Env) (vi : ViolationInfo) : M unit :=
  ch <- get_ch ;;
  add_violation (mkViolation (ch_id ch) (vi_type vi) (vi_value vi) (vi_limit vi)
                   (now env)) ;;;
  modify_ch (fun c => set_failed_at (now env) (set_status failed (phase c) c)) ;;;
  commit.

(** [_promote_to_phase2]; the demo top-up failure is caught and logged. *)
Definition promote_to_phase2 (env : Env) : M unit :=
  close_all_positions env ;;;
  modify_ch (fun c => set_total_pnl 0 (set_daily_pnl 0
                        (set_trading_days_count 0 (set_status phase2 (Some 2%Z) c)))) ;;;
  modify_ch (fun c => set_daily_start_balance (initial_balance c)
                        (set_peak_equity (initial_balance c)
                           (set_current_balance (initial_balance c) c))) ;;;
  commit.

(** [_promote_to_funded]; every exception is logged and re-raised. *)
Definition promote_to_funded (env : Env) : M unit :=
  ch <- get_ch ;;
  match account_mode ch with
  | demo => close_all_positions env
  | funded_mode => ret tt
  end ;;;
  match funded_setup env with
  | inl e => raise e
  | inr acc =>
      modify_ch (fun c =>
        set_peak_equity (initial_balance c)
          (set_current_balance (initial_balance c)
             (set_daily_start_balance (initial_balance c)
                (set_total_pnl 0 (set_daily_pnl 0 (set_trading_days_count 0
                   (set_funded_account acc (now env)
                      (set_status funded None c)))))))) ;;;
      commit
  end.

(** [_check_profit_target]; the 50%/80% progress notifications are not
    modelled, the division computing [current_profit_pct] is. *)
Definition check_profit_target (env : Env) (ct : ChallengeType) (total_pnl : Q)
    : M unit :=
  ch <- get_ch ;;
  let go (target_pct : Q) : M unit :=
    let target_amount := initial_balance ch * target_pct / 100 in
    _current_profit_pct <- qdiv total_pnl (initial_balance ch) ;;
    if Qgeb total_pnl target_amount then
      if negb (Z.geb (trading_days_count ch) (min_trading_days ct)) then ret tt
      else match status ch with
           | phase1 => if is_one_phase ct then promote_to_funded env
                       else promote_to_phase2 env
           | phase2 => promote_to_funded env
           | _ => ret tt
           end
    else ret tt in
  match status ch with
  | phase1 => go (profit_target_p1 ct)
  | phase2 => go (profit_target_p2 ct)
  | _ => ret tt
  end.

(** [_update_trading_days]: two queries, then [pass]. *)
Definition update_trading_days (env : Env) : M unit := ret tt.

(** [challenge.scaling_steps[-1].triggered_at if challenge.scaling_steps
      else challenge.funded_at or challenge.started_at]. *)
Definition last_scale_time (ch : UserChallenge) (sts : list ScalingStep) : Z :=
  match rev sts with
  | s :: _ => triggered_at s
  | [] => match funded_at ch with Some f => f | None => started_at ch end
  end.

(** [Violation.challenge_id == id, Violation.occurred_at > last_scale]. *)
Definition violations_since (cid t : Z) (vs : list Violation) : list Violation :=
  filter (fun v => (Z.eqb (v_challenge_id v) cid && Z.ltb t (occurred_at v))%bool) vs.

(** [challenge.scaling_steps] read in [_check_scaling]. The relationship
    keeps SQLAlchemy's default lazy loading, and the query of
    [run_all_checks] eagerly loads only [challenge_type] and [user]; the
    attribute is therefore loaded on first access by an implicit synchronous
    query, which an [AsyncSession] refuses with [MissingGreenlet]. *)
Definition load_scaling_steps : M (list ScalingStep) := raise MissingGreenlet.

(** [_check_scaling]; the transfer failure is caught and logged.  The first
    read of [challenge.scaling_steps] (in [required_pct]) raises, so what
    follows it is written out as in the source but never runs. *)
Definition check_scaling (env : Env) (total_pnl : Q) : M unit :=
  ch <- get_ch ;;
  if Qgeb (current_balance ch) MAX_ACCOUNT_SIZE then ret tt else
  q <- qdiv total_pnl (initial_balance ch) ;;
  let profit_pct := q * 100 in
  sts <- load_scaling_steps ;;
  let required_pct := SCALING_TRIGGER_PCT * inject_Z (Z.of_nat (List.length sts) + 1) in
  if Qltb profit_pct required_pct then ret tt else
  let last_scale := last_scale_time ch sts in
  l <- get_ledger ;;
  match violations_since (ch_id ch) last_scale (violations l) with
  | _ :: _ => ret tt
  | [] =>
      let old_size := current_balance ch in
      let new_size := py_min (old_size * (1 + SCALING_INCREASE_PCT / 100))
                             MAX_ACCOUNT_SIZE in
      add_step (mkScalingStep (ch_id ch) (Z.of_nat (List.length sts) + 1)
                  old_size new_size (now env)) ;;;
      if transfer_ok env then
        modify_ch (fun c => set_peak_equity (py_max (peak_equity c) new_size)
                              (set_initial_balance new_size
                                 (set_current_balance new_size c)))
      else ret tt
  end.

(** [_check_challenge]; a [BybitAPIError] is caught (nothing more is
    committed), other exceptions propagate to [run_all_checks], which logs
    them.  Drawdown warnings are notifications only.  The clock read by
    [_check_consistency_rule] is identified with [now]. *)
Definition check_challenge_body (env : Env) (ct : ChallengeType) : M unit :=
  match fetched env with
  | None => raise BybitAPIError
  | Some (equity, wallet_balance) =>
      modify_ch (set_current_balance wallet_balance) ;;;
      ch <- get_ch ;;
      (if Qgtb equity (peak_equity ch) then modify_ch (set_peak_equity equity)
       else ret tt) ;;;
      daily_reset_check wallet_balance (now env) ;;;
      ch <- get_ch ;;
      let daily_drawdown_pct := calc_daily_drawdown ch equity in
      let total_drawdown_pct := calc_total_drawdown ch ct equity in
      let total_pnl := equity - initial_balance ch in
      modify_ch (fun c => set_total_pnl total_pnl
                            (set_daily_pnl (equity - daily_start_balance c) c)) ;;;
      ch <- get_ch ;;
      l <- get_ledger ;;
      match check_violations ch ct daily_drawdown_pct total_drawdown_pct
              (trades l) (now env) with
      | Some v => handle_violation env v
      | None =>
          check_profit_target env ct total_pnl ;;;
          update_trading_days env ;;;
          ch <- get_ch ;;
          (if status_eqb (status ch) funded then check_scaling env total_pnl
           else ret tt) ;;;
          commit
      end
  end.

(** One tick for one challenge, as seen by [run_all_checks], which catches
    every exception: the world after the tick. *)
Definition check_challenge (env : Env) (ct : ChallengeType) (w : World) : World :=
  match check_challenge_body env ct w with
  | ROk _ w' => w'
  | RErr _ w' => w'
  end.

(* ------------------------------------------------------------------ *)
(** * Funded-account provisioning (exchange/bybit_master.py) *)

(** The state-changing calls made on the master account, in order. *)
Inductive MasterCall :=
| CreateSubAccount
| InternalTransfer (amount : Q) (to_uid : Z)
| CreateSubApiKey (sub_uid : Z).

(** Answers of the master account's endpoints. *)
Record MasterEnv := mkMasterEnv {
  master_balance : Q;                   (* get_master_balance *)
  bybit_master_min_balance : Q;         (* settings, 10_000.0 by default *)
  create_sub_result : option Z;         (* create_sub_account: uid, or raises *)
  internal_transfer_ok : bool;
  create_key_ok : bool
}.

(** [check_master_balance]. *)
Definition check_master_balance (me : MasterEnv) : bool :=
  negb (Qltb (master_balance me) (bybit_master_min_balance me)).

(** [setup_funded_account]: the calls issued and either the raised
    exception or the new sub-account uid. *)
Definition setup_funded_account (me : MasterEnv) (account_size : Q)
    : list MasterCall * (Exc + Z) :=
  if negb (check_master_balance me) then ([], inl ValueError) else
  match create_sub_result me with
  | None => ([CreateSubAccount], inl BybitAPIError)
  | Some sub_uid =>
      let calls := [CreateSubAccount; InternalTransfer account_size sub_uid] in
      if negb (internal_transfer_ok me) then (calls, inl BybitAPIError) else
      let calls := calls ++ [CreateSubApiKey sub_uid] in
      if negb (create_key_ok me) then (calls, inl BybitAPIError)
      else (calls, inr sub_uid)
  end.

(* ------------------------------------------------------------------ *)
(** * Payout routes (api/routes/payouts.py) *)

Inductive UserRole :=
  guest | challenger | funded_trader | elite_trader | admin | super_admin.

Inductive PayoutStatus := pending | approved | rejected | processing | sent.

(** A [Decimal] held by a payout column: finite, NaN or infinite. *)
Inductive DecNum := DFin (q : Q) | DNaN | DInf (neg : bool).

Record Payout := mkPayout {
  p_user_id : Z;
  p_challenge_id : Z;
  p_amount : DecNum;
  p_fee : DecNum;
  p_net_amount : DecNum;
  p_status : PayoutStatus
}.

(** The columns of a UserChallenge row and of its plan that the routes read
    ([total_pnl] is a Numeric(18, 2), [profit_split_pct] a Numeric(5, 2)). *)
Record ChallengeRow := mkChallengeRow {
  r_id : Z;
  r_user_id : Z;
  r_status : ChallengeStatus;
  r_total_pnl : Q;
  r_profit_split_pct : Q
}.

Record AvailablePayoutOut := mkAvailablePayoutOut {
  a_challenge_id : Z;
  available_amount : float;
  a_profit_split_pct : float;
  a_min_payout : float;
  can_request : bool;
  pending_payout : bool
}.

(** A validated [PayoutRequest] body (wallet and network already checked);
    [amount] is a float. *)
Record PayoutRequest := mkPayoutRequest {
  b_challenge_id : Z;
  b_amount : float
}.

(** Outcome of a handler: an [HTTPException], an uncaught error (500), or
    the returned data. *)
Inductive Outcome (A : Type) :=
| HTTPError (code : Z) (detail : string)
| InternalError
| Data (a : A).
Arguments HTTPError {A} code detail.
Arguments InternalError {A}.
Arguments Data {A} a.

(** [settings.min_payout_amount = 50.0]: (25 * 2^48) * 2^-47. *)
Definition min_payout_amount : float := S754_finite false 7036874417766400 (-47).
(** [str(settings.min_payout_amount)]. *)
Definition min_payout_amount_repr : string := "50.0".

Definition payout_role_ok (r : UserRole) : bool :=
  match r with
  | funded_trader | elite_trader | admin | super_admin => true
  | _ => false
  end.

(** [float(d)] of a Decimal. *)
Definition float_of_dec (d : DecNum) : float :=
  match d with
  | DFin q => float_of_Q q
  | DNaN => S754_nan
  | DInf s => S754_infinity s
  end.

(** [Decimal(str(x))] of a float. *)
Definition decimal_of_float (x : float) : DecNum :=
  match x with
  | S754_finite _ _ _ => DFin (py_repr_value x)
  | S754_zero _ => DFin 0
  | S754_nan => DNaN
  | S754_infinity s => DInf s
  end.

(** [d - Decimal("0")] for [d = Decimal(str(x))]: its value, which has at
    most 17 significant digits and so is not rounded by the 28-digit
    context; NaN and the infinities are unchanged. *)
Definition dec_minus_zero (d : DecNum) : DecNum :=
  match d with
  | DFin q => DFin (q - 0)
  | _ => d
  end.

(** A value written to a [Numeric(18, 2)] column: PostgreSQL rounds it to
    two places, half away from zero, and refuses an infinity or a value
    whose rounded absolute value reaches 10^16 (numeric field overflow);
    NaN is stored as is. *)
Definition numeric_18_2 (d : DecNum) : option DecNum :=
  match d with
  | DFin q =>
      let c := round_half_away (q * 100) in
      if (10 ^ 18 <=? Z.abs c)%Z then None else Some (DFin (Qred (c # 100)))
  | DNaN => Some DNaN
  | DInf _ => None
  end.

(** The row the INSERT of a new payout writes, or [None] when the INSERT
    (and so the commit) fails. *)
Definition store_payout (p : Payout) : option Payout :=
  match numeric_18_2 (p_amount p), numeric_18_2 (p_fee p),
        numeric_18_2 (p_net_amount p) with
  | Some a, Some f, Some n =>
      Some (mkPayout (p_user_id p) (p_challenge_id p) a f n (p_status p))
  | _, _, _ => None
  end.

Definition find_funded_challenge (uid cid : Z) (rows : list ChallengeRow)
    : option ChallengeRow :=
  find (fun r => (Z.eqb (r_id r) cid && Z.eqb (r_user_id r) uid
                  && status_eqb (r_status r) funded)%bool) rows.

(** [float(p.net_amount)] of the approved or sent payouts of a challenge,
    in table order. *)
Fixpoint paid_net_amounts (cid : Z) (ps : list Payout) : list float :=
  match ps with
  | [] => []
  | p :: ps' =>
      let rest := paid_net_amounts cid ps' in
      if Z.eqb (p_challenge_id p) cid then
        match p_status p with
        | approved | sent => float_of_dec (p_net_amount p) :: rest
        | _ => rest
        end
      else rest
  end.

Definition pending_of (cid : Z) (ps : list Payout) : list Payout :=
  filter (fun p => Z.eqb (p_challenge_id p) cid &&
                   match p_status p with pending => true | _ => false end)%bool ps.

Section PayoutRoutes.

(** The [sum] of the paid net amounts ([py_sum] for CPython 3.11). *)
Variable sum_floats : list float -> float.

(** [available] in [get_available_payout] before rounding:
    [max(0, available - already_paid)], a float or the int 0. *)
Definition available_raw (row : ChallengeRow) (ps : list Payout) : float :=
  let total_pnl := float_of_Q (r_total_pnl row) in
  let split_pct := float_of_Q (r_profit_split_pct row) in
  let available := if py_flt fzero total_pnl
                   then fdiv (fmul total_pnl split_pct) f100 else fzero in
  let already_paid := sum_floats (paid_net_amounts (r_id row) ps) in
  let d := fsub available already_paid in
  if py_flt fzero d then d else fzero.

(** [get_available_payout]; [scalar_one_or_none] raises when two pending
    payouts exist. *)
Definition get_available_payout (cid uid : Z) (role : UserRole)
    (rows : list ChallengeRow) (ps : list Payout) : Outcome AvailablePayoutOut :=
  if negb (payout_role_ok role) then
    HTTPError 403 "Only funded traders can request payouts" else
  match find_funded_challenge uid cid rows with
  | None => HTTPError 404 "Funded challenge not found"
  | Some row =>
      let available := available_raw row ps in
      match pending_of cid ps with
      | _ :: _ :: _ => InternalError
      | pend =>
          let has_pending := match pend with [] => false | _ => true end in
          Data (mkAvailablePayoutOut cid (py_round2 available)
                  (float_of_Q (r_profit_split_pct row)) min_payout_amount
                  (py_fle min_payout_amount available && negb has_pending)%bool
                  has_pending)
      end
  end.

(** [request_payout]: the response and the payout table after the call.
    The response carries the payout object as built (its amounts are
    [Decimal(str(amount))]); the table receives the row as stored. *)
Definition request_payout (body : PayoutRequest) (uid : Z) (role : UserRole)
    (rows : list ChallengeRow) (ps : list Payout)
    : Outcome Payout * list Payout :=
  if negb (payout_role_ok role) then
    (HTTPError 403 "Only funded traders can request payouts", ps) else
  if py_flt (b_amount body) min_payout_amount then
    (HTTPError 400 ("Minimum payout amount is $" ++ min_payout_amount_repr)%string, ps)
  else
  match get_available_payout (b_challenge_id body) uid role rows ps with
  | HTTPError c d => (HTTPError c d, ps)
  | InternalError => (InternalError, ps)
  | Data available =>
      if negb (can_request available) then
        (HTTPError 400 "Cannot request payout now", ps)
      else if py_flt (available_amount available) (b_amount body) then
        (HTTPError 400 ("Amount exceeds available balance ("
                        ++ format_2f (available_amount available) ++ ")")%string, ps)
      else
        let fee := DFin 0 in
        let amount := decimal_of_float (b_amount body) in
        let net_amount := dec_minus_zero amount in
        let payout := mkPayout uid (b_challenge_id body) amount fee net_amount pending in
        match store_payout payout with
        | Some row => (Data payout, ps ++ [row])
        | None => (InternalError, ps)
        end
  end.

End PayoutRoutes.

(* ================================================================== *)
(** * The scheduler: ChallengeEngine.run_all_checks over committed sessions *)

Definition is_active_status (s : ChallengeStatus) : bool :=
  match s with phase1 | phase2 | funded => true | _ => false end.

Definition engine_run (env : Env) (ct : ChallengeType) (db : Ledger) : Ledger :=
  if is_active_status (status (lch db))
  then session (check_challenge env ct (mkWorld db db))
  else db.

Definition engine_runs (envs : list Env) (ct : ChallengeType) (db : Ledger) : Ledger :=
  fold_left (fun db env => engine_run env ct db) envs db.

(* ================================================================== *)
(** * Payout request validation (app/api/routes/payouts.py) *)

(** [str.isspace] on one code point. *)
Definition is_space (c : Z) : bool :=
  (((9 <=? c) && (c <=? 13)) || ((28 <=? c) && (c <=? 32)) || (c =? 133) || (c =? 160)
   || (c =? 5760) || ((8192 <=? c) && (c <=? 8202)) || (c =? 8232) || (c =? 8233)
   || (c =? 8239) || (c =? 8287) || (c =? 12288))%Z.

Fixpoint lstrip (v : list Z) : list Z :=
  match v with
  | c :: r => if is_space c then lstrip r else v
  | [] => []
  end.

(** [str.strip()] on a string as its list of code points. *)
Definition py_strip (v : list Z) : list Z := rev (lstrip (rev (lstrip v))).

(** [PayoutRequest.validate_wallet]. *)
Definition validate_wallet (v : list Z) : Exc + list Z :=
  if Nat.ltb (List.length v) 10 then inl ValueError else inr (py_strip v).

(* ------------------------------------------------------------------ *)
(** * The legacy trading backend: backend/models.py,
      backend/services/pnl_calculator.py and backend/services/risk_manager.py *)

Module Legacy.

Inductive AccountPhase := EVALUATION | VERIFICATION | FUNDED.
Inductive AccountStatus := ACTIVE | PASSED | FAILED.
Inductive TradeDirection := LONG | SHORT.
Inductive TradeStatus := OPEN | CLOSED.
Inductive CloseReason :=
  MANUAL | TAKE_PROFIT | STOP_LOSS | DAILY_DRAWDOWN | TRAILING_DRAWDOWN.
Inductive FailReason := DAILY_DRAWDOWN_EXCEEDED | TRAILING_DRAWDOWN_EXCEEDED.

(** The columns of [Account] the services read or write; timestamps are
    UTC seconds. *)
Record Account := mkAccount {
  id : Z;
  phase : AccountPhase;
  status : AccountStatus;
  initial_balance : Q;
  current_balance : Q;
  peak_equity : Q;
  day_start_balance : Q;
  day_start_date : option Z;
  max_daily_drawdown_pct : Q;
  max_trailing_drawdown_pct : Q;
  profit_target_pct : Q;
  min_trading_days : Z;
  trading_days_count : Z;
  total_trades : Z;
  winning_trades : Z;
  profit_split_pct : Q;
  fail_reason : option FailReason;
  fail_detail : option string;
  failed_at : option Z;
  phase_passed_at : option Z
}.

Record Trade := mkTrade {
  trade_id : Z;
  account_id : Z;
  symbol : string;
  direction : TradeDirection;
  t_status : TradeStatus;
  leverage : Z;
  position_size : Q;
  notional_value : Q;
  margin_used : Q;
  entry_price : Q;
  take_profit : Q;
  stop_loss : Q;
  close_price : option Q;
  realized_pnl : option Q;
  close_reason : option CloseReason;
  closed_at : option Z
}.

(** A [prices] dict from symbol to price, as an association list. *)
Definition Prices := list (string * Q).

(** [prices.get(symbol)]. *)
Definition price_get (prices : Prices) (s : string) : option Q :=
  match find (fun kv => String.eqb (fst kv) s) prices with
  | Some kv => Some (snd kv)
  | None => None
  end.

(** ** Decimal arithmetic in the default context *)

(** [decimal.DefaultContext]: 28 significant digits, ROUND_HALF_EVEN,
    adjusted exponents up to Emax = 999999, subnormal results down to the
    exponent Etiny = Emin - prec + 1 = -1000026; InvalidOperation,
    DivisionByZero and Overflow are trapped (raised), the other signals
    are not. *)
Definition dec_prec : Z := 28.
Definition dec_Emax : Z := 999999.
Definition dec_Etiny : Z := -1000026.

Definition dbind {A B : Type} (m : Exc + A) (k : A -> Exc + B) : Exc + B :=
  match m with inl e => inl e | inr a => k a end.

(** The exact result of an operation rounded to the context ([_fix]):
    to 28 significant digits, but not below the exponent Etiny, raising
    Overflow when the adjusted exponent exceeds Emax before or after the
    rounding. *)
Definition dec_fix (x : Q) : Exc + Q :=
  if Qeq_bool x 0 then inr 0 else
  let a := adjexp x in
  if (dec_Emax <? a)%Z then inl Overflow else
  let e := Z.max (a - dec_prec + 1) dec_Etiny in
  let v := inject_Z (round_half_even (x / pow10 e)) * pow10 e in
  if Qeq_bool v 0 then inr v
  else if (dec_Emax <? adjexp v)%Z then inl Overflow else inr v.

Definition dec_mul (a b : Q) : Exc + Q := dec_fix (a * b).
Definition dec_sub (a b : Q) : Exc + Q := dec_fix (a - b).

(** [a / b]; a zero divisor raises DivisionByZero (a ZeroDivisionError),
    or DivisionUndefined (an InvalidOperation) for 0 / 0. *)
Definition dec_div (a b : Q) : Exc + Q :=
  if Qeq_bool b 0 then inl (if Qeq_bool a 0 then InvalidOperation else ZeroDivisionError)
  else dec_fix (a / b).

(** [x.quantize(Decimal("1E<e>"))]: rounded half-even to the exponent e;
    InvalidOperation when the coefficient needs more than 28 digits. *)
Definition dec_quantize (x : Q) (e : Z) : Exc + Q :=
  let r := round_half_even (x / pow10 e) in
  if (10 ^ dec_prec <=? Z.abs r)%Z then inl InvalidOperation
  else inr (inject_Z r * pow10 e).

(** ** pnl_calculator.py *)

Definition calculate_trade_pnl (direction : TradeDirection)
    (entry_price close_price position_size : Q) (leverage : Z) : Q :=
  let direction_multiplier := match direction with LONG => 1 | SHORT => -1 end in
  let pnl := (close_price - entry_price) * direction_multiplier * position_size in
  round_cents pnl.

Definition calculate_unrealized_pnl (trade : Trade) (current_price : Q) : Q :=
  calculate_trade_pnl (direction trade) (entry_price trade) current_price
    (position_size trade) (leverage trade).

(** The loop of [calculate_equity]. *)
Definition unrealized_total (open_trades : list Trade) (prices : Prices) : Q :=
  fold_left (fun acc trade =>
               match price_get prices (symbol trade) with
               | Some price => acc + calculate_unrealized_pnl trade price
               | None => acc
               end) open_trades 0.

Definition calculate_equity (account : Account) (open_trades : list Trade)
    (prices : Prices) : Q :=
  round_cents (current_balance account + unrealized_total open_trades prices).

Definition calculate_trailing_drawdown_pct (equity peak_equity : Q) : Q :=
  if Qeq_bool peak_equity 0 then 0
  else round_cents ((peak_equity - equity) / peak_equity * 100).

Definition calculate_win_rate (total_trades winning_trades : Z) : Q :=
  if Z.eqb total_trades 0 then 0
  else round_cents (inject_Z winning_trades / inject_Z total_trades * 100).

(** The dict returned by [calculate_position_size_from_risk]. *)
Record PositionSizing := mkPositionSizing {
  ps_position_size : Q;
  ps_notional_value : Q;
  ps_margin_used : Q
}.

(** Every operation is a Decimal operation of the default context:
    [ValueError] for a stop on the wrong side, a zero [leverage] fails the
    division by [Decimal(str(leverage))], and a quantize raises
    InvalidOperation when its result needs more than 28 digits. *)
Definition calculate_position_size_from_risk (balance risk_pct entry_price stop_loss : Q)
    (direction : TradeDirection) (leverage : Z) : Exc + PositionSizing :=
  dbind (dec_mul balance risk_pct) (fun br =>
  dbind (dec_div br 100) (fun risk_amount =>
  dbind (match direction with
         | LONG => dec_sub entry_price stop_loss
         | SHORT => dec_sub stop_loss entry_price
         end) (fun stop_distance =>
  if Qle_bool stop_distance 0 then inl ValueError else
  dbind (dec_div risk_amount stop_distance) (fun position_size =>
  dbind (dec_mul position_size entry_price) (fun notional_value =>
  dbind (dec_div notional_value (inject_Z leverage)) (fun margin_used =>
  dbind (dec_quantize position_size (-8)) (fun ps =>
  dbind (dec_quantize notional_value (-2)) (fun nv =>
  dbind (dec_quantize margin_used (-2)) (fun mu =>
  inr (mkPositionSizing ps nv mu)))))))))).

(** ** risk_manager.py *)

Definition set_day_start (bal : Q) (date : Z) (a : Account) : Account :=
  mkAccount (id a) (phase a) (status a) (initial_balance a) (current_balance a)
    (peak_equity a) bal (Some date) (max_daily_drawdown_pct a)
    (max_trailing_drawdown_pct a) (profit_target_pct a) (min_trading_days a)
    (trading_days_count a) (total_trades a) (winning_trades a)
    (profit_split_pct a) (fail_reason a) (fail_detail a) (failed_at a)
    (phase_passed_at a).

(** [check_and_update_day_start]; [now] is [datetime.now(timezone.utc)]. *)
Definition check_and_update_day_start (now : Z) (account : Account) : Account :=
  let today_start := day_start now in
  match day_start_date account with
  | Some d => if Z.ltb d today_start
              then set_day_start (current_balance account) today_start account
              else account
  | None => set_day_start (current_balance account) today_start account
  end.

(** [check_drawdown_rules]: (violated, fail_reason); the detail message is
    a display string and is left out. *)
Definition check_drawdown_rules (account : Account) (equity : Q)
    : bool * option FailReason :=
  let day_start := day_start_balance account in
  let peak := peak_equity account in
  let daily_dd := calculate_daily_drawdown_pct equity day_start in
  let trailing_dd := calculate_trailing_drawdown_pct equity peak in
  let max_daily := max_daily_drawdown_pct account in
  let max_trailing := max_trailing_drawdown_pct account in
  if Qle_bool daily_dd (- max_daily) then (true, Some DAILY_DRAWDOWN_EXCEEDED)
  else if Qgeb trailing_dd max_trailing then (true, Some TRAILING_DRAWDOWN_EXCEEDED)
  else (false, None).

Definition close_trade_row (price pnl : Q) (reason : CloseReason) (now : Z)
    (t : Trade) : Trade :=
  mkTrade (trade_id t) (account_id t) (symbol t) (direction t) CLOSED (leverage t)
    (position_size t) (notional_value t) (margin_used t) (entry_price t)
    (take_profit t) (stop_loss t) (Some price) (Some pnl) (Some reason) (Some now).

(** [account.current_balance = ...; if pnl > 0: winning_trades += 1;
    total_trades += 1]. *)
Definition book_trade (new_balance pnl : Q) (a : Account) : Account :=
  mkAccount (id a) (phase a) (status a) (initial_balance a) new_balance
    (peak_equity a) (day_start_balance a) (day_start_date a)
    (max_daily_drawdown_pct a) (max_trailing_drawdown_pct a)
    (profit_target_pct a) (min_trading_days a) (trading_days_count a)
    (total_trades a + 1) (if Qgtb pnl 0 then winning_trades a + 1 else winning_trades a)
    (profit_split_pct a) (fail_reason a) (fail_detail a) (failed_at a)
    (phase_passed_at a).

Definition mark_failed (reason : FailReason) (detail : string) (now : Z)
    (a : Account) : Account :=
  mkAccount (id a) (phase a) FAILED (initial_balance a) (current_balance a)
    (peak_equity a) (day_start_balance a) (day_start_date a)
    (max_daily_drawdown_pct a) (max_trailing_drawdown_pct a)
    (profit_target_pct a) (min_trading_days a) (trading_days_count a)
    (total_trades a) (winning_trades a) (profit_split_pct a) (Some reason)
    (Some detail) (Some now) (phase_passed_at a).

(** The loop of [fail_account] over [open_trades]: a trade with a price
    is closed at that price and its P&L booked; the others are skipped. *)
Fixpoint close_priced (close_reason : CloseReason) (prices : Prices) (now : Z)
    (account : Account) (open_trades : list Trade) : Account * list Trade :=
  match open_trades with
  | [] => (account, [])
  | trade :: rest =>
      match price_get prices (symbol trade) with
      | None =>
          let (acc, done_) := close_priced close_reason prices now account rest in
          (acc, trade :: done_)
      | Some price =>
          let pnl := calculate_trade_pnl (direction trade) (entry_price trade) price
                       (position_size trade) (leverage trade) in
          let account := book_trade (round_cents (current_balance account + pnl)) pnl
                           account in
          let (acc, done_) := close_priced close_reason prices now account rest in
          (acc, close_trade_row price pnl close_reason now trade :: done_)
      end
  end.

(** [fail_account]: the account and the open trades after it. *)
Definition fail_account (account : Account) (fail_reason : FailReason)
    (detail : string) (open_trades : list Trade) (prices : Prices) (now : Z)
    : Account * list Trade :=
  let account := mark_failed fail_reason detail now account in
  let close_reason := match fail_reason with
                      | DAILY_DRAWDOWN_EXCEEDED => DAILY_DRAWDOWN
                      | TRAILING_DRAWDOWN_EXCEEDED => TRAILING_DRAWDOWN
                      end in
  close_priced close_reason prices now account open_trades.

(** [check_phase_completion]: whether the phase was passed, and the account. *)
Definition check_phase_completion (now : Z) (account : Account) : bool * Account :=
  let initial := initial_balance account in
  let current := current_balance account in
  let target_pct := profit_target_pct account in
  let target_balance := initial * (1 + target_pct / 100) in
  let days_ok := Z.geb (trading_days_count account) (min_trading_days account) in
  let profit_ok := Qgeb current target_balance in
  if negb (days_ok && profit_ok) then (false, account) else
  match phase account with
  | EVALUATION =>
      (true, mkAccount (id account) VERIFICATION ACTIVE 10000 10000 10000 10000
               (Some (day_start now)) (max_daily_drawdown_pct account)
               (max_trailing_drawdown_pct account) 5 (min_trading_days account)
               0 0 0 (profit_split_pct account) (fail_reason account)
               (fail_detail account) (failed_at account) (Some now))
  | VERIFICATION =>
      (true, mkAccount (id account) FUNDED ACTIVE (initial_balance account)
               (current_balance account) (peak_equity account)
               (day_start_balance account) (day_start_date account)
               (max_daily_drawdown_pct account) (max_trailing_drawdown_pct account)
               (profit_target_pct account) (min_trading_days account)
               (trading_days_count account) (total_trades account)
               (winning_trades account) 80 (fail_reason account)
               (fail_detail account) (failed_at account) (Some now))
  | FUNDED => (false, account)
  end.

Definition is_closed (s : TradeStatus) : bool :=
  match s with CLOSED => true | OPEN => false end.

(** The rows of [Trade.account_id == id, Trade.status == CLOSED,
    Trade.closed_at >= today_start]. *)
Definition closed_since (aid today_start : Z) (ts : list Trade) : list Trade :=
  filter (fun t => (Z.eqb (account_id t) aid && is_closed (t_status t)
                    && match closed_at t with
                       | Some c => Z.leb today_start c
                       | None => false
                       end)%bool) ts.

Definition set_trading_days_count (v : Z) (a : Account) : Account :=
  mkAccount (id a) (phase a) (status a) (initial_balance a) (current_balance a)
    (peak_equity a) (day_start_balance a) (day_start_date a)
    (max_daily_drawdown_pct a) (max_trailing_drawdown_pct a)
    (profit_target_pct a) (min_trading_days a) v (total_trades a)
    (winning_trades a) (profit_split_pct a) (fail_reason a) (fail_detail a)
    (failed_at a) (phase_passed_at a).

(** [update_trading_days]; [db_trades] are the rows the query reads. *)
Definition update_trading_days (now : Z) (account : Account) (db_trades : list Trade)
    : Account :=
  let today_start := day_start now in
  let closed_today := firstn 2 (closed_since (id account) today_start db_trades) in
  if Nat.eqb (List.length closed_today) 1
  then set_trading_days_count (trading_days_count account + 1) account
  else account.

Definition update_peak_equity (account : Account) (equity : Q) : Account :=
  if Qgtb equity (peak_equity account) then
    mkAccount (id account) (phase account) (status account) (initial_balance account)
      (current_balance account) equity (day_start_balance account)
      (day_start_date account) (max_daily_drawdown_pct account)
      (max_trailing_drawdown_pct account) (profit_target_pct account)
      (min_trading_days account) (trading_days_count account) (total_trades account)
      (winning_trades account) (profit_split_pct account) (fail_reason account)
      (fail_detail account) (failed_at account) (phase_passed_at account)
  else account.

(** ** routers/trading.py *)

(** A validated [OpenTradeRequest] (leverage in 1..10, risk_pct in
    0.1..10, take_profit and stop_loss positive, a supported symbol). *)
Record OpenTradeRequest := mkOpenTradeRequest {
  o_symbol : string;
  o_direction : TradeDirection;
  o_leverage : Z;
  o_risk_pct : Q;
  o_take_profit : Q;
  o_stop_loss : Q
}.

Definition account_status_value (s : AccountStatus) : string :=
  match s with ACTIVE => "ACTIVE" | PASSED => "PASSED" | FAILED => "FAILED" end.

Definition set_current_balance (v : Q) (a : Account) : Account :=
  mkAccount (id a) (phase a) (status a) (initial_balance a) v
    (peak_equity a) (day_start_balance a) (day_start_date a)
    (max_daily_drawdown_pct a) (max_trailing_drawdown_pct a)
    (profit_target_pct a) (min_trading_days a) (trading_days_count a)
    (total_trades a) (winning_trades a) (profit_split_pct a) (fail_reason a)
    (fail_detail a) (failed_at a) (phase_passed_at a).

Definition is_active (s : AccountStatus) : bool :=
  match s with ACTIVE => true | _ => false end.

(** [open_trade]: [entry_price] is what [fetch_price_rest] returned and
    [new_id] the id the database gives the new row; the account and the
    new trade as committed. *)
Definition open_trade (now : Z) (entry_price : Q) (new_id : Z)
    (account : Account) (body : OpenTradeRequest) : Outcome (Account * Trade) :=
  if negb (is_active (status account)) then
    HTTPError 400 ("Аккаунт имеет статус " ++ account_status_value (status account)
                   ++ ". Торговля недоступна.")%string else
  let account := check_and_update_day_start now account in
  let tp_sl_error :=
    match o_direction body with
    | LONG =>
        if Qle_bool (o_take_profit body) entry_price then
          Some "Take Profit должен быть выше цены входа для LONG"%string
        else if Qle_bool entry_price (o_stop_loss body) then
          Some "Stop Loss должен быть ниже цены входа для LONG"%string
        else None
    | SHORT =>
        if Qle_bool entry_price (o_take_profit body) then
          Some "Take Profit должен быть ниже цены входа для SHORT"%string
        else if Qle_bool (o_stop_loss body) entry_price then
          Some "Stop Loss должен быть выше цены входа для SHORT"%string
        else None
    end in
  match tp_sl_error with
  | Some d => HTTPError 400 d
  | None =>
  let balance := current_balance account in
  match calculate_position_size_from_risk balance (o_risk_pct body) entry_price
          (o_stop_loss body) (o_direction body) (o_leverage body) with
  | inl ValueError =>
      HTTPError 400 "Stop loss не корректен для выбранного направления"
  | inl _ => InternalError
  | inr size_data =>
      if Qgtb (ps_margin_used size_data) balance then
        HTTPError 400 "Недостаточно средств для открытия позиции" else
      let trade := mkTrade new_id (id account) (o_symbol body) (o_direction body)
                     OPEN (o_leverage body) (ps_position_size size_data)
                     (ps_notional_value size_data) (ps_margin_used size_data)
                     entry_price (o_take_profit body) (o_stop_loss body)
                     None None None None in
      let account := set_current_balance
                       (round_cents (balance - ps_margin_used size_data)) account in
      Data (account, trade)
  end
  end.

Definition is_open (s : TradeStatus) : bool :=
  match s with OPEN => true | CLOSED => false end.

(** The session's view of a row: the modified object when the identity
    map holds one for its id. *)
Definition replace_row (t : Trade) (rows : list Trade) : list Trade :=
  map (fun r => if Z.eqb (trade_id r) (trade_id t) then t else r) rows.

(** The commit: every modified object written to its row. *)
Definition write_back (ts : list Trade) (db : list Trade) : list Trade :=
  fold_left (fun db t => replace_row t db) ts db.

(** [close_trade]: [close_price] is what [fetch_price_rest] returned,
    [prices] what [fetch_all_prices] returned, [db] the committed trade
    rows and [detail_of] the message [check_drawdown_rules] builds; the
    account, the trade rows and the trade as committed. The session does
    not autoflush: the queries read the committed rows, and a row whose
    object the session already holds comes back as that object. *)
Definition close_trade (now : Z) (close_price : Q) (prices : Prices)
    (detail_of : FailReason -> string) (account : Account) (db : list Trade)
    (tid : Z) : Outcome (Account * list Trade * Trade) :=
  match find (fun r => (Z.eqb (trade_id r) tid && Z.eqb (account_id r) (id account)
                        && is_open (t_status r))%bool) db with
  | None => HTTPError 404 "Открытая сделка не найдена"
  | Some trade =>
      let pnl := calculate_trade_pnl (direction trade) (entry_price trade) close_price
                   (position_size trade) (leverage trade) in
      let trade := close_trade_row close_price pnl MANUAL now trade in
      let margin := margin_used trade in
      let account := book_trade (round_cents (current_balance account + margin + pnl))
                       pnl account in
      let account := update_trading_days now account db in
      let open_trades :=
        replace_row trade (filter (fun r => (Z.eqb (account_id r) (id account)
                                             && is_open (t_status r))%bool) db) in
      let equity := calculate_equity account open_trades prices in
      let account := update_peak_equity account equity in
      match check_drawdown_rules account equity with
      | (true, Some reason) =>
          let (account, closed) :=
            fail_account account reason (detail_of reason) open_trades prices now in
          let trade := match find (fun r => Z.eqb (trade_id r) (trade_id trade)) closed with
                       | Some t => t
                       | None => trade
                       end in
          Data (account, write_back closed (replace_row trade db), trade)
      | _ =>
          let (_, account) := check_phase_completion now account in
          Data (account, replace_row trade db, trade)
      end
  end.

End Legacy.

(* ================================================================== *)
(** * Proofs *)

(** ** Boolean comparisons *)

Lemma Qgeb_true (a b : Q) : Qgeb a b = true <-> b <= a.
Proof. unfold Qgeb. apply Qle_bool_iff. Qed.

Lemma Qltb_true (a b : Q) : Qltb a b = true <-> a < b.
Proof.
  unfold Qltb. rewrite negb_true_iff. split; intro H.
  - apply Qnot_le_lt. intro H'. apply Qle_bool_iff in H'. congruence.
  - destruct (Qle_bool b a) eqn:E; [|reflexivity].
    apply Qle_bool_iff in E. exfalso. apply (Qlt_not_le a b); assumption.
Qed.

Lemma Qltb_false (a b : Q) : Qltb a b = false <-> b <= a.
Proof.
  unfold Qltb. rewrite negb_false_iff. apply Qle_bool_iff.
Qed.

Lemma Qgeb_false (a b : Q) : Qgeb a b = false <-> a < b.
Proof.
  unfold Qgeb. split; intro H.
  - apply Qnot_le_lt. intro H'. apply Qle_bool_iff in H'. congruence.
  - destruct (Qle_bool b a) eqn:E; [|reflexivity].
    apply Qle_bool_iff in E. exfalso. apply (Qlt_not_le a b); assumption.
Qed.

Lemma Qgtb_true (a b : Q) : Qgtb a b = true <-> b < a.
Proof. unfold Qgtb. apply Qltb_true. Qed.

Lemma Qgtb_false (a b : Q) : Qgtb a b = false <-> a <= b.
Proof. unfold Qgtb. apply Qltb_false. Qed.

(** ** Rule checks *)

Lemma check_consistency_rule_type (ch : UserChallenge) (trades : list Trade)
    (t : Z) (v : ViolationInfo) :
  check_consistency_rule ch trades t = Some v -> vi_type v = consistency.
Proof.
  unfold check_consistency_rule.
  destruct (Qle_bool (total_pnl ch) 0); [discriminate|].
  destruct (Qgtb _ _); [|discriminate].
  intro H. injection H as <-. reflexivity.
Qed.

(** C1: daily loss is checked first, then total loss; both thresholds are
    inclusive: at the limit the violation is returned, strictly below it
    the check falls through. *)
Theorem check_violations_loss_order :
  forall (ch : UserChallenge) (ct : ChallengeType) (daily_dd total_dd : Q)
         (trades : list Trade) (t : Z),
    (max_daily_loss ct <= daily_dd ->
       check_violations ch ct daily_dd total_dd trades t
       = Some (mkViolationInfo daily_loss daily_dd (max_daily_loss ct))) /\
    (daily_dd < max_daily_loss ct -> max_total_loss ct <= total_dd ->
       check_violations ch ct daily_dd total_dd trades t
       = Some (mkViolationInfo total_loss total_dd (max_total_loss ct))) /\
    (daily_dd < max_daily_loss ct -> total_dd < max_total_loss ct ->
       forall v, check_violations ch ct daily_dd total_dd trades t = Some v ->
       vi_type v <> daily_loss /\ vi_type v <> total_loss).
Proof.
  intros ch ct dd td trades t. unfold check_violations.
  split; [|split].
  - intro H. apply Qgeb_true in H. rewrite H. reflexivity.
  - intros H1 H2. apply Qgeb_false in H1. apply Qgeb_true in H2.
    rewrite H1, H2. reflexivity.
  - intros H1 H2 v. apply Qgeb_false in H1. apply Qgeb_false in H2.
    rewrite H1, H2.
    destruct (max_days_exceeded ct (trading_days_count ch)).
    + intro H. injection H as <-. simpl. split; discriminate.
    + destruct (consistency_rule ct && Qgtb (total_pnl ch) 0)%bool; [|discriminate].
      intro H. apply check_consistency_rule_type in H. rewrite H.
      split; discriminate.
Qed.

Lemma pct_pos (a b : Q) : 0 < b -> 0 < a -> 0 < a / b * 100.
Proof.
  intros Hb Ha.
  assert (0 < a / b) by (apply Qlt_shift_div_l; [assumption| lra]).
  lra.
Qed.

Lemma pct_nonpos (a b : Q) : 0 < b -> a <= 0 -> a / b * 100 <= 0.
Proof.
  intros Hb Ha.
  assert (a / b <= 0) by (apply Qle_shift_div_r; [assumption| lra]).
  lra.
Qed.

Lemma Qeq_bool_false_pos (b : Q) : 0 < b -> Qeq_bool b 0 = false.
Proof.
  intro H. destruct (Qeq_bool b 0) eqn:E; [|reflexivity].
  apply Qeq_bool_iff in E. lra.
Qed.

(** ** Rounding to cents *)

Lemma round_half_even_bound (q : Q) :
  (- Zpos (Qden q) <= 2 * (Qnum q - round_half_even q * Zpos (Qden q))
   <= Zpos (Qden q))%Z.
Proof.
  unfold round_half_even.
  set (n := Qnum q). set (d := Zpos (Qden q)).
  assert (Hd : (0 < d)%Z) by (unfold d; lia).
  pose proof (Z.div_mod n d ltac:(lia)) as Hdm.
  pose proof (Z.mod_pos_bound n d Hd) as Hr.
  set (f := (n / d)%Z) in *. set (r := (n mod d)%Z) in *.
  destruct (Z.compare_spec (2 * r) d) as [E|E|E].
  - destruct (Z.even f); nia.
  - nia.
  - nia.
Qed.

Lemma half_bound_ge (n d m r : Z) : (0 < d)%Z -> (m * d <= n)%Z ->
  (2 * (n - r * d) <= d)%Z -> (m <= r)%Z.
Proof.
  intros Hd H1 H2.
  destruct (Z_le_gt_dec m r) as [Hle|Hgt]; [exact Hle|exfalso].
  assert (Hm : (d <= (m - r) * d)%Z) by nia.
  lia.
Qed.

Lemma half_bound_le (n d m r : Z) : (0 < d)%Z -> (n <= m * d)%Z ->
  (- d <= 2 * (n - r * d))%Z -> (r <= m)%Z.
Proof.
  intros Hd H1 H2.
  destruct (Z_le_gt_dec r m) as [Hle|Hgt]; [exact Hle|exfalso].
  assert (Hm : (d <= (r - m) * d)%Z) by nia.
  lia.
Qed.

Lemma round_half_even_ge (m : Z) (q : Q) :
  inject_Z m <= q -> (m <= round_half_even q)%Z.
Proof.
  intro H. pose proof (round_half_even_bound q) as B.
  unfold Qle in H. simpl in H.
  apply (half_bound_ge (Qnum q) (Zpos (Qden q))); [lia|lia|apply B].
Qed.

Lemma round_half_even_le (m : Z) (q : Q) :
  q <= inject_Z m -> (round_half_even q <= m)%Z.
Proof.
  intro H. pose proof (round_half_even_bound q) as B.
  unfold Qle in H. simpl in H.
  apply (half_bound_le (Qnum q) (Zpos (Qden q))); [lia|lia|apply B].
Qed.

Lemma round_half_even_int (m : Z) (q : Q) :
  q == inject_Z m -> round_half_even q = m.
Proof.
  intro H. apply Z.le_antisymm.
  - apply round_half_even_le. rewrite H. apply Qle_refl.
  - apply round_half_even_ge. rewrite H. apply Qle_refl.
Qed.

Lemma Qmake_100 (m : Z) : m # 100 == inject_Z m * (1 # 100).
Proof. unfold Qeq. simpl. lia. Qed.

Lemma round_cents_ge (m : Z) (x : Q) : m # 100 <= x -> m # 100 <= round_cents x.
Proof.
  intro H. unfold round_cents.
  assert (H1 : inject_Z m <= x * 100).
  { rewrite Qmake_100 in H. lra. }
  apply round_half_even_ge in H1.
  unfold Qle; cbn [Qnum Qden]; lia.
Qed.

Lemma round_cents_le (m : Z) (x : Q) : x <= m # 100 -> round_cents x <= m # 100.
Proof.
  intro H. unfold round_cents.
  assert (H1 : x * 100 <= inject_Z m).
  { rewrite Qmake_100 in H. lra. }
  apply round_half_even_le in H1.
  unfold Qle; cbn [Qnum Qden]; lia.
Qed.

Lemma round_cents_exact (m : Z) (x : Q) : x == m # 100 -> round_cents x == m # 100.
Proof.
  intro H. unfold round_cents.
  rewrite (round_half_even_int m); [reflexivity|].
  rewrite H, Qmake_100. field.
Qed.

Lemma round_half_even_spec (q : Q) :
  let n := Qnum q in let d := Zpos (Qden q) in let a := round_half_even q in
  (- d <= 2 * (n - a * d) <= d)%Z /\
  ((2 * (n - a * d) = d \/ 2 * (n - a * d) = - d)%Z -> Z.even a = true).
Proof.
  cbv zeta. split; [apply round_half_even_bound|].
  unfold round_half_even.
  set (n := Qnum q). set (d := Zpos (Qden q)).
  assert (Hd : (0 < d)%Z) by (unfold d; lia).
  pose proof (Z.div_mod n d ltac:(lia)) as Hdm.
  pose proof (Z.mod_pos_bound n d Hd) as Hr.
  set (f := (n / d)%Z) in *. set (r := (n mod d)%Z) in *.
  destruct (Z.compare_spec (2 * r) d) as [E|E|E].
  - destruct (Z.even f) eqn:Ef; [intros _; exact Ef|].
    intros _. rewrite Z.even_add, Ef. reflexivity.
  - intros [H|H]; exfalso; nia.
  - intros [H|H]; exfalso; nia.
Qed.

Lemma round_unique (n d a b : Z) : (0 < d)%Z ->
  (- d <= 2 * (n - a * d) <= d)%Z -> (- d <= 2 * (n - b * d) <= d)%Z ->
  ((2 * (n - a * d) = d \/ 2 * (n - a * d) = - d)%Z -> Z.even a = true) ->
  ((2 * (n - b * d) = d \/ 2 * (n - b * d) = - d)%Z -> Z.even b = true) ->
  a = b.
Proof.
  intros Hd Ha Hb Ta Tb.
  destruct (Z.lt_trichotomy a b) as [H|[H|H]]; [|exact H|].
  - assert (Hb1 : b = (a + 1)%Z).
    { assert (Hx : ((b - a) * d <= d)%Z) by nia.
      assert (Hy : (b - a <= 1)%Z) by nia. lia. }
    subst b. exfalso.
    assert (Ea : Z.even a = true) by (apply Ta; left; nia).
    assert (Eb : Z.even (a + 1) = true) by (apply Tb; right; nia).
    rewrite Z.even_add, Ea in Eb. discriminate.
  - assert (Ha1 : a = (b + 1)%Z).
    { assert (Hx : ((a - b) * d <= d)%Z) by nia.
      assert (Hy : (a - b <= 1)%Z) by nia. lia. }
    subst a. exfalso.
    assert (Eb : Z.even b = true) by (apply Tb; left; nia).
    assert (Ea : Z.even (b + 1) = true) by (apply Ta; right; nia).
    rewrite Z.even_add, Eb in Ea. discriminate.
Qed.

Lemma scale_bound (X Y d1 d2 : Z) : (0 < d1)%Z -> (0 < d2)%Z ->
  (X * d1 = Y * d2)%Z -> (- d1 <= Y <= d1)%Z -> (- d2 <= X <= d2)%Z.
Proof.
  intros H1 H2 E [Ha Hb]. split.
  - assert (Hx : (- d2 * d1 <= X * d1)%Z) by nia. nia.
  - assert (Hx : (X * d1 <= d2 * d1)%Z) by nia. nia.
Qed.

Lemma scale_tie (X Y d1 d2 : Z) : (0 < d1)%Z -> (0 < d2)%Z ->
  (X * d1 = Y * d2)%Z -> (X = d2 \/ X = - d2)%Z -> (Y = d1 \/ Y = - d1)%Z.
Proof.
  intros H1 H2 E [H|H]; subst X; [left|right]; nia.
Qed.

Lemma round_half_even_Qeq (q1 q2 : Q) : q1 == q2 -> round_half_even q1 = round_half_even q2.
Proof.
  intro E. unfold Qeq in E.
  destruct (round_half_even_spec q1) as [B1 T1].
  destruct (round_half_even_spec q2) as [B2 T2].
  set (a := round_half_even q1) in *. set (b := round_half_even q2) in *.
  destruct q1 as [n1 d1], q2 as [n2 d2]. simpl in *.
  assert (Hd1 : (0 < Zpos d1)%Z) by lia. assert (Hd2 : (0 < Zpos d2)%Z) by lia.
  (* carry a to the representation of q2 *)
  assert (K : forall z, (2 * (n2 - z * Zpos d2) * Zpos d1
                         = 2 * (n1 - z * Zpos d1) * Zpos d2)%Z) by (intro; nia).
  apply (round_unique n2 (Zpos d2) a b Hd2); [| exact B2 | | exact T2].
  - apply (scale_bound _ (2 * (n1 - a * Zpos d1)) (Zpos d1)); [lia|lia|apply K|exact B1].
  - intro H. apply T1. apply (scale_tie (2 * (n2 - a * Zpos d2)) _ (Zpos d1) (Zpos d2));
      [lia|lia|apply K|exact H].
Qed.

Lemma round_half_even_opp (q : Q) : round_half_even (- q) = (- round_half_even q)%Z.
Proof.
  destruct (round_half_even_spec q) as [B T].
  destruct (round_half_even_spec (- q)) as [B' T'].
  set (a := round_half_even q) in *. set (b := round_half_even (- q)) in *.
  destruct q as [n d]. cbn [Qnum Qden Qopp] in *.
  symmetry. apply (round_unique (- n) (Zpos d) (- a) b); [lia| | exact B' | | exact T'].
  - nia.
  - intros H. rewrite Z.even_opp. apply T. nia.
Qed.

Lemma round_cents_Qeq (x y : Q) : x == y -> round_cents x = round_cents y.
Proof.
  intro E. unfold round_cents. rewrite (round_half_even_Qeq (x * 100) (y * 100)); [reflexivity|].
  rewrite E. reflexivity.
Qed.

Lemma round_cents_opp (x : Q) : round_cents (- x) = - round_cents x.
Proof.
  unfold round_cents. rewrite (round_half_even_Qeq (- x * 100) (- (x * 100))) by ring.
  rewrite round_half_even_opp. reflexivity.
Qed.

Lemma round_cents_num (x : Q) : exists m, round_cents x = m # 100.
Proof. unfold round_cents. eexists. reflexivity. Qed.

Lemma round_cents_nonneg (x : Q) : 0 <= x -> 0 <= round_cents x.
Proof.
  intro H. pose proof (round_cents_ge 0 x) as G.
  assert (E : 0 # 100 == 0) by reflexivity. rewrite E in G. apply G, H.
Qed.

Lemma round_cents_le_100 (x : Q) : x <= 100 -> round_cents x <= 100.
Proof.
  intro H. pose proof (round_cents_le 10000 x) as G.
  assert (E : 10000 # 100 == 100) by reflexivity. rewrite E in G. apply G, H.
Qed.

(** C3 (as amended): the engine's daily drawdown is 0 when the day's start
    balance is 0, is max(0, (start - equity) / start * 100) when the start
    balance is positive, and so is never negative for a non-negative start
    balance.  The legacy [calculate_daily_drawdown_pct] is the signed
    percentage (equity - start) / start * 100 rounded to cents, 0 for a
    zero start balance: for a positive start balance it is at most 0 when
    equity <= start, and at most -0.01 once the loss reaches 0.01% of the
    start balance. *)
Theorem calc_daily_drawdown_spec :
  forall (ch : UserChallenge) (equity : Q),
    (daily_start_balance ch == 0 -> calc_daily_drawdown ch equity = 0) /\
    (0 < daily_start_balance ch ->
       calc_daily_drawdown ch equity
       == Qmax 0 ((daily_start_balance ch - equity) / daily_start_balance ch * 100)) /\
    (0 <= daily_start_balance ch -> 0 <= calc_daily_drawdown ch equity) /\
    (forall d : Q, d == 0 -> calculate_daily_drawdown_pct equity d = 0) /\
    (forall d : Q, 0 < d ->
       calculate_daily_drawdown_pct equity d = round_cents ((equity - d) / d * 100) /\
       (equity <= d -> calculate_daily_drawdown_pct equity d <= 0) /\
       ((equity - d) / d * 100 <= -(1 # 100) ->
          calculate_daily_drawdown_pct equity d <= -(1 # 100))).
Proof.
  intros ch eq.
  assert (Hleg : (forall d : Q, d == 0 -> calculate_daily_drawdown_pct eq d = 0) /\
    (forall d : Q, 0 < d ->
       calculate_daily_drawdown_pct eq d = round_cents ((eq - d) / d * 100) /\
       (eq <= d -> calculate_daily_drawdown_pct eq d <= 0) /\
       ((eq - d) / d * 100 <= -(1 # 100) ->
          calculate_daily_drawdown_pct eq d <= -(1 # 100)))).
  { unfold calculate_daily_drawdown_pct. split.
    - intros d Hd. apply Qeq_bool_iff in Hd. rewrite Hd. reflexivity.
    - intros d Hd. rewrite (Qeq_bool_false_pos d Hd).
      split; [reflexivity|split].
      + intro He. apply (Qle_trans _ (0 # 100)); [|unfold Qle; simpl; lia].
        apply (round_cents_le 0). apply (Qle_trans _ 0); [|unfold Qle; simpl; lia].
        apply pct_nonpos; [exact Hd|lra].
      + intro Hx. apply (round_cents_le (-1)). exact Hx. }
  cut ((daily_start_balance ch == 0 -> calc_daily_drawdown ch eq = 0) /\
    (0 < daily_start_balance ch ->
       calc_daily_drawdown ch eq
       == Qmax 0 ((daily_start_balance ch - eq) / daily_start_balance ch * 100)) /\
    (0 <= daily_start_balance ch -> 0 <= calc_daily_drawdown ch eq)).
  { intros [A [B C]]. exact (conj A (conj B (conj C Hleg))). }
  clear Hleg. unfold calc_daily_drawdown.
  set (d := daily_start_balance ch).
  assert (Hpos : 0 < d ->
     (if Qle_bool (d - eq) 0 then 0 else (d - eq) / d * 100)
     == Qmax 0 ((d - eq) / d * 100)).
  { intro Hd. destruct (Qle_bool (d - eq) 0) eqn:E.
    - apply Qle_bool_iff in E. symmetry. apply Q.max_l.
      apply pct_nonpos; assumption.
    - assert (Hl : 0 < d - eq).
      { apply Qnot_le_lt. intro H. apply Qle_bool_iff in H. congruence. }
      symmetry. apply Q.max_r. apply Qlt_le_weak. apply pct_pos; assumption. }
  split; [|split].
  - intro H. apply Qeq_bool_iff in H. rewrite H. reflexivity.
  - intro Hd. rewrite (Qeq_bool_false_pos d Hd). apply Hpos. exact Hd.
  - intro Hd. destruct (Qeq_bool d 0) eqn:E0; [lra|].
    assert (Hd' : 0 < d).
    { apply Qle_lt_or_eq in Hd. destruct Hd as [Hd|Hd]; [exact Hd|].
      exfalso. assert (Qeq_bool d 0 = true) by (apply Qeq_bool_iff; lra).
      congruence. }
    destruct (Qle_bool (d - eq) 0) eqn:E; [lra|].
    assert (Hl : 0 < d - eq).
    { apply Qnot_le_lt. intro H. apply Qle_bool_iff in H. congruence. }
    apply Qlt_le_weak. apply pct_pos; assumption.
Qed.

(** C3 counterexample: the daily drawdown of pnl_calculator is signed; a
    5% loss from the day's start gives -5.00, below 0. *)
Lemma calculate_daily_drawdown_pct_negative :
  calculate_daily_drawdown_pct 9500 10000 == -5 /\
  calculate_daily_drawdown_pct 9500 10000 < 0.
Proof. split; vm_compute; reflexivity. Qed.

Lemma ratio_gt_30 (today total : Q) :
  0 < total -> (total * 30 / 100 < today <-> 3 # 10 < today / total).
Proof.
  intro Ht.
  assert (E1 : total * 30 / 100 == (3 # 10) * total) by (field; discriminate).
  rewrite E1. split; intro H.
  - apply Qlt_shift_div_l; assumption.
  - apply (Qmult_lt_r _ _ total Ht) in H.
    assert (E2 : today / total * total == today).
    { field. intro Hz. rewrite Hz in Ht. apply (Qlt_irrefl 0). exact Ht. }
    rewrite E2 in H. exact H.
Qed.

(** C6: the consistency rule is reached only when the plan enables it and
    total_pnl > 0; it reports a consistency violation iff today's P&L over
    total_pnl is strictly above 30%, so exactly 30% passes. *)
Theorem consistency_rule_strict :
  forall (ch : UserChallenge) (ct : ChallengeType) (daily_dd total_dd : Q)
         (trades : list Trade) (t : Z),
    let today := today_pnl (ch_id ch) (day_start t) trades in
    ((consistency_rule ct = false \/ total_pnl ch <= 0) ->
       forall v, check_violations ch ct daily_dd total_dd trades t = Some v ->
       vi_type v <> consistency) /\
    (daily_dd < max_daily_loss ct -> total_dd < max_total_loss ct ->
       max_days_exceeded ct (trading_days_count ch) = false ->
       consistency_rule ct = true -> 0 < total_pnl ch ->
       check_violations ch ct daily_dd total_dd trades t
       = check_consistency_rule ch trades t) /\
    (forall v, check_consistency_rule ch trades t = Some v ->
       vi_type v = consistency) /\
    (0 < total_pnl ch ->
       ((exists v, check_consistency_rule ch trades t = Some v)
        <-> 3 # 10 < today / total_pnl ch)) /\
    (0 < total_pnl ch -> today / total_pnl ch == 3 # 10 ->
       check_consistency_rule ch trades t = None).
Proof.
  intros ch ct dd td trades t today.
  assert (Hiff : 0 < total_pnl ch ->
            ((exists v, check_consistency_rule ch trades t = Some v)
             <-> 3 # 10 < today / total_pnl ch)).
  { intro Hp. rewrite <- ratio_gt_30 by exact Hp.
    unfold check_consistency_rule.
    assert (Hb : Qle_bool (total_pnl ch) 0 = false).
    { destruct (Qle_bool (total_pnl ch) 0) eqn:E; [|reflexivity].
      apply Qle_bool_iff in E. lra. }
    rewrite Hb. fold today.
    destruct (Qgtb today (total_pnl ch * 30 / 100)) eqn:E.
    - apply Qgtb_true in E. split; [intros _; exact E|intros _; eexists; reflexivity].
    - apply Qgtb_false in E. split; [intros [v Hv]; discriminate|].
      intro H. exfalso. apply (Qlt_not_le _ _ H E). }
  split; [|split; [|split; [|split]]].
  - intros Hc v. unfold check_violations.
    destruct (Qgeb dd (max_daily_loss ct)).
    { intro H. injection H as <-. discriminate. }
    destruct (Qgeb td (max_total_loss ct)).
    { intro H. injection H as <-. discriminate. }
    destruct (max_days_exceeded ct (trading_days_count ch)).
    { intro H. injection H as <-. discriminate. }
    assert (Hf : (consistency_rule ct && Qgtb (total_pnl ch) 0)%bool = false).
    { destruct Hc as [Hc|Hc].
      - rewrite Hc. reflexivity.
      - apply andb_false_iff. right. apply Qgtb_false. exact Hc. }
    rewrite Hf. discriminate.
  - intros H1 H2 H3 H4 H5. unfold check_violations.
    apply Qgeb_false in H1. apply Qgeb_false in H2.
    rewrite H1, H2, H3, H4.
    assert (Qgtb (total_pnl ch) 0 = true) as -> by (apply Qgtb_true; exact H5).
    reflexivity.
  - apply check_consistency_rule_type.
  - exact Hiff.
  - intros Hp Heq. destruct (check_consistency_rule ch trades t) eqn:E; [|reflexivity].
    exfalso. assert (H : 3 # 10 < today / total_pnl ch)
      by (apply (proj1 (Hiff Hp)); eexists; reflexivity).
    rewrite Heq in H. apply (Qlt_irrefl _ H).
Qed.

(** ** Reasoning about the session monad *)

Definition peak_of (w : World) : Q := peak_equity (lch (session w)).
Definition st (w : World) : ChallengeStatus := status (lch (session w)).

Definition outw {A} (r : Result A) : World :=
  match r with ROk _ w => w | RErr _ w => w end.

Definition hoare {A} (P : World -> Prop) (m : M A) (Q : A -> World -> Prop)
    (E : World -> Prop) : Prop :=
  forall w, P w -> match m w with ROk a w' => Q a w' | RErr _ w' => E w' end.

Lemma hoare_bind {A B} (P : World -> Prop) (m : M A) (k : A -> M B)
    (Q : A -> World -> Prop) (R : B -> World -> Prop) (E : World -> Prop) :
  hoare P m Q E -> (forall a, hoare (Q a) (k a) R E) -> hoare P (bind m k) R E.
Proof.
  intros Hm Hk w Hw. unfold bind. specialize (Hm w Hw).
  destruct (m w) as [a w'|e w']; [apply Hk|]; exact Hm.
Qed.

Lemma hoare_ret {A} (a : A) (P : World -> Prop) (Q : A -> World -> Prop) E :
  (forall w, P w -> Q a w) -> hoare P (ret a) Q E.
Proof. intros H w Hw. apply H, Hw. Qed.

Lemma hoare_raise {A} (e : Exc) (P : World -> Prop) (Q : A -> World -> Prop) E :
  (forall w, P w -> E w) -> hoare P (raise e) Q E.
Proof. intros H w Hw. apply H, Hw. Qed.

Lemma hoare_get_ch (P : World -> Prop) E :
  hoare P get_ch (fun c w => P w /\ c = lch (session w)) E.
Proof. intros w Hw. simpl. auto. Qed.

Lemma hoare_get_ledger (P : World -> Prop) E :
  hoare P get_ledger (fun l w => P w /\ l = session w) E.
Proof. intros w Hw. simpl. auto. Qed.

Lemma hoare_qdiv (a b : Q) (P : World -> Prop) E :
  (forall w, P w -> E w) -> hoare P (qdiv a b) (fun _ => P) E.
Proof.
  intros H w Hw. unfold qdiv. destruct (Qeq_bool b 0); simpl; auto.
Qed.

Lemma hoare_weaken {A} (P P' : World -> Prop) (m : M A) (Q : A -> World -> Prop) E :
  (forall w, P w -> P' w) -> hoare P' m Q E -> hoare P m Q E.
Proof. intros H Hm w Hw. apply Hm, H, Hw. Qed.

(** A property of the session that survives any step keeping the status
    and not lowering peak_equity. *)
Definition Stable (P : World -> Prop) : Prop :=
  forall w w', P w -> peak_of w <= peak_of w' -> st w' = st w -> P w'.

Lemma hoare_modify_stable (f : UserChallenge -> UserChallenge) (P : World -> Prop) E :
  Stable P ->
  (forall c, status (f c) = status c /\ peak_equity c <= peak_equity (f c)) ->
  hoare P (modify_ch f) (fun _ => P) E.
Proof.
  intros HS Hf w Hw. simpl. apply (HS w); [exact Hw| |]; apply Hf.
Qed.

Lemma hoare_commit (P : World -> Prop) E :
  Stable P -> hoare P commit (fun _ => P) E.
Proof.
  intros HS w Hw. simpl. apply (HS w); [exact Hw|apply Qle_refl|reflexivity].
Qed.

Lemma hoare_add_step (s : ScalingStep) (P : World -> Prop) E :
  Stable P -> hoare P (add_step s) (fun _ => P) E.
Proof.
  intros HS w Hw. simpl. apply (HS w); [exact Hw|apply Qle_refl|reflexivity].
Qed.

Ltac keeps_peak :=
  intro; split; [reflexivity|apply Qle_refl].

Lemma daily_reset_check_stable (cb : Q) (t : Z) (P : World -> Prop) :
  Stable P -> hoare P (daily_reset_check cb t) (fun _ => P) P.
Proof.
  intro HS. unfold daily_reset_check.
  eapply hoare_bind; [apply hoare_get_ch|]. intro c.
  destruct (daily_reset_at c) as [r|].
  - destruct (Z.ltb (date_of r) (date_of t)).
    + eapply hoare_weaken; [intros w [Hw _]; exact Hw|].
      apply hoare_modify_stable; [exact HS|keeps_peak].
    + apply hoare_ret. intros w [Hw _]; exact Hw.
  - eapply hoare_weaken; [intros w [Hw _]; exact Hw|].
    apply hoare_modify_stable; [exact HS|keeps_peak].
Qed.

Lemma py_max_ge_l (a b : Q) : a <= py_max a b.
Proof.
  unfold py_max. destruct (Qltb a b) eqn:E.
  - apply Qltb_true in E. apply Qlt_le_weak, E.
  - apply Qle_refl.
Qed.

(** [_check_scaling] returns at the size cap, raises on a zero
    [initial_balance], and otherwise raises at [challenge.scaling_steps];
    the session is left as it was in every case. *)
Lemma check_scaling_eq (env : Env) (tp : Q) (w : World) :
  check_scaling env tp w =
  if Qgeb (current_balance (lch (session w))) MAX_ACCOUNT_SIZE then ROk tt w
  else if Qeq_bool (initial_balance (lch (session w))) 0 then RErr ZeroDivisionError w
  else RErr MissingGreenlet w.
Proof.
  unfold check_scaling, bind, get_ch, qdiv, load_scaling_steps, raise, ret.
  destruct (Qgeb _ _); [reflexivity|].
  destruct (Qeq_bool _ _); reflexivity.
Qed.

Lemma check_scaling_inert (env : Env) (tp : Q) (P : World -> Prop) :
  hoare P (check_scaling env tp) (fun _ => P) P.
Proof.
  intros w Hw. rewrite check_scaling_eq.
  destruct (Qgeb _ _); [exact Hw|]. destruct (Qeq_bool _ _); exact Hw.
Qed.

Lemma check_scaling_stable (env : Env) (tp : Q) (P : World -> Prop) :
  Stable P -> hoare P (check_scaling env tp) (fun _ => P) P.
Proof. intros _. apply check_scaling_inert. Qed.

Lemma promote_to_phase2_outcome (env : Env) (w : World) :
  match promote_to_phase2 env w with
  | ROk _ w' => st w' = phase2
  | RErr _ w' => w' = w
  end.
Proof.
  unfold promote_to_phase2, close_all_positions.
  destruct (close_all_ok env); reflexivity.
Qed.

Lemma promote_to_funded_outcome (env : Env) (w : World) :
  match promote_to_funded env w with
  | ROk _ w' => st w' = funded
  | RErr _ w' => w' = w
  end.
Proof.
  unfold promote_to_funded, close_all_positions, bind, get_ch.
  destruct (account_mode (lch (session w)));
    [destruct (close_all_ok env)|]; simpl;
    destruct (funded_setup env); reflexivity.
Qed.

(** The status reached by a promotion from [s0]. *)
Definition Promoted (s0 : ChallengeStatus) (w : World) : Prop :=
  (s0 = phase1 /\ (st w = phase2 \/ st w = funded)) \/ (s0 = phase2 /\ st w = funded).

Lemma check_profit_target_cases (env : Env) (ct : ChallengeType) (tp : Q)
    (P : World -> Prop) (s0 : ChallengeStatus) :
  (forall w, P w -> st w = s0) ->
  hoare P (check_profit_target env ct tp)
    (fun _ w => P w \/ Promoted s0 w) (fun w => P w \/ Promoted s0 w).
Proof.
  intros Hst w Hw. specialize (Hst w Hw). unfold st in Hst.
  unfold check_profit_target, bind, get_ch. cbv zeta.
  pose proof (promote_to_phase2_outcome env w) as H2.
  pose proof (promote_to_funded_outcome env w) as HF.
  destruct (status (lch (session w))) eqn:Es; subst s0; try (left; exact Hw);
    unfold qdiv; destruct (Qeq_bool _ 0); try (left; exact Hw); simpl;
    destruct (Qgeb _ _); try (left; exact Hw);
    destruct (negb _); try (left; exact Hw); rewrite ?Es;
    try destruct (is_one_phase ct).
  all: lazymatch goal with
       | |- context [promote_to_funded ?e ?x] =>
           revert HF; destruct (promote_to_funded e x); intro HF
       | |- context [promote_to_phase2 ?e ?x] =>
           revert H2; destruct (promote_to_phase2 e x); intro H2
       end; [right; unfold Promoted; auto | subst; left; exact Hw].
Qed.

Lemma hoare_err_weaken {A} (P : World -> Prop) (m : M A) (Q : A -> World -> Prop)
    (E E' : World -> Prop) :
  (forall w, E w -> E' w) -> hoare P m Q E -> hoare P m Q E'.
Proof.
  intros HE Hm w Hw. specialize (Hm w Hw). destruct (m w); auto.
Qed.

Lemma handle_violation_outcome (env : Env) (v : ViolationInfo) (w : World) :
  exists w', handle_violation env v w = ROk tt w' /\
             peak_of w' = peak_of w /\ st w' = failed.
Proof. eexists. split; [reflexivity|split; reflexivity]. Qed.

(** The peak bounds carried through a tick that observed [equity]. *)
Definition PeakBound (peak0 equity : Q) (w : World) : Prop :=
  peak0 <= peak_of w /\ equity <= peak_of w.

Lemma PeakBound_stable (peak0 equity : Q) (s0 : ChallengeStatus) :
  Stable (fun w => PeakBound peak0 equity w /\ st w = s0).
Proof.
  intros w w' [[H1 H2] H3] Hp Hs. unfold PeakBound.
  split; [split; eapply Qle_trans; eassumption|congruence].
Qed.

Lemma Good_stable (peak0 equity : Q) (s0 : ChallengeStatus) :
  Stable (fun w => st w = s0 \/ st w = failed -> PeakBound peak0 equity w).
Proof.
  intros w w' H Hp Hs Hst. rewrite Hs in Hst. destruct (H Hst) as [H1 H2].
  split; eapply Qle_trans; eassumption.
Qed.

(** C2 (as amended): over a tick that leaves the status unchanged or fails
    the challenge (every tick except a promotion), peak_equity does not
    decrease and ends at least at the observed equity. *)
Theorem tick_peak_equity_monotone :
  forall (env : Env) (ct : ChallengeType) (w : World),
    st (check_challenge env ct w) = st w \/ st (check_challenge env ct w) = failed ->
    peak_of w <= peak_of (check_challenge env ct w) /\
    (forall equity wallet_balance, fetched env = Some (equity, wallet_balance) ->
       equity <= peak_of (check_challenge env ct w)).
Proof.
  intros env ct w0 Hst.
  destruct (fetched env) as [[eq wb]|] eqn:Ef.
  2:{ unfold check_challenge, check_challenge_body in *. rewrite Ef in *.
      simpl. split; [apply Qle_refl|intros ? ? H; discriminate]. }
  set (peak0 := peak_of w0). set (s0 := st w0).
  set (I := fun w => PeakBound peak0 eq w /\ st w = s0).
  set (Good := fun w => st w = s0 \/ st w = failed -> PeakBound peak0 eq w).
  assert (HI : Stable I) by apply PeakBound_stable.
  assert (HG : Stable Good) by apply Good_stable.
  assert (HIG : forall w, I w -> Good w) by (intros w [H _] _; exact H).
  assert (Hbody : hoare (fun w => w = w0) (check_challenge_body env ct)
                    (fun _ => Good) Good).
  { unfold check_challenge_body. rewrite Ef.
    eapply hoare_bind with (Q := fun _ w => peak_of w = peak0 /\ st w = s0).
    { intros w ->. split; reflexivity. }
    intro u.
    eapply hoare_bind; [apply hoare_get_ch|]. intro c.
    eapply hoare_bind with (Q := fun _ => I).
    { intros w [[Hp Hs] ->]. unfold I, PeakBound.
      destruct (Qgtb eq (peak_equity (lch (session w)))) eqn:E; simpl.
      - apply Qgtb_true in E. unfold peak_of in *. simpl.
        split; [split|exact Hs]; [rewrite <- Hp; apply Qlt_le_weak, E|apply Qle_refl].
      - apply Qgtb_false in E. unfold peak_of in *.
        split; [split|exact Hs]; [rewrite Hp; apply Qle_refl|exact E]. }
    intro u0.
    eapply hoare_bind.
    { eapply hoare_err_weaken; [exact HIG|]. apply daily_reset_check_stable, HI. }
    intro u1.
    eapply hoare_bind; [apply hoare_get_ch|]. intro c1.
    eapply hoare_bind.
    { eapply hoare_weaken; [intros w [Hw _]; exact Hw|].
      eapply hoare_err_weaken; [exact HIG|].
      apply hoare_modify_stable; [exact HI|keeps_peak]. }
    intro u2.
    eapply hoare_bind; [apply hoare_get_ch|]. intro c2.
    eapply hoare_bind; [apply hoare_get_ledger|]. intro l.
    destruct (check_violations _ _ _ _ _ _) as [v|].
    - intros w [[Hw _] _]. destruct (handle_violation_outcome env v w) as [w' [-> [Hp Hs]]].
      intro. unfold PeakBound. rewrite Hp. apply Hw.
    - assert (HJ : forall w, I w \/ Promoted s0 w -> Good w).
      { intros w [Hw|Hw]; [apply HIG, Hw|].
        intros Hs. exfalso. unfold Promoted in Hw.
        destruct Hw as [[-> [H|H]]|[-> H]]; rewrite H in Hs;
          destruct Hs as [Hs|Hs]; discriminate. }
      eapply hoare_bind.
      { eapply hoare_weaken; [intros w [[Hw _] _]; exact Hw|].
        eapply hoare_err_weaken; [exact HJ|].
        apply check_profit_target_cases with (s0 := s0). intros w [_ Hs]; exact Hs. }
      intro u3.
      eapply hoare_weaken; [exact HJ|].
      eapply hoare_bind with (Q := fun _ => Good).
      { unfold update_trading_days. apply hoare_ret. intros w Hw; exact Hw. }
      intro u4.
      eapply hoare_bind; [apply hoare_get_ch|]. intro c3.
      eapply hoare_bind.
      { eapply hoare_weaken; [intros w [Hw _]; exact Hw|].
        destruct (status_eqb (status c3) funded).
        - apply check_scaling_stable, HG.
        - apply hoare_ret. auto. }
      intro u5. apply hoare_commit, HG. }
  specialize (Hbody w0 eq_refl). unfold check_challenge.
  assert (HGw : Good (check_challenge env ct w0)).
  { unfold check_challenge. destruct (check_challenge_body env ct w0); exact Hbody. }
  destruct (HGw Hst) as [H1 H2]. split; [exact H1|].
  intros e wb' He. injection He as <- <-. exact H2.
Qed.

(** ** Concrete challenges *)

(** 2023-11-15 00:00:00 UTC. *)
Definition day0 : Z := 1700006400.

Definition plan_10k : ChallengeType :=
  mkChallengeType 10000 8 5 5 10 static 5 None false false 50 80.

Definition ledger_of (c : UserChallenge) (ts : list Trade) (vs : list Violation)
    (ss : list ScalingStep) : World :=
  mkWorld (mkLedger c ts vs ss) (mkLedger c ts vs ss).

(** Phase 1 at the profit target, with a peak of 10900 seen earlier today. *)
Definition ch_at_target (days : Z) : UserChallenge :=
  mkUserChallenge 1 phase1 (Some 1%Z) demo 10000 10900 10900 10900 0 900 days
    (Some day0) day0 None None None.

Definition env_equity (equity : Q) (t : Z) : Env :=
  mkEnv (Some (equity, equity)) t true (inr 77%Z) true.

(** C2 counterexample: the tick observes equity 10800 (profit 8%, 5 trading
    days) and promotes to phase 2, which resets peak_equity from 10900 to
    10000. *)
Lemma peak_equity_lowered_by_promotion :
  st (check_challenge (env_equity 10800 (day0 + 600)%Z) plan_10k
        (ledger_of (ch_at_target 5) [] [] [])) = phase2 /\
  peak_of (check_challenge (env_equity 10800 (day0 + 600)%Z) plan_10k
             (ledger_of (ch_at_target 5) [] [] []))
  < peak_of (ledger_of (ch_at_target 5) [] [] []).
Proof. split; vm_compute; reflexivity. Qed.

Lemma tick_peak_equity_monotone_witness :
  (st (check_challenge (env_equity 10950 (day0 + 600)%Z) plan_10k
         (ledger_of (ch_at_target 4) [] [] []))
   = st (ledger_of (ch_at_target 4) [] [] []) \/
   st (check_challenge (env_equity 10950 (day0 + 600)%Z) plan_10k
         (ledger_of (ch_at_target 4) [] [] [])) = failed) /\
  peak_of (ledger_of (ch_at_target 4) [] [] [])
  <= peak_of (check_challenge (env_equity 10950 (day0 + 600)%Z) plan_10k
                (ledger_of (ch_at_target 4) [] [] [])).
Proof.
  assert (H : st (check_challenge (env_equity 10950 (day0 + 600)%Z) plan_10k
                    (ledger_of (ch_at_target 4) [] [] []))
              = st (ledger_of (ch_at_target 4) [] [] [])) by (vm_compute; reflexivity).
  split; [left; exact H|].
  apply (tick_peak_equity_monotone (env_equity 10950 (day0 + 600)%Z) plan_10k
           (ledger_of (ch_at_target 4) [] [] [])).
  left; exact H.
Defined.

(** ** Daily reset *)

(** The counting rule of the spec (section 4.8): the UTC day starting at
    [d] counts iff a trade of the challenge closed during it and no
    violation of the challenge occurred during it. *)
Definition trading_day_counts_spec (cid d : Z) (ts : list Trade)
    (vs : list Violation) : bool :=
  let within t := (Z.leb d t && Z.ltb t (d + day_seconds))%bool in
  (existsb (fun tr => Z.eqb (t_challenge_id tr) cid &&
                      match closed_at tr with Some c => within c | None => false end)
           ts
   && negb (existsb (fun v => Z.eqb (v_challenge_id v) cid && within (occurred_at v)) vs))%bool.

Lemma daily_reset_check_keeps_trading_days (cb : Q) (t : Z) (w : World) :
  match daily_reset_check cb t w with
  | ROk _ w' | RErr _ w' =>
      trading_days_count (lch (session w')) = trading_days_count (lch (session w))
  end.
Proof.
  unfold daily_reset_check, bind, get_ch.
  destruct (daily_reset_at (lch (session w))) as [r|]; [destruct (Z.ltb _ _)|];
    reflexivity.
Qed.

(** Phase 1, last reset yesterday at 20:00, one profitable trade closed
    yesterday at 22:00, no violation. *)
Definition ch_new_day : UserChallenge :=
  mkUserChallenge 1 phase1 (Some 1%Z) demo 10000 10050 10050 10000 50 50 2
    (Some (day0 - 14400)%Z) (day0 - 86400 * 3)%Z None None None.

Definition trades_yesterday : list Trade := [mkTrade 1 (Some (day0 - 7200)%Z) (Some 50)].

(** C4 failing input: the first tick of the new day resets the day's start
    balance and daily P&L, but the trading-day counter stays at 2 although
    yesterday had a closed trade and no violation; the reset never touches
    the counter. *)
Theorem daily_reset_does_not_count_trading_day :
  (forall cb t w,
     match daily_reset_check cb t w with
     | ROk _ w' | RErr _ w' =>
         trading_days_count (lch (session w')) = trading_days_count (lch (session w))
     end) /\
  trading_day_counts_spec 1 (day0 - 86400)%Z trades_yesterday [] = true /\
  daily_reset_at (lch (session (check_challenge (env_equity 10050 (day0 + 600)%Z)
                    plan_10k (ledger_of ch_new_day trades_yesterday [] []))))
    = Some (day0 + 600)%Z /\
  daily_start_balance (lch (session (check_challenge (env_equity 10050 (day0 + 600)%Z)
                    plan_10k (ledger_of ch_new_day trades_yesterday [] [])))) = 10050 /\
  trading_days_count (lch (session (check_challenge (env_equity 10050 (day0 + 600)%Z)
                    plan_10k (ledger_of ch_new_day trades_yesterday [] [])))) = 2%Z.
Proof.
  split; [exact daily_reset_check_keeps_trading_days|].
  repeat split; vm_compute; reflexivity.
Qed.

(** ** Promotion *)

(** The transition the claim names: phase 2 from a two-phase plan's phase 1,
    funded otherwise. *)
Definition promotion_transition (env : Env) (ct : ChallengeType)
    (s : ChallengeStatus) : M unit :=
  if (status_eqb s phase1 && negb (is_one_phase ct))%bool
  then promote_to_phase2 env else promote_to_funded env.

Definition target_pct (ct : ChallengeType) (s : ChallengeStatus) : Q :=
  if status_eqb s phase1 then profit_target_p1 ct else profit_target_p2 ct.

(** C5: in phase 1 or 2 the profit-target check promotes iff
    total_pnl >= initial_balance * target_pct / 100 and the trading-day
    minimum is met; the destination is phase 2 from a two-phase plan's
    phase 1 and funded otherwise; when the minimum is not met nothing
    changes even with the target reached. *)
Theorem profit_target_promotion :
  forall (env : Env) (ct : ChallengeType) (total_pnl : Q) (w : World),
    ~ initial_balance (lch (session w)) == 0 ->
    st w = phase1 \/ st w = phase2 ->
    let c := lch (session w) in
    (initial_balance c * target_pct ct (status c) / 100 <= total_pnl /\
     (min_trading_days ct <= trading_days_count c)%Z ->
       check_profit_target env ct total_pnl w
       = promotion_transition env ct (status c) w) /\
    (~ (initial_balance c * target_pct ct (status c) / 100 <= total_pnl /\
        (min_trading_days ct <= trading_days_count c)%Z) ->
       check_profit_target env ct total_pnl w = ROk tt w) /\
    (forall acc, close_all_ok env = true -> funded_setup env = inr acc ->
       st (outw (promotion_transition env ct (status c) w))
       = if (status_eqb (status c) phase1 && negb (is_one_phase ct))%bool
         then phase2 else funded).
Proof.
  intros env ct tp w Hinit Hst c.
  assert (Hq : Qeq_bool (initial_balance c) 0 = false).
  { destruct (Qeq_bool (initial_balance c) 0) eqn:E; [|reflexivity].
    apply Qeq_bool_iff in E. contradiction. }
  assert (Hgo : forall tgt s,
     status c = s -> (s = phase1 \/ s = phase2) ->
     (let target_amount := initial_balance c * tgt / 100 in
      _current_profit_pct <- qdiv tp (initial_balance c) ;;
      if Qgeb tp target_amount then
        if negb (Z.geb (trading_days_count c) (min_trading_days ct)) then ret tt
        else match s with
             | phase1 => if is_one_phase ct then promote_to_funded env
                         else promote_to_phase2 env
             | phase2 => promote_to_funded env
             | _ => ret tt
             end
      else ret tt) w
     = if (Qgeb tp (initial_balance c * tgt / 100)
           && Z.geb (trading_days_count c) (min_trading_days ct))%bool
       then promotion_transition env ct s w else ROk tt w).
  { intros tgt s Hs Hs12. cbv zeta. unfold bind, qdiv. rewrite Hq. simpl.
    destruct (Qgeb _ _); [|reflexivity].
    destruct (Z.geb _ _); simpl; [|reflexivity].
    unfold promotion_transition.
    destruct Hs12 as [->| ->]; simpl; [destruct (is_one_phase ct)|]; reflexivity. }
  assert (Hcpt : check_profit_target env ct tp w
     = if (Qgeb tp (initial_balance c * target_pct ct (status c) / 100)
           && Z.geb (trading_days_count c) (min_trading_days ct))%bool
       then promotion_transition env ct (status c) w else ROk tt w).
  { unfold check_profit_target, bind at 1, get_ch. fold c.
    unfold st in Hst. fold c in Hst.
    unfold target_pct.
    destruct Hst as [Hs|Hs]; rewrite Hs; simpl;
      apply (Hgo _ _ Hs); auto. }
  split; [|split].
  - intros [H1 H2]. rewrite Hcpt.
    apply Qgeb_true in H1. rewrite H1.
    assert (Z.geb (trading_days_count c) (min_trading_days ct) = true) as ->
      by (apply Z.geb_le; exact H2).
    reflexivity.
  - intro Hn. rewrite Hcpt.
    destruct (Qgeb _ _) eqn:E1; [|reflexivity].
    destruct (Z.geb _ _) eqn:E2; [|reflexivity].
    exfalso. apply Hn. split; [apply Qgeb_true, E1|apply Z.geb_le, E2].
  - intros acc Hc Hf. unfold promotion_transition.
    destruct (status_eqb (status c) phase1 && negb (is_one_phase ct))%bool.
    + pose proof (promote_to_phase2_outcome env w) as H.
      unfold promote_to_phase2, close_all_positions in *. rewrite Hc in *.
      exact H.
    + unfold promote_to_funded, close_all_positions, bind, get_ch.
      rewrite Hc, Hf. destruct (account_mode (lch (session w))); reflexivity.
Qed.

Lemma profit_target_promotion_witness :
  (~ initial_balance (lch (session (ledger_of (ch_at_target 5) [] [] []))) == 0 /\
   (st (ledger_of (ch_at_target 5) [] [] []) = phase1 \/
    st (ledger_of (ch_at_target 5) [] [] []) = phase2)) /\
  check_profit_target (env_equity 10800 day0) plan_10k 800
    (ledger_of (ch_at_target 5) [] [] [])
  = promotion_transition (env_equity 10800 day0) plan_10k phase1
      (ledger_of (ch_at_target 5) [] [] []).
Proof.
  assert (H1 : ~ initial_balance (lch (session (ledger_of (ch_at_target 5) [] [] []))) == 0)
    by (vm_compute; discriminate).
  assert (H2 : st (ledger_of (ch_at_target 5) [] [] []) = phase1 \/
               st (ledger_of (ch_at_target 5) [] [] []) = phase2) by (left; reflexivity).
  split; [split; [exact H1|exact H2]|].
  apply (proj1 (profit_target_promotion (env_equity 10800 day0) plan_10k 800
                  (ledger_of (ch_at_target 5) [] [] []) H1 H2)).
  split; [vm_compute; discriminate|simpl; lia].
Defined.

(** ** Scaling fixtures *)

(** Funded since yesterday: initial 100,000, balance 110,000 (10% profit),
    no violation and no previous step. *)
Definition ch_funded_110k : UserChallenge :=
  mkUserChallenge 4 funded None funded_mode 100000 110000 110000 110000 0 10000 0
    (Some day0) 0 (Some (day0 - 86400)%Z) (Some 556%Z) None.

(** A tick seeing equity = wallet_balance = 110,000; the master transfer
    fails. *)
Definition env_transfer_fails : Env :=
  mkEnv (Some (110000, 110000)) (day0 + 600)%Z true (inr 77%Z) false.

(** ** Payout requests *)

Definition rows_1000_80 : list ChallengeRow := [mkChallengeRow 1 7 funded 1000 80].




(** ** Funded-account provisioning *)

(** C10 (as amended): setup_funded_account compares the master balance with
    the configured minimum bybit_master_min_balance, not with account_size.
    Below that minimum it raises ValueError before any sub-account creation
    or transfer; at or above it, once the sub-account is created, it
    transfers the full account_size to it whatever account_size is. *)
Theorem setup_funded_account_gate :
  forall (me : MasterEnv) (account_size : Q),
    (master_balance me < bybit_master_min_balance me ->
     setup_funded_account me account_size = ([], inl ValueError)) /\
    (forall sub_uid : Z,
       bybit_master_min_balance me <= master_balance me ->
       create_sub_result me = Some sub_uid ->
       exists rest,
         fst (setup_funded_account me account_size)
         = CreateSubAccount :: InternalTransfer account_size sub_uid :: rest).
Proof.
  intros me account_size. unfold setup_funded_account, check_master_balance.
  split.
  - intro Hlt. apply Qltb_true in Hlt. rewrite Hlt. reflexivity.
  - intros sub_uid Hge Hc.
    destruct (Qltb (master_balance me) (bybit_master_min_balance me)) eqn:E.
    + exfalso. apply Qltb_true in E. apply (Qlt_not_le _ _ E Hge).
    + simpl. rewrite Hc.
      destruct (internal_transfer_ok me), (create_key_ok me); simpl;
        eexists; reflexivity.
Qed.

(** C10 counterexample: with a master balance of 50,000, the default
    minimum of 10,000 and an account_size of 100,000, the setup creates the
    sub-account, transfers 100,000 and returns the new account. *)
Lemma funded_setup_ignores_account_size :
  let me := mkMasterEnv 50000 10000 (Some 42%Z) true true in
  master_balance me < 100000 /\
  setup_funded_account me 100000
  = ([CreateSubAccount; InternalTransfer 100000 42%Z; CreateSubApiKey 42%Z], inr 42%Z).
Proof. split; [reflexivity|reflexivity]. Qed.

(* ================================================================== *)
(** * Further properties of the code *)

(** ** The scheduler and the engine *)

Section Frame.
Variable I : UserChallenge -> Prop.

Definition ChI (w : World) : Prop := I (lch (session w)).

Lemma hoare_modify_I (f : UserChallenge -> UserChallenge) :
  (forall c, I c -> I (f c)) -> hoare ChI (modify_ch f) (fun _ => ChI) ChI.
Proof. intros Hf w Hw. apply Hf, Hw. Qed.

Lemma hoare_get_ch_I : hoare ChI get_ch (fun c w => ChI w /\ c = lch (session w)) ChI.
Proof. intros w Hw. simpl. auto. Qed.

Lemma hoare_get_ledger_I : hoare ChI get_ledger (fun l w => ChI w /\ l = session w) ChI.
Proof. intros w Hw. simpl. auto. Qed.

Lemma hoare_commit_I : hoare ChI commit (fun _ => ChI) ChI.
Proof. intros w Hw. exact Hw. Qed.

Lemma hoare_add_step_I (s : ScalingStep) : hoare ChI (add_step s) (fun _ => ChI) ChI.
Proof. intros w Hw. exact Hw. Qed.

Lemma hoare_add_violation_I (v : Violation) : hoare ChI (add_violation v) (fun _ => ChI) ChI.
Proof. intros w Hw. exact Hw. Qed.

Lemma hoare_qdiv_I (a b : Q) : hoare ChI (qdiv a b) (fun _ => ChI) ChI.
Proof. intros w Hw. unfold qdiv. destruct (Qeq_bool b 0); exact Hw. Qed.

Lemma hoare_ret_I {A} (a : A) : hoare ChI (ret a) (fun _ => ChI) ChI.
Proof. intros w Hw. exact Hw. Qed.

Lemma hoare_bind_I {A B} (m : M A) (k : A -> M B) :
  hoare ChI m (fun _ => ChI) ChI -> (forall a, hoare ChI (k a) (fun _ => ChI) ChI) ->
  hoare ChI (bind m k) (fun _ => ChI) ChI.
Proof. intros Hm Hk. eapply hoare_bind; [exact Hm|exact Hk]. Qed.

Lemma hoare_bind_get_ch_I {B} (k : UserChallenge -> M B) :
  (forall c, hoare (fun w => ChI w /\ c = lch (session w)) (k c) (fun _ => ChI) ChI) ->
  hoare ChI (bind get_ch k) (fun _ => ChI) ChI.
Proof. intros Hk. eapply hoare_bind; [exact hoare_get_ch_I|exact Hk]. Qed.

End Frame.

Section Frame2.
Variable I : UserChallenge -> Prop.
Hypothesis HI : forall c c', status c' = status c ->
  trading_days_count c' = trading_days_count c -> I c -> I c'.

Ltac keep := let c0 := fresh "c" in let H0 := fresh "H" in intros c0 H0; apply (HI c0); [reflexivity|reflexivity|exact H0].

Lemma bind_get_ch_I {B} (k : UserChallenge -> M B) :
  (forall c, hoare (ChI I) (k c) (fun _ => ChI I) (ChI I)) ->
  hoare (ChI I) (bind get_ch k) (fun _ => ChI I) (ChI I).
Proof.
  intros Hk. eapply hoare_bind; [apply hoare_get_ch_I|].
  intro c. eapply hoare_weaken; [intros w [Hw _]; exact Hw|apply Hk].
Qed.

Lemma bind_get_ledger_I {B} (k : Ledger -> M B) :
  (forall l, hoare (ChI I) (k l) (fun _ => ChI I) (ChI I)) ->
  hoare (ChI I) (bind get_ledger k) (fun _ => ChI I) (ChI I).
Proof.
  intros Hk. eapply hoare_bind; [apply hoare_get_ledger_I|].
  intro c. eapply hoare_weaken; [intros w [Hw _]; exact Hw|apply Hk].
Qed.

Lemma daily_reset_check_I (cb : Q) (t : Z) :
  hoare (ChI I) (daily_reset_check cb t) (fun _ => ChI I) (ChI I).
Proof.
  unfold daily_reset_check. apply bind_get_ch_I. intro c.
  destruct (daily_reset_at c) as [r|]; [destruct (Z.ltb _ _)|].
  - apply hoare_modify_I. keep.
  - apply hoare_ret_I.
  - apply hoare_modify_I. keep.
Qed.

Lemma check_scaling_I (env : Env) (tp : Q) :
  hoare (ChI I) (check_scaling env tp) (fun _ => ChI I) (ChI I).
Proof. apply check_scaling_inert. Qed.

End Frame2.

Definition NoPromotion (s0 : ChallengeStatus) (k : Z) (c : UserChallenge) : Prop :=
  (status c = s0 \/ status c = failed) /\ trading_days_count c = k.

Lemma NoPromotion_keep (s0 : ChallengeStatus) (k : Z) (c c' : UserChallenge) :
  status c' = status c -> trading_days_count c' = trading_days_count c ->
  NoPromotion s0 k c -> NoPromotion s0 k c'.
Proof. unfold NoPromotion. intros -> ->. auto. Qed.

Lemma check_profit_target_noop (env : Env) (ct : ChallengeType) (tp : Q) (w : World) :
  (trading_days_count (lch (session w)) < min_trading_days ct)%Z ->
  outw (check_profit_target env ct tp w) = w.
Proof.
  intro H. unfold check_profit_target, bind, get_ch. cbv zeta.
  destruct (status (lch (session w))); try reflexivity;
    unfold qdiv; destruct (Qeq_bool _ 0); try reflexivity; simpl;
    destruct (Qgeb _ _); try reflexivity;
    destruct (Z.geb_spec (trading_days_count (lch (session w))) (min_trading_days ct));
    try lia; reflexivity.
Qed.

Lemma tick_no_promotion (env : Env) (ct : ChallengeType) (s0 : ChallengeStatus) (k : Z) :
  (k < min_trading_days ct)%Z ->
  hoare (ChI (NoPromotion s0 k)) (check_challenge_body env ct)
    (fun _ => ChI (NoPromotion s0 k)) (ChI (NoPromotion s0 k)).
Proof.
  intro Hk. pose proof (NoPromotion_keep s0 k) as HI.
  unfold check_challenge_body.
  destruct (fetched env) as [[equity wb]|]; [|intros w Hw; exact Hw].
  apply hoare_bind_I; [apply hoare_modify_I; intros c Hc; apply (HI c); auto|]. intros _.
  apply bind_get_ch_I. intro c.
  apply hoare_bind_I.
  { destruct (Qgtb _ _); [apply hoare_modify_I; intros c' Hc; apply (HI c'); auto
                         |apply hoare_ret_I]. }
  intros _. apply hoare_bind_I; [apply daily_reset_check_I; exact HI|]. intros _.
  apply bind_get_ch_I. intro c1. cbv zeta.
  apply hoare_bind_I; [apply hoare_modify_I; intros c' Hc; apply (HI c'); auto|]. intros _.
  apply bind_get_ch_I. intro c2.
  apply bind_get_ledger_I. intro l.
  destruct (check_violations _ _ _ _ _ _) as [v|].
  - unfold handle_violation. apply bind_get_ch_I. intro c3.
    apply hoare_bind_I; [apply hoare_add_violation_I|]. intros _.
    apply hoare_bind_I; [|intros _; apply hoare_commit_I].
    apply hoare_modify_I. intros c' [_ Hc]. split; [right; reflexivity|exact Hc].
  - apply hoare_bind_I.
    { intros w Hw. pose proof (check_profit_target_noop env ct (equity - initial_balance c1) w)
        as Hn. destruct Hw as [Hs Hc]. rewrite Hc in Hn. specialize (Hn Hk).
      destruct (check_profit_target _ _ _ w); simpl in Hn; rewrite Hn; exact (conj Hs Hc). }
    intros _. apply hoare_bind_I; [apply hoare_ret_I|]. intros _.
    apply bind_get_ch_I. intro c3.
    apply hoare_bind_I; [|intros _; apply hoare_commit_I].
    destruct (status_eqb _ _); [apply check_scaling_I; exact HI|apply hoare_ret_I].
Qed.

Lemma engine_run_no_promotion (env : Env) (ct : ChallengeType) (s0 : ChallengeStatus)
    (k : Z) (db : Ledger) :
  (k < min_trading_days ct)%Z -> NoPromotion s0 k (lch db) ->
  NoPromotion s0 k (lch (engine_run env ct db)).
Proof.
  intros Hk H. unfold engine_run. destruct (is_active_status _); [|exact H].
  pose proof (tick_no_promotion env ct s0 k Hk (mkWorld db db) H) as T.
  unfold check_challenge. destruct (check_challenge_body env ct _); exact T.
Qed.

(** X1: while a challenge has fewer trading days than its plan's minimum, no number of engine runs (the scheduler's run_all_checks, one committed session per run) promotes it: its trading-day count stays unchanged and its status is either unchanged or failed. *)
Theorem engine_never_promotes_below_min_days (envs : list Env) (ct : ChallengeType)
    (db : Ledger) :
  (trading_days_count (lch db) < min_trading_days ct)%Z ->
  trading_days_count (lch (engine_runs envs ct db)) = trading_days_count (lch db) /\
  (status (lch (engine_runs envs ct db)) = status (lch db) \/
   status (lch (engine_runs envs ct db)) = failed).
Proof.
  intro Hk.
  assert (H0 : NoPromotion (status (lch db)) (trading_days_count (lch db)) (lch db))
    by (split; [left|]; reflexivity).
  revert H0. generalize (status (lch db)) as s0.
  revert Hk. generalize (trading_days_count (lch db)) as k.
  intros k Hk s0 H0.
  cut (NoPromotion s0 k (lch (engine_runs envs ct db))).
  { intros [Hs Hc]. split; assumption. }
  unfold engine_runs. revert db H0.
  induction envs as [|e envs IH]; intros d Hd; simpl.
  - exact Hd.
  - apply IH. apply engine_run_no_promotion; assumption.
Qed.

(** Properties of the session that only look at the challenge's
    initial_balance and the scaling steps. *)
Definition StableK (P : World -> Prop) : Prop :=
  forall w w', P w -> initial_balance (lch (session w')) = initial_balance (lch (session w)) ->
               steps (session w') = steps (session w) -> P w'.

Section FrameK.
Variable P : World -> Prop.
Hypothesis HP : StableK P.

Lemma hoare_modify_K (f : UserChallenge -> UserChallenge) :
  (forall c, initial_balance (f c) = initial_balance c) -> hoare P (modify_ch f) (fun _ => P) P.
Proof. intros Hf w Hw. simpl. apply (HP w); [exact Hw|apply Hf|reflexivity]. Qed.

Lemma hoare_commit_K : hoare P commit (fun _ => P) P.
Proof. intros w Hw. simpl. apply (HP w); [exact Hw|reflexivity|reflexivity]. Qed.

Lemma hoare_add_violation_K (v : Violation) : hoare P (add_violation v) (fun _ => P) P.
Proof. intros w Hw. simpl. apply (HP w); [exact Hw|reflexivity|reflexivity]. Qed.

Lemma hoare_ret_K {A} (a : A) : hoare P (ret a) (fun _ => P) P.
Proof. intros w Hw. exact Hw. Qed.

Lemma hoare_raise_K {A} (e : Exc) : hoare P (@raise A e) (fun _ => P) P.
Proof. intros w Hw. exact Hw. Qed.

Lemma hoare_qdiv_K (a b : Q) : hoare P (qdiv a b) (fun _ => P) P.
Proof. intros w Hw. unfold qdiv. destruct (Qeq_bool b 0); exact Hw. Qed.

Lemma hoare_bind_K {A B} (m : M A) (k : A -> M B) :
  hoare P m (fun _ => P) P -> (forall a, hoare P (k a) (fun _ => P) P) ->
  hoare P (bind m k) (fun _ => P) P.
Proof. intros Hm Hk. eapply hoare_bind; [exact Hm|exact Hk]. Qed.

Lemma bind_get_ch_K {B} (k : UserChallenge -> M B) :
  (forall c, hoare P (k c) (fun _ => P) P) -> hoare P (bind get_ch k) (fun _ => P) P.
Proof.
  intros Hk. eapply hoare_bind; [apply (hoare_get_ch P P)|].
  intro c. eapply hoare_weaken; [intros w [Hw _]; exact Hw|apply Hk].
Qed.

Lemma bind_get_ledger_K {B} (k : Ledger -> M B) :
  (forall l, hoare P (k l) (fun _ => P) P) -> hoare P (bind get_ledger k) (fun _ => P) P.
Proof.
  intros Hk. eapply hoare_bind; [apply (hoare_get_ledger P P)|].
  intro c. eapply hoare_weaken; [intros w [Hw _]; exact Hw|apply Hk].
Qed.

Ltac kcrunch :=
  repeat first
    [ apply bind_get_ch_K; intro
    | apply bind_get_ledger_K; intro
    | apply hoare_bind_K; [kcrunch|intro]
    | apply hoare_modify_K; intro; reflexivity
    | apply hoare_commit_K
    | apply hoare_add_violation_K
    | apply hoare_ret_K
    | apply hoare_raise_K
    | apply hoare_qdiv_K ].

Lemma daily_reset_check_K (cb : Q) (t : Z) :
  hoare P (daily_reset_check cb t) (fun _ => P) P.
Proof.
  unfold daily_reset_check. apply bind_get_ch_K. intro c.
  destruct (daily_reset_at c); [destruct (Z.ltb _ _)|]; kcrunch.
Qed.

Lemma handle_violation_K (env : Env) (v : ViolationInfo) :
  hoare P (handle_violation env v) (fun _ => P) P.
Proof. unfold handle_violation. kcrunch. Qed.

Lemma close_all_positions_K (env : Env) :
  hoare P (close_all_positions env) (fun _ => P) P.
Proof. unfold close_all_positions. destruct (close_all_ok env); kcrunch. Qed.

Lemma promote_to_phase2_K (env : Env) : hoare P (promote_to_phase2 env) (fun _ => P) P.
Proof.
  unfold promote_to_phase2. apply hoare_bind_K; [apply close_all_positions_K|]. intro.
  kcrunch.
Qed.

Lemma promote_to_funded_K (env : Env) : hoare P (promote_to_funded env) (fun _ => P) P.
Proof.
  unfold promote_to_funded. apply bind_get_ch_K. intro c.
  apply hoare_bind_K; [destruct (account_mode c); [apply close_all_positions_K|kcrunch]|].
  intro. destruct (funded_setup env); kcrunch.
Qed.

Lemma check_profit_target_K (env : Env) (ct : ChallengeType) (tp : Q) :
  hoare P (check_profit_target env ct tp) (fun _ => P) P.
Proof.
  unfold check_profit_target. apply bind_get_ch_K. intro c. cbv zeta.
  destruct (status c); try apply hoare_ret_K;
    (apply hoare_bind_K; [apply hoare_qdiv_K|intro]);
    destruct (Qgeb _ _); try apply hoare_ret_K;
    destruct (negb _); try apply hoare_ret_K;
    try destruct (is_one_phase ct);
    first [apply promote_to_funded_K | apply promote_to_phase2_K | apply hoare_ret_K].
Qed.

End FrameK.

(** The challenge's initial_balance and the ScalingStep rows. *)
Definition KeepsScale (B : Q) (S : list ScalingStep) (w : World) : Prop :=
  initial_balance (lch (session w)) = B /\ steps (session w) = S.

Lemma KeepsScale_stable (B : Q) (S : list ScalingStep) : StableK (KeepsScale B S).
Proof. intros w w' [H1 H2] Hb Hs. split; [rewrite Hb|rewrite Hs]; assumption. Qed.

Lemma tick_keeps_scale (env : Env) (ct : ChallengeType) (B : Q) (S : list ScalingStep) :
  hoare (KeepsScale B S) (check_challenge_body env ct)
    (fun _ => KeepsScale B S) (KeepsScale B S).
Proof.
  pose proof (KeepsScale_stable B S) as HS.
  unfold check_challenge_body.
  destruct (fetched env) as [[equity wb]|]; [|apply hoare_raise_K].
  apply hoare_bind_K; [apply hoare_modify_K; [exact HS|reflexivity]|]. intros _.
  apply bind_get_ch_K. intro c.
  apply hoare_bind_K.
  { destruct (Qgtb _ _); [apply hoare_modify_K; [exact HS|reflexivity]|apply hoare_ret_K]. }
  intros _. apply hoare_bind_K; [apply daily_reset_check_K; exact HS|]. intros _.
  apply bind_get_ch_K. intro c1. cbv zeta.
  apply hoare_bind_K; [apply hoare_modify_K; [exact HS|reflexivity]|]. intros _.
  apply bind_get_ch_K. intro c2.
  apply bind_get_ledger_K. intro l.
  destruct (check_violations _ _ _ _ _ _) as [v|].
  - apply handle_violation_K; exact HS.
  - apply hoare_bind_K; [apply check_profit_target_K; exact HS|]. intros _.
    apply hoare_bind_K; [apply hoare_ret_K|]. intros _.
    apply bind_get_ch_K. intro c3.
    apply hoare_bind_K; [|intros _; apply hoare_commit_K; exact HS].
    destruct (status_eqb _ _); [apply check_scaling_inert|apply hoare_ret_K].
Qed.

Lemma engine_run_keeps_scale (env : Env) (ct : ChallengeType) (db : Ledger) :
  initial_balance (lch (engine_run env ct db)) = initial_balance (lch db) /\
  steps (engine_run env ct db) = steps db.
Proof.
  unfold engine_run. destruct (is_active_status _); [|split; reflexivity].
  pose proof (tick_keeps_scale env ct (initial_balance (lch db)) (steps db)
                (mkWorld db db) (conj eq_refl eq_refl)) as T.
  unfold check_challenge. destruct (check_challenge_body env ct _); exact T.
Qed.

(** ** Scaling *)

(** A tick seeing equity = wallet_balance = 110,000 on [ch_funded_110k];
    the master transfer would succeed. *)
Definition env_scaling : Env :=
  mkEnv (Some (110000, 110000)) (day0 + 600)%Z true (inr 77%Z) true.

(** C7 (code bug): no run of the engine ever appends a ScalingStep or
    rebases initial_balance, whatever the exchange and the master account
    answer: [_check_scaling] raises [MissingGreenlet] when it first reads
    [challenge.scaling_steps], before the violation query, the new step and
    the transfer.  On [ch_funded_110k] the trigger holds (10% profit, no
    step, no violation, below the size cap), yet the tick ends in
    [MissingGreenlet], leaving no step and initial_balance at 100,000. *)
Theorem funded_challenge_never_scaled :
  (forall (envs : list Env) (ct : ChallengeType) (db : Ledger),
     steps (engine_runs envs ct db) = steps db /\
     initial_balance (lch (engine_runs envs ct db)) = initial_balance (lch db)) /\
  (current_balance ch_funded_110k < MAX_ACCOUNT_SIZE /\
   SCALING_TRIGGER_PCT * inject_Z (Z.of_nat (List.length (@nil ScalingStep)) + 1)
     <= (110000 - initial_balance ch_funded_110k) / initial_balance ch_funded_110k * 100 /\
   violations_since (ch_id ch_funded_110k) (last_scale_time ch_funded_110k []) [] = [] /\
   (exists w, check_challenge_body env_scaling plan_10k (ledger_of ch_funded_110k [] [] [])
                = RErr MissingGreenlet w) /\
   steps (engine_run env_scaling plan_10k (mkLedger ch_funded_110k [] [] [])) = [] /\
   initial_balance (lch (engine_run env_scaling plan_10k (mkLedger ch_funded_110k [] [] [])))
     = 100000).
Proof.
  split.
  - intros envs ct db. unfold engine_runs. revert db.
    induction envs as [|e envs IH]; intro d; simpl; [split; reflexivity|].
    destruct (IH (engine_run e ct d)) as [H1 H2].
    destruct (engine_run_keeps_scale e ct d) as [H3 H4].
    split; [rewrite H1, H4|rewrite H2, H3]; reflexivity.
  - repeat split; try (vm_compute; reflexivity); try (vm_compute; discriminate).
    eexists. vm_compute. reflexivity.
Qed.

(** C8: on a funded challenge, whatever the exchange and the master
    account answer (in particular when the master transfer fails), the
    ledger committed by the tick has no new ScalingStep and the same
    initial_balance; current_balance and peak_equity hold only the tick's
    own updates made before the checks (the wallet balance, and the peak
    raised to the equity), and the whole ledger is unchanged when the
    balance cannot be fetched. *)
Theorem scaling_failure_leaves_ledger (env : Env) (ct : ChallengeType) (db : Ledger) :
  status (lch db) = funded ->
  steps (engine_run env ct db) = steps db /\
  initial_balance (lch (engine_run env ct db)) = initial_balance (lch db) /\
  current_balance (lch (engine_run env ct db))
    = match fetched env with
      | Some (_, wb) => wb
      | None => current_balance (lch db)
      end /\
  peak_equity (lch (engine_run env ct db))
    = match fetched env with
      | Some (equity, _) =>
          if Qgtb equity (peak_equity (lch db)) then equity else peak_equity (lch db)
      | None => peak_equity (lch db)
      end.
Proof.
  intro Hf.
  destruct (engine_run_keeps_scale env ct db) as [Hb Hs].
  split; [exact Hs|split; [exact Hb|]]. clear Hb Hs.
  unfold engine_run. rewrite Hf. simpl.
  unfold check_challenge, check_challenge_body.
  destruct (fetched env) as [[equity wb]|]; [|split; reflexivity].
  destruct db as [c ts vs ss]. simpl in Hf |- *.
  unfold bind, modify_ch, get_ch, get_ledger, ret; simpl.
  destruct (Qgtb equity (peak_equity c)) eqn:Ep; simpl.
  all: unfold daily_reset_check, bind, get_ch, modify_ch, ret; simpl.
  all: destruct (daily_reset_at c) as [r|]; simpl;
       [match goal with |- context [Z.ltb ?a ?b] => destruct (Z.ltb a b) end; simpl|].
  all: match goal with |- context [check_violations ?a ?b ?c ?d ?e ?f] =>
         destruct (check_violations a b c d e f) as [v|] end; simpl;
       [unfold handle_violation, bind, get_ch, add_violation, modify_ch, commit; simpl;
        rewrite ?Ep; split; reflexivity|].
  all: unfold check_profit_target, bind, get_ch; simpl; rewrite Hf; simpl.
  all: unfold update_trading_days, bind, get_ch, ret; simpl; rewrite Hf; simpl.
  all: rewrite check_scaling_eq; simpl.
  all: destruct (Qgeb _ _); [|destruct (Qeq_bool _ _)]; simpl; rewrite ?Ep; split; reflexivity.
Qed.

(** ** Rounding a rational to a float *)

Lemma digits2_pos_log2 (p : positive) :
  Zpos (digits2_pos p) = Z.succ (Z.log2 (Zpos p)).
Proof.
  destruct p as [p|p|]; simpl; [| |reflexivity];
    rewrite Pos2Z.inj_succ; f_equal; clear; induction p; simpl; try reflexivity;
    rewrite Pos2Z.inj_succ, IHp; destruct p; reflexivity.
Qed.

Lemma Zdigits2_bounds (m : Z) :
  (0 < m)%Z -> (2 ^ (Zdigits2 m - 1) <= m < 2 ^ Zdigits2 m)%Z.
Proof.
  destruct m as [|p|p]; try lia. intros _. unfold Zdigits2.
  rewrite digits2_pos_log2.
  replace (Z.succ (Z.log2 (Zpos p)) - 1)%Z with (Z.log2 (Zpos p)) by lia.
  apply Z.log2_spec. lia.
Qed.

Lemma Zdigits2_nonneg (m : Z) : (0 <= Zdigits2 m)%Z.
Proof. destruct m; simpl; lia. Qed.

Lemma Zdigits2_zero : Zdigits2 0 = 0%Z.
Proof. reflexivity. Qed.

Lemma pow2_pos (k : Z) : (0 <= k)%Z -> (0 < 2 ^ k)%Z.
Proof. intro H. apply Z.pow_pos_nonneg; lia. Qed.

Lemma shr_1_m (r : shr_record) :
  (0 <= shr_m r)%Z -> shr_m (shr_1 r) = (shr_m r / 2)%Z.
Proof.
  destruct r as [m rr ss]. simpl. intro H. rewrite <- Z.div2_div.
  destruct m as [|p|p]; [reflexivity|destruct p; reflexivity|lia].
Qed.

Lemma iter_shr_m (p : positive) (r : shr_record) :
  (0 <= shr_m r)%Z -> shr_m (iter_pos shr_1 p r) = (shr_m r / 2 ^ Zpos p)%Z.
Proof.
  revert r. induction p as [p IH|p IH|]; intros r H; simpl iter_pos.
  - assert (P : (0 < 2 ^ Zpos p)%Z) by (apply pow2_pos; lia).
    assert (H1 : (0 <= shr_m (shr_1 r))%Z) by (rewrite shr_1_m by lia; apply Z.div_pos; lia).
    assert (H2 := IH _ H1).
    rewrite IH by (rewrite H2; apply Z.div_pos; lia).
    rewrite H2, shr_1_m by lia. rewrite !Z.div_div by lia.
    f_equal. replace (Zpos p~1) with (1 + Zpos p + Zpos p)%Z by lia.
    rewrite !Z.pow_add_r by lia. ring.
  - assert (P : (0 < 2 ^ Zpos p)%Z) by (apply pow2_pos; lia).
    assert (H2 := IH _ H).
    rewrite IH by (rewrite H2; apply Z.div_pos; lia).
    rewrite H2. rewrite Z.div_div by lia.
    f_equal. replace (Zpos p~0) with (Zpos p + Zpos p)%Z by lia.
    rewrite Z.pow_add_r by lia. reflexivity.
  - apply shr_1_m, H.
Qed.

Lemma shr_m_of_loc (m : Z) (l : location) : shr_m (shr_record_of_loc m l) = m.
Proof. destruct l as [|[| |]]; reflexivity. Qed.

Lemma fexp64 (x : Z) : SpecFloat.fexp f64_prec f64_emax x = Z.max (x - 53) (-1074).
Proof. reflexivity. Qed.

Lemma shr_fexp_spec (m e : Z) (l : location) (mrs : shr_record) (e1 : Z) :
  (0 <= m)%Z -> shr_fexp f64_prec f64_emax m e l = (mrs, e1) ->
  exists k, (0 <= k)%Z /\ e1 = (e + k)%Z /\ shr_m mrs = (m / 2 ^ k)%Z /\
            (k = 0 \/ e1 = -1074 \/ 2 ^ 52 <= shr_m mrs)%Z.
Proof.
  intros Hm E. unfold shr_fexp, shr in E. rewrite fexp64 in E.
  set (D := Zdigits2 m) in *.
  set (k0 := (Z.max (D + e - 53) (-1074) - e)%Z) in *.
  destruct k0 as [|p|p] eqn:Ek; injection E as <- <-.
  - exists 0%Z. rewrite shr_m_of_loc. repeat split; try lia.
    rewrite Z.pow_0_r, Z.div_1_r. reflexivity.
  - exists (Zpos p). rewrite iter_shr_m; rewrite shr_m_of_loc; [|exact Hm].
    repeat split; try lia.
    right.
    destruct (Z.max_spec (D + e - 53) (-1074)) as [[Hlt Hmx]|[Hge Hmx]].
    + left. lia.
    + right. assert (HD : (53 < D)%Z) by lia.
      assert (Hpos : (0 < m)%Z).
      { destruct (Z.eq_dec m 0) as [->|]; [|lia]. unfold D in HD. simpl in HD. lia. }
      destruct (Zdigits2_bounds m Hpos) as [Hlo _]. fold D in Hlo.
      assert (Ep : Zpos p = (D - 53)%Z) by lia. rewrite Ep.
      apply Z.div_le_lower_bound; [apply pow2_pos; lia|].
      rewrite <- Z.pow_add_r by lia.
      replace (D - 53 + 52)%Z with (D - 1)%Z by lia. exact Hlo.
  - exists 0%Z. rewrite shr_m_of_loc. repeat split; try lia.
    rewrite Z.pow_0_r, Z.div_1_r. reflexivity.
Qed.

Lemma round_nearest_even_bounds (m : Z) (l : location) :
  round_nearest_even m l = m \/ round_nearest_even m l = (m + 1)%Z.
Proof.
  destruct l as [|[| |]]; simpl; auto. destruct (Z.even m); auto.
Qed.

Lemma div_succ_le (a c : Z) : (0 < c)%Z -> ((a + 1) / c <= a / c + 1)%Z.
Proof.
  intro Hc. replace (a / c + 1)%Z with ((a + 1 * c) / c)%Z
    by (rewrite Z.div_add by lia; reflexivity).
  apply Z.div_le_mono; lia.
Qed.

Lemma binary_round_aux_spec (s : bool) (m e : Z) (l : location) :
  (0 <= m)%Z -> (e = -1074 \/ 2 ^ 52 <= m)%Z ->
  exists k m', (0 <= k)%Z /\ (0 <= m')%Z /\ (m / 2 ^ k <= m' <= m / 2 ^ k + 1)%Z /\
    (e + k = -1074 \/ 2 ^ 52 <= m')%Z /\
    binary_round_aux f64_prec f64_emax s m e l = fout s m' (e + k).
Proof.
  intros Hm Hinv. unfold binary_round_aux.
  destruct (shr_fexp f64_prec f64_emax m e l) as [mrs1 e1] eqn:E1.
  destruct (shr_fexp_spec m e l mrs1 e1 Hm E1) as (k1 & Hk1 & He1 & Hs1 & Hi1).
  set (s1 := shr_m mrs1) in *.
  assert (Hs1n : (0 <= s1)%Z) by (rewrite Hs1; apply Z.div_pos; [lia|apply pow2_pos; lia]).
  set (m2 := round_nearest_even s1 (loc_of_shr_record mrs1)).
  assert (Hm2 : m2 = s1 \/ m2 = (s1 + 1)%Z) by apply round_nearest_even_bounds.
  destruct (shr_fexp f64_prec f64_emax m2 e1 loc_Exact) as [mrs2 e2] eqn:E2.
  assert (Hm2n : (0 <= m2)%Z) by lia.
  destruct (shr_fexp_spec m2 e1 loc_Exact mrs2 e2 Hm2n E2) as (k2 & Hk2 & He2 & Hs2 & Hi2).
  exists (k1 + k2)%Z, (shr_m mrs2).
  assert (P1 : (0 < 2 ^ k1)%Z) by (apply pow2_pos; lia).
  assert (P2 : (0 < 2 ^ k2)%Z) by (apply pow2_pos; lia).
  assert (Hq : (m / 2 ^ (k1 + k2) = s1 / 2 ^ k2)%Z).
  { rewrite Hs1, Z.div_div, Z.pow_add_r by lia. reflexivity. }
  split; [lia|]. split; [rewrite Hs2; apply Z.div_pos; lia|].
  split; [|split].
  - rewrite Hq, Hs2. destruct Hm2 as [-> | ->]; split; try lia.
    + apply Z.div_le_mono; lia.
    + apply div_succ_le; lia.
  - destruct Hi2 as [->|[Hi2|Hi2]]; [|left; lia|right; exact Hi2].
    rewrite Z.pow_0_r, Z.div_1_r in Hs2.
    destruct Hi1 as [->|[Hi1|Hi1]].
    + rewrite Z.pow_0_r, Z.div_1_r in Hs1.
      destruct Hinv as [Hinv|Hinv]; [left; lia|right; lia].
    + left; lia.
    + right; lia.
  - rewrite He2, He1. replace (e + (k1 + k2))%Z with (e + k1 + k2)%Z by lia.
    unfold fout. destruct (shr_m mrs2); reflexivity.
Qed.

Lemma div_core_spec (n d : positive) :
  exists a, (0 <= a)%Z /\
    SFdiv_core_binary f64_prec f64_emax (Zpos n) 0 (Zpos d) 0
    = ((Zpos n * 2 ^ a) / Zpos d, (- a)%Z,
       new_location (Zpos d) ((Zpos n * 2 ^ a) mod Zpos d))%Z /\
    (- a = -1074 \/ 2 ^ 52 <= (Zpos n * 2 ^ a) / Zpos d)%Z.
Proof.
  unfold SFdiv_core_binary. rewrite fexp64.
  set (d1 := Zdigits2 (Zpos n)). set (d2 := Zdigits2 (Zpos d)).
  assert (Bn := Zdigits2_bounds (Zpos n) eq_refl). fold d1 in Bn.
  assert (Bd := Zdigits2_bounds (Zpos d) eq_refl). fold d2 in Bd.
  assert (P1 : (0 < d1)%Z) by (unfold d1; simpl; lia).
  assert (P2 : (0 < d2)%Z) by (unfold d2; simpl; lia).
  set (e' := Z.min (Z.max (d1 + 0 - (d2 + 0) - 53) (-1074)) (0 - 0)).
  exists (- e')%Z.
  assert (He' : (e' <= 0)%Z) by (unfold e'; lia).
  assert (Hm : match (0 - 0 - e')%Z with
               | Zpos _ => Z.shiftl (Zpos n) (0 - 0 - e')
               | Z0 => Zpos n
               | Zneg _ => 0%Z
               end = (Zpos n * 2 ^ (- e'))%Z).
  { destruct (0 - 0 - e')%Z as [|p|p] eqn:Es.
    - replace (- e')%Z with 0%Z by lia. lia.
    - rewrite Z.shiftl_mul_pow2 by lia. f_equal. f_equal. lia.
    - lia. }
  rewrite Hm. split; [lia|]. split.
  - unfold Z.div, Z.modulo. destruct (Z.div_eucl _ _). f_equal. f_equal. lia.
  - replace (- - e')%Z with e' by lia.
    assert (Pd2 : (0 < 2 ^ d2)%Z) by (apply pow2_pos; apply Zdigits2_nonneg).
    destruct (Z.min_spec (Z.max (d1 + 0 - (d2 + 0) - 53) (-1074)) (0 - 0))
      as [[Hl Hmin]|[Hl Hmin]]; fold e' in Hmin.
    + destruct (Z.max_spec (d1 + 0 - (d2 + 0) - 53) (-1074)) as [[Hl2 Hmax]|[Hl2 Hmax]].
      * left. lia.
      * right. apply Z.div_le_lower_bound; [lia|].
        assert (Ea : (- e' = 53 - d1 + d2)%Z) by lia. rewrite Ea.
        apply (Z.le_trans _ (2 ^ d2 * 2 ^ 52)).
        { apply Z.mul_le_mono_nonneg_r; lia. }
        rewrite <- Z.pow_add_r by (try apply Zdigits2_nonneg; lia).
        apply (Z.le_trans _ (2 ^ (d1 - 1) * 2 ^ (53 - d1 + d2))).
        { rewrite <- Z.pow_add_r by (try apply Zdigits2_nonneg; lia).
          apply Z.pow_le_mono_r; lia. }
        apply Z.mul_le_mono_nonneg_r; [apply Z.lt_le_incl, pow2_pos; lia|lia].
    + right. replace (- e')%Z with 0%Z by lia. rewrite Z.pow_0_r, Z.mul_1_r.
      apply Z.div_le_lower_bound; [lia|].
      assert (Hd : (53 <= d1 - d2)%Z) by lia.
      apply (Z.le_trans _ (2 ^ d2 * 2 ^ 52)).
      { apply Z.mul_le_mono_nonneg_r; lia. }
      rewrite <- Z.pow_add_r by (try apply Zdigits2_nonneg; lia).
      apply (Z.le_trans _ (2 ^ (d1 - 1))); [apply Z.pow_le_mono_r; lia|lia].
Qed.

Lemma conv_spec (s : bool) (n d : positive) :
  exists a b m, (0 <= a)%Z /\ (0 <= b)%Z /\ (0 <= m)%Z /\
    ((Zpos n * 2 ^ a) / (Zpos d * 2 ^ b) <= m
       <= (Zpos n * 2 ^ a) / (Zpos d * 2 ^ b) + 1)%Z /\
    (b - a = -1074 \/ 2 ^ 52 <= m)%Z /\
    (let '(m0, e0, l0) := SFdiv_core_binary f64_prec f64_emax (Zpos n) 0 (Zpos d) 0 in
     binary_round_aux f64_prec f64_emax s m0 e0 l0) = fout s m (b - a).
Proof.
  destruct (div_core_spec n d) as (a & Ha & E & Hinv). rewrite E.
  assert (HM : (0 <= (Zpos n * 2 ^ a) / Zpos d)%Z)
    by (apply Z.div_pos; [apply Z.mul_nonneg_nonneg; [lia|apply Z.pow_nonneg; lia]|lia]).
  destruct (binary_round_aux_spec s _ _ (new_location (Zpos d) ((Zpos n * 2 ^ a) mod Zpos d))
              HM Hinv) as (k & m' & Hk & Hm' & Hb & Hi & Hr).
  exists a, k, m'. rewrite Z.div_div in Hb by (try apply pow2_pos; lia).
  repeat split; try lia.
  rewrite Hr. f_equal. lia.
Qed.

Lemma float_of_Q_pos_spec (n d : positive) :
  exists a b m, (0 <= a)%Z /\ (0 <= b)%Z /\ (0 <= m)%Z /\
    ((Zpos n * 2 ^ a) / (Zpos d * 2 ^ b) <= m
       <= (Zpos n * 2 ^ a) / (Zpos d * 2 ^ b) + 1)%Z /\
    (b - a = -1074 \/ 2 ^ 52 <= m)%Z /\
    float_of_Q (Zpos n # d) = fout false m (b - a).
Proof. exact (conv_spec false n d). Qed.

Lemma float_of_Q_neg_spec (n d : positive) :
  exists a b m, (0 <= m)%Z /\ float_of_Q (Zneg n # d) = fout true m (b - a).
Proof.
  destruct (conv_spec true n d) as (a & b & m & _ & _ & Hm & _ & _ & E).
  exists a, b, m. split; [exact Hm|exact E].
Qed.

(** The value of a positive finite float, scaled by [2 ^ a]. *)
Lemma float_to_Q_scaled (p : positive) (a b : Z) :
  (0 <= a)%Z -> (0 <= b)%Z ->
  float_to_Q (S754_finite false p (b - a)) * inject_Z (2 ^ a) == inject_Z (Zpos p * 2 ^ b).
Proof.
  intros Ha Hb. unfold float_to_Q.
  destruct (Z.leb_spec 0 (b - a)) as [H|H].
  - rewrite <- inject_Z_mult. apply inject_Z_injective.
    rewrite <- Z.mul_assoc, <- Z.pow_add_r by lia. do 2 f_equal. lia.
  - unfold Qeq, Qmult, inject_Z. cbn [Qnum Qden].
    rewrite Pos2Z.inj_mul, Z2Pos.id by (apply pow2_pos; lia).
    replace a with (b + - (b - a))%Z at 1 by lia.
    rewrite Z.pow_add_r by lia. lia.
Qed.

Lemma float_to_Q_pos (p : positive) (e : Z) : 0 < float_to_Q (S754_finite false p e).
Proof.
  unfold float_to_Q. destruct (Z.leb_spec 0 e).
  - unfold Qlt, inject_Z. cbn [Qnum Qden].
    assert (0 < 2 ^ e)%Z by (apply pow2_pos; lia). lia.
  - unfold Qlt. cbn [Qnum Qden]. lia.
Qed.

Lemma float_to_Q_neg (p : positive) (e : Z) : float_to_Q (S754_finite true p e) < 0.
Proof.
  pose proof (float_to_Q_pos p e) as H. unfold float_to_Q in *.
  destruct (0 <=? e)%Z; lra.
Qed.

(** Comparing a rational with a positive finite float through [2 ^ a]. *)
Lemma le_float_to_Q (r : Q) (p : positive) (a b : Z) :
  (0 <= a)%Z -> (0 <= b)%Z ->
  (r <= float_to_Q (S754_finite false p (b - a)) <->
   r * inject_Z (2 ^ a) <= inject_Z (Zpos p * 2 ^ b)).
Proof.
  intros Ha Hb. rewrite <- (float_to_Q_scaled p a b Ha Hb).
  assert (P : 0 < inject_Z (2 ^ a)) by (unfold Qlt; simpl; pose proof (pow2_pos a Ha); lia).
  split; intro H.
  - apply Qmult_le_r; assumption.
  - apply Qmult_le_r in H; assumption.
Qed.

(** [float(q)] of a rational of at least 50 is at least 50.0. *)
Lemma float_of_Q_ge_min (q : Q) :
  50 <= q -> py_fle min_payout_amount (float_of_Q q) = true.
Proof.
  destruct q as [[|n|n] d]; intro H;
    try (unfold Qle in H; cbn [Qnum Qden] in H; lia).
  assert (Hn : (50 * Zpos d <= Zpos n)%Z) by (unfold Qle in H; cbn [Qnum Qden] in H; lia).
  destruct (float_of_Q_pos_spec n d) as (a & b & m & Ha & Hb & Hm & [Hlo Hhi] & Hinv & E).
  rewrite E.
  assert (PA := pow2_pos a Ha). assert (PB := pow2_pos b Hb).
  assert (Key : (50 * 2 ^ a <= m * 2 ^ b)%Z).
  { destruct (Z.le_gt_cases b (a + 1)) as [Hab|Hab].
    - assert (EK : (50 * 2 ^ a = 25 * 2 ^ (a + 1 - b) * 2 ^ b)%Z).
      { rewrite <- Z.mul_assoc, <- Z.pow_add_r by lia.
        replace (a + 1 - b + b)%Z with (Z.succ a) by lia.
        rewrite Z.pow_succ_r by lia. lia. }
      assert (PK := pow2_pos (a + 1 - b) ltac:(lia)).
      assert (FK : (25 * 2 ^ (a + 1 - b) <= (Zpos n * 2 ^ a) / (Zpos d * 2 ^ b))%Z).
      { apply Z.div_le_lower_bound; [lia|].
        replace (Zpos d * 2 ^ b * (25 * 2 ^ (a + 1 - b)))%Z with (Zpos d * (50 * 2 ^ a))%Z
          by (rewrite EK; ring).
        nia. }
      rewrite EK. apply Z.mul_le_mono_nonneg_r; lia.
    - destruct Hinv as [Hinv|Hinv]; [lia|].
      apply (Z.le_trans _ (2 ^ 54 * 2 ^ a)); [lia|].
      replace (2 ^ 54 * 2 ^ a)%Z with (2 ^ 52 * 2 ^ (a + 2))%Z
        by (rewrite !Z.pow_add_r by lia; lia).
      apply Z.mul_le_mono_nonneg; try lia.
      apply Z.pow_le_mono_r; lia. }
  unfold fout. destruct m as [|p|p]; [lia| |lia].
  destruct (_ <=? _)%Z; [|reflexivity].
  unfold py_fle, py_flt, min_payout_amount. apply negb_true_iff, Qltb_false.
  apply (Qle_trans _ 50); [apply Qle_bool_iff; reflexivity|].
  apply le_float_to_Q; [exact Ha|exact Hb|].
  change (50 : Q) with (inject_Z 50).
  rewrite <- inject_Z_mult. rewrite <- Zle_Qle. exact Key.
Qed.

(** [float(q)] of a non-negative rational is at least 0.0. *)
Lemma float_of_Q_nonneg (q : Q) :
  0 <= q -> py_fle fzero (float_of_Q q) = true.
Proof.
  destruct q as [[|n|n] d]; intro H.
  - reflexivity.
  - destruct (float_of_Q_pos_spec n d) as (a & b & m & _ & _ & Hm & _ & _ & E).
    rewrite E. unfold fout. destruct m as [|p|p]; [reflexivity| |lia].
    destruct (_ <=? _)%Z; [|reflexivity].
    unfold py_fle, py_flt, fzero. apply negb_true_iff, Qltb_false.
    apply Qlt_le_weak, float_to_Q_pos.
  - unfold Qle in H. cbn [Qnum Qden] in H. lia.
Qed.

(** A rational whose [float] is a finite float of at least 50 is at
    least 49.995. *)
Lemma float_of_Q_finite_ge_min (c : Q) (s : bool) (p : positive) (e : Z) :
  float_of_Q c = S754_finite s p e -> 50 <= float_to_Q (S754_finite s p e) ->
  9999 # 200 <= c.
Proof.
  destruct c as [[|n|n] d]; intros E H.
  - discriminate.
  - destruct (float_of_Q_pos_spec n d) as (a & b & m & Ha & Hb & Hm & [Hlo Hhi] & Hinv & E').
    rewrite E' in E. unfold fout in E.
    destruct m as [|p'|p']; [discriminate| |discriminate].
    destruct (_ <=? _)%Z; [|discriminate]. injection E as <- <- <-.
    apply le_float_to_Q in H; [|exact Ha|exact Hb].
    change (50 : Q) with (inject_Z 50) in H.
    rewrite <- inject_Z_mult, <- Zle_Qle in H.
    assert (PA := pow2_pos a Ha). assert (PB := pow2_pos b Hb).
    assert (Hp : (10000 <= Zpos p')%Z).
    { destruct Hinv as [Hinv|Hinv]; [|lia].
      replace a with (b + 1074)%Z in H by lia.
      rewrite Z.pow_add_r in H by lia.
      assert (B1074 : (10000 <= 50 * 2 ^ 1074)%Z) by (vm_compute; discriminate).
      nia. }
    assert (Hf : ((Zpos p' - 1) * (Zpos d * 2 ^ b) <= Zpos n * 2 ^ a)%Z).
    { apply (Z.le_trans _ (((Zpos n * 2 ^ a) / (Zpos d * 2 ^ b)) * (Zpos d * 2 ^ b))).
      - apply Z.mul_le_mono_nonneg_r; lia.
      - rewrite Z.mul_comm. apply Z.mul_div_le. lia. }
    unfold Qle. cbn [Qnum Qden].
    assert (S1 : (9999 * Zpos p' * 2 ^ b <= 10000 * (Zpos p' - 1) * 2 ^ b)%Z) by nia.
    assert (S2 : (9999 * 50 * 2 ^ a * Zpos d <= 9999 * Zpos p' * 2 ^ b * Zpos d)%Z) by nia.
    assert (S3 : (10000 * (Zpos p' - 1) * 2 ^ b * Zpos d <= 10000 * Zpos n * 2 ^ a)%Z) by nia.
    assert (S4 : (9999 * 50 * Zpos d * 2 ^ a <= 10000 * Zpos n * 2 ^ a)%Z) by nia.
    assert (S5 : (9999 * 50 * Zpos d <= 10000 * Zpos n)%Z).
    { apply (Z.mul_le_mono_pos_r _ _ (2 ^ a)); lia. }
    lia.
  - destruct (float_of_Q_neg_spec n d) as (a & b & m & Hm & E').
    rewrite E' in E. unfold fout in E.
    destruct m as [|p'|p']; [discriminate| |discriminate].
    destruct (_ <=? _)%Z; [|discriminate]. injection E as <- <- <-.
    pose proof (float_to_Q_neg p' (b - a)). lra.
Qed.

(** Rounding half away from zero of a value of at least 4999.5. *)
Lemma round_half_away_ge_5000 (x : Q) : 9999 # 2 <= x -> (5000 <= round_half_away x)%Z.
Proof.
  destruct x as [n d]. unfold Qle, round_half_away. cbn [Qnum Qden]. intro H.
  assert (Hn : (0 < n)%Z) by lia.
  rewrite Z.abs_eq by lia.
  destruct (Z.ltb_spec n 0); [lia|].
  pose proof (Z.div_mod n (Zpos d) ltac:(lia)) as Dm.
  pose proof (Z.mod_pos_bound n (Zpos d) ltac:(lia)) as Mb.
  set (q := (n / Zpos d)%Z) in *. set (r := (n mod Zpos d)%Z) in *.
  destruct (Z.leb_spec (Zpos d) (2 * r)); nia.
Qed.

Lemma shortest_aux_spec (fuel : nat) (k : Z) (x : float) (v : Q) (E : Z) :
  shortest_aux fuel k x v E = v \/ roundtrips x (shortest_aux fuel k x v E) = true.
Proof.
  revert k. induction fuel as [|f IH]; intro k; cbn [shortest_aux]; [left; reflexivity|].
  set (sc := pow10 (k - 1 - E)). set (lo := Qfloor (v * sc)).
  destruct (roundtrips x (inject_Z lo / sc)) eqn:E1,
           (roundtrips x (inject_Z (lo + 1) / sc)) eqn:E2;
    try (right; assumption).
  - destruct (Qcompare _ _); [destruct (Z.even _)| |]; right; assumption.
  - apply IH.
Qed.

(** ** Payout routes *)

Lemma lstrip_all_space (v : list Z) :
  Forall (fun c => is_space c = true) v -> lstrip v = [].
Proof. induction 1 as [|c r Hc _ IH]; simpl; [reflexivity|]. rewrite Hc. exact IH. Qed.

(** X3: the wallet validator only checks the length before stripping, so a wallet address of at least ten whitespace characters is accepted and becomes the empty string. *)
Theorem validate_wallet_accepts_blank (v : list Z) :
  (10 <= List.length v)%nat -> Forall (fun c => is_space c = true) v ->
  validate_wallet v = inr [].
Proof.
  intros Hl Hs. unfold validate_wallet.
  destruct (Nat.ltb_spec (List.length v) 10); [lia|].
  unfold py_strip. rewrite (lstrip_all_space v Hs). reflexivity.
Qed.

(** [round(x, 2)] keeps a positive float non-negative, and a float of at
    least 50.0 at least 50.0. *)
Lemma py_round2_pos (x : float) :
  py_flt fzero x = true -> py_fle fzero (py_round2 x) = true.
Proof.
  destruct x as [s|s| |s p e]; intro H.
  - simpl in H. discriminate.
  - destruct s; [discriminate|reflexivity].
  - discriminate.
  - unfold py_round2.
    assert (Hv : 0 <= float_to_Q (S754_finite s p e)).
    { apply Qlt_le_weak, Qltb_true, H. }
    pose proof (round_cents_nonneg _ Hv) as Hc. unfold round_cents, Qle in Hc.
    cbn [Qnum Qden] in Hc.
    destruct (Z.eqb_spec (round_half_even (float_to_Q (S754_finite s p e) * 100)) 0).
    + destruct s; reflexivity.
    + apply float_of_Q_nonneg. unfold Qle. cbn [Qnum Qden]. lia.
Qed.

Lemma py_round2_ge_min (x : float) :
  py_fle min_payout_amount x = true -> py_fle min_payout_amount (py_round2 x) = true.
Proof.
  destruct x as [s|s| |s p e]; intro H.
  - simpl in H. discriminate.
  - exact H.
  - discriminate.
  - unfold py_round2.
    assert (Hv : 5000 # 100 <= float_to_Q (S754_finite s p e)).
    { cbn [py_fle py_flt min_payout_amount] in H. apply negb_true_iff, Qltb_false in H.
      exact (Qle_trans _ _ _
               (proj1 (Qle_bool_iff (5000 # 100) (float_to_Q min_payout_amount)) eq_refl) H). }
    pose proof (round_cents_ge _ _ Hv) as Hc. unfold round_cents, Qle in Hc.
    cbn [Qnum Qden] in Hc.
    destruct (Z.eqb_spec (round_half_even (float_to_Q (S754_finite s p e) * 100)) 0);
      [lia|].
    apply float_of_Q_ge_min. unfold Qle. cbn [Qnum Qden]. lia.
Qed.

(** [str(x)] of a float of at least 50.0 reads as at least 49.995. *)
Lemma py_repr_value_ge_min (p : positive) (e : Z) :
  50 <= float_to_Q (S754_finite false p e) ->
  9999 # 200 <= py_repr_value (S754_finite false p e).
Proof.
  intro H. unfold py_repr_value. cbv beta zeta iota.
  apply (proj2 (Qle_comp _ _ (Qeq_refl _) _ _ (Qred_correct _))).
  set (x := S754_finite false p e) in *.
  set (v := Qabs (float_to_Q x)).
  destruct (shortest_aux_spec 17 1 x v (adjexp v)) as [E|E]; rewrite ?E.
  - apply (Qle_trans _ 50); [apply Qle_bool_iff; reflexivity|].
    apply (Qle_trans _ _ _ H), Qle_Qabs.
  - unfold roundtrips in E.
    destruct (float_of_Q (shortest_aux 17 1 x v (adjexp v))) as [| | |s' p' e'] eqn:F;
      try discriminate.
    apply Qeq_bool_iff in E.
    apply (float_of_Q_finite_ge_min _ s' p' e' F). rewrite E. exact H.
Qed.

(** A [Numeric(18, 2)] value stored from a value of at least 49.995 is at
    least 50. *)
Lemma numeric_18_2_ge_min (q : Q) (d : DecNum) :
  9999 # 200 <= q -> numeric_18_2 (DFin q) = Some d ->
  exists q', d = DFin q' /\ 50 <= q'.
Proof.
  intros Hq E. unfold numeric_18_2 in E.
  assert (Hc : (5000 <= round_half_away (q * 100))%Z).
  { apply round_half_away_ge_5000.
    apply (Qle_trans _ ((9999 # 200) * 100)); [apply Qle_bool_iff; reflexivity|].
    apply Qmult_le_compat_r; [exact Hq|discriminate]. }
  destruct (_ <=? _)%Z; [discriminate|]. injection E as <-.
  eexists. split; [reflexivity|].
  change (50 <= Qred (round_half_away (q * 100) # 100)).
  apply (proj2 (Qle_comp _ _ (Qeq_refl _) _ _ (Qred_correct _))).
  unfold Qle. cbn [Qnum Qden]. lia.
Qed.

Lemma dec_minus_zero_id (d : DecNum) : dec_minus_zero d = d.
Proof.
  destruct d as [[n den]| |s]; try reflexivity. simpl.
  unfold Qminus, Qplus. simpl. rewrite Z.mul_1_r, Z.add_0_r, Pos.mul_1_r. reflexivity.
Qed.

Lemma store_payout_fields (p r : Payout) :
  store_payout p = Some r ->
  p_user_id r = p_user_id p /\ p_challenge_id r = p_challenge_id p /\
  p_status r = p_status p /\
  numeric_18_2 (p_amount p) = Some (p_amount r) /\
  numeric_18_2 (p_fee p) = Some (p_fee r) /\
  numeric_18_2 (p_net_amount p) = Some (p_net_amount r).
Proof.
  unfold store_payout.
  destruct (numeric_18_2 (p_amount p)) as [a|]; [|discriminate].
  destruct (numeric_18_2 (p_fee p)) as [f|]; [|discriminate].
  destruct (numeric_18_2 (p_net_amount p)) as [n|]; [|discriminate].
  intro E. injection E as <-. simpl. repeat split.
Qed.

(** What a payout request does: it answers without data and leaves the
    table unchanged, or it passes every check and appends the stored row. *)
Lemma request_payout_cases (sum_floats : list float -> float) (body : PayoutRequest)
    (uid : Z) (role : UserRole) (rows : list ChallengeRow) (ps : list Payout) :
  (snd (request_payout sum_floats body uid role rows ps) = ps /\
   forall p, fst (request_payout sum_floats body uid role rows ps) <> Data p) \/
  (exists av r,
     payout_role_ok role = true /\
     py_flt (b_amount body) min_payout_amount = false /\
     get_available_payout sum_floats (b_challenge_id body) uid role rows ps = Data av /\
     can_request av = true /\
     store_payout (mkPayout uid (b_challenge_id body) (decimal_of_float (b_amount body))
                     (DFin 0) (dec_minus_zero (decimal_of_float (b_amount body))) pending)
       = Some r /\
     request_payout sum_floats body uid role rows ps
       = (Data (mkPayout uid (b_challenge_id body) (decimal_of_float (b_amount body))
                  (DFin 0) (dec_minus_zero (decimal_of_float (b_amount body))) pending),
          ps ++ [r])).
Proof.
  unfold request_payout.
  destruct (payout_role_ok role) eqn:Er;
    [|left; split; [reflexivity|discriminate]].
  cbn [negb].
  destruct (py_flt (b_amount body) min_payout_amount) eqn:Em;
    [left; split; [reflexivity|discriminate]|].
  destruct (get_available_payout _ _ _ _ _ _) as [c d| |av] eqn:Eg;
    try (left; split; [reflexivity|discriminate]).
  destruct (can_request av) eqn:Ec; cbn [negb];
    [|left; split; [reflexivity|discriminate]].
  destruct (py_flt (available_amount av) (b_amount body));
    [left; split; [reflexivity|discriminate]|].
  destruct (store_payout _) as [r|] eqn:Es; [|left; split; [reflexivity|discriminate]].
  right. exists av, r. repeat split; assumption.
Qed.

Lemma can_request_no_pending (sum_floats : list float -> float) (cid uid : Z)
    (role : UserRole) (rows : list ChallengeRow) (ps : list Payout) (av : AvailablePayoutOut) :
  get_available_payout sum_floats cid uid role rows ps = Data av ->
  can_request av = true -> pending_of cid ps = [].
Proof.
  unfold get_available_payout.
  destruct (negb (payout_role_ok role)); [discriminate|].
  destruct (find_funded_challenge uid cid rows); [|discriminate].
  destruct (pending_of cid ps) as [|p0 [|p1 rest]]; [reflexivity| |discriminate].
  intro E. injection E as <-. simpl. rewrite andb_false_r. discriminate.
Qed.

Lemma pending_of_app_pending (cid : Z) (ps : list Payout) (p : Payout) :
  p_challenge_id p = cid -> p_status p = pending ->
  pending_of cid (ps ++ [p]) = pending_of cid ps ++ [p].
Proof.
  intros Hc Hs. unfold pending_of. rewrite filter_app. simpl.
  rewrite Hc, Hs, Z.eqb_refl. reflexivity.
Qed.

Lemma get_available_payout_after_pending (sum_floats : list float -> float) (cid uid : Z)
    (role : UserRole) (rows : list ChallengeRow) (ps : list Payout)
    (av : AvailablePayoutOut) (r : Payout) :
  get_available_payout sum_floats cid uid role rows ps = Data av ->
  pending_of cid ps = [] -> p_challenge_id r = cid -> p_status r = pending ->
  exists av', get_available_payout sum_floats cid uid role rows (ps ++ [r]) = Data av' /\
              can_request av' = false.
Proof.
  intros Hg Hp Hc Hs. unfold get_available_payout in *.
  destruct (negb (payout_role_ok role)); [discriminate|].
  destruct (find_funded_challenge uid cid rows); [|discriminate].
  rewrite (pending_of_app_pending _ ps r Hc Hs), Hp. simpl.
  eexists. split; [reflexivity|]. simpl. apply andb_false_r.
Qed.

(** X4: the available-payout answer never reports a negative or NaN amount, and when it says a payout can be requested the rounded amount is at least the minimum payout, whatever the float summation of the paid amounts. *)
Theorem available_payout_bounds (sum_floats : list float -> float) (cid uid : Z)
    (role : UserRole) (rows : list ChallengeRow) (ps : list Payout) (a : AvailablePayoutOut) :
  get_available_payout sum_floats cid uid role rows ps = Data a ->
  py_fle fzero (available_amount a) = true /\
  (can_request a = true -> py_fle min_payout_amount (available_amount a) = true).
Proof.
  unfold get_available_payout.
  destruct (negb (payout_role_ok role)); [discriminate|].
  destruct (find_funded_challenge uid cid rows) as [row|]; [|discriminate].
  assert (H0 : py_fle fzero (py_round2 (available_raw sum_floats row ps)) = true).
  { unfold available_raw. cbv zeta.
    match goal with |- context [if py_flt fzero ?d then _ else _] =>
      destruct (py_flt fzero d) eqn:Ed end;
      [apply py_round2_pos, Ed|reflexivity]. }
  destruct (pending_of cid ps) as [|p0 [|p1 rest]]; [| |discriminate];
    intro H; injection H as <-; simpl; split; try exact H0.
  - rewrite andb_true_r. apply py_round2_ge_min.
  - rewrite andb_false_r. discriminate.
Qed.

(** X5: a payout request either fails and leaves the payout table unchanged, or answers with the payout built from Decimal(str(amount)) and appends exactly one row, the one PostgreSQL stores: a pending payout of the user for the requested challenge, with a zero fee, the net amount equal to the amount, and an amount that is NaN (a NaN request passes every check) or at least the minimum payout; and there was no pending payout for that challenge before. *)
Theorem request_payout_table_grows_by_one_pending (sum_floats : list float -> float)
    (body : PayoutRequest) (uid : Z) (role : UserRole) (rows : list ChallengeRow)
    (ps : list Payout) :
  (snd (request_payout sum_floats body uid role rows ps) = ps /\
   forall p, fst (request_payout sum_floats body uid role rows ps) <> Data p) \/
  (exists p r, request_payout sum_floats body uid role rows ps = (Data p, ps ++ [r]) /\
     store_payout p = Some r /\
     p_user_id r = uid /\ p_challenge_id r = b_challenge_id body /\ p_status r = pending /\
     p_amount p = decimal_of_float (b_amount body) /\
     p_fee r = DFin 0 /\ p_net_amount r = p_amount r /\
     (p_amount r = DNaN \/ exists q, p_amount r = DFin q /\ 50 <= q) /\
     pending_of (b_challenge_id body) ps = []).
Proof.
  destruct (request_payout_cases sum_floats body uid role rows ps)
    as [L|(av & r & Hr & Hm & Hg & Hc & Hs & E)]; [left; exact L|right].
  eexists. exists r. rewrite E. split; [reflexivity|]. split; [exact Hs|].
  destruct (store_payout_fields _ _ Hs) as (U & C & St & A & F & N).
  cbn [p_user_id p_challenge_id p_status p_amount p_fee p_net_amount] in *.
  split; [exact U|split; [exact C|split; [exact St|split; [reflexivity|]]]].
  split; [change (numeric_18_2 (DFin 0)) with (Some (DFin 0)) in F; congruence|].
  split; [rewrite dec_minus_zero_id in N; congruence|].
  split; [|exact (can_request_no_pending _ _ _ _ _ _ _ Hg Hc)].
  destruct (b_amount body) as [s|s| |s p e] eqn:Eb; cbn [decimal_of_float] in A.
  - simpl in Hm. discriminate.
  - discriminate.
  - left. injection A as <-. reflexivity.
  - right. cbn [py_flt min_payout_amount] in Hm. apply Qltb_false in Hm.
    apply (Qle_trans 50 _ _
             (proj1 (Qle_bool_iff 50 (float_to_Q min_payout_amount)) eq_refl)) in Hm.
    destruct s.
    + exfalso. apply (Qlt_not_le _ _ (float_to_Q_neg p e)).
      apply (Qle_trans _ 50); [apply Qle_bool_iff; reflexivity|exact Hm].
    + exact (numeric_18_2_ge_min _ _ (py_repr_value_ge_min p e Hm) A).
Qed.

(** X6: once a payout request for a challenge succeeds, any further request for the same challenge of an amount that is not below the minimum is refused with 400 Cannot request payout now. *)
Theorem second_payout_request_refused (sum_floats : list float -> float)
    (body body2 : PayoutRequest) (uid : Z) (role : UserRole) (rows : list ChallengeRow)
    (ps ps' : list Payout) (p : Payout) :
  request_payout sum_floats body uid role rows ps = (Data p, ps') ->
  b_challenge_id body2 = b_challenge_id body ->
  py_flt (b_amount body2) min_payout_amount = false ->
  fst (request_payout sum_floats body2 uid role rows ps')
    = HTTPError 400 "Cannot request payout now".
Proof.
  intros H Hc2 Hm2.
  destruct (request_payout_cases sum_floats body uid role rows ps)
    as [[_ Hn]|(av & r & Hr & Hm & Hg & Hc & Hs & E)];
    [exfalso; apply (Hn p); rewrite H; reflexivity|].
  rewrite E in H. injection H as _ <-.
  destruct (store_payout_fields _ _ Hs) as (_ & C & St & _).
  cbn [p_challenge_id p_status] in C, St.
  destruct (get_available_payout_after_pending sum_floats _ uid role rows ps av r Hg
              (can_request_no_pending _ _ _ _ _ _ _ Hg Hc) C St) as (av' & Hg' & Hc').
  unfold request_payout. rewrite Hr, Hm2. cbn [negb]. rewrite Hc2, Hg'.
  rewrite Hc'. reflexivity.
Qed.

(** ** Witnesses: scheduler and payouts *)

Definition ledger_at_target (days : Z) : Ledger := mkLedger (ch_at_target days) [] [] [].

Lemma engine_never_promotes_below_min_days_witness :
  (trading_days_count (lch (ledger_at_target 0)) < min_trading_days plan_10k)%Z /\
  trading_days_count (lch (engine_runs [env_equity 10800 (day0 + 600)%Z] plan_10k
                             (ledger_at_target 0)))
    = trading_days_count (lch (ledger_at_target 0)) /\
  (status (lch (engine_runs [env_equity 10800 (day0 + 600)%Z] plan_10k (ledger_at_target 0)))
     = status (lch (ledger_at_target 0)) \/
   status (lch (engine_runs [env_equity 10800 (day0 + 600)%Z] plan_10k (ledger_at_target 0)))
     = failed).
Proof.
  assert (H : (trading_days_count (lch (ledger_at_target 0)) < min_trading_days plan_10k)%Z)
    by reflexivity.
  split; [exact H | exact (engine_never_promotes_below_min_days _ _ _ H)].
Defined.

Definition ledger_funded_110k : Ledger := mkLedger ch_funded_110k [] [] [].

Lemma scaling_failure_leaves_ledger_witness :
  status (lch ledger_funded_110k) = funded /\
  transfer_ok env_transfer_fails = false /\
  steps (engine_run env_transfer_fails plan_10k ledger_funded_110k) = [] /\
  initial_balance (lch (engine_run env_transfer_fails plan_10k ledger_funded_110k)) = 100000 /\
  current_balance (lch (engine_run env_transfer_fails plan_10k ledger_funded_110k)) = 110000 /\
  peak_equity (lch (engine_run env_transfer_fails plan_10k ledger_funded_110k)) = 110000.
Proof.
  assert (H : status (lch ledger_funded_110k) = funded) by reflexivity.
  destruct (scaling_failure_leaves_ledger env_transfer_fails plan_10k ledger_funded_110k H)
    as [H1 [H2 [H3 H4]]].
  split; [exact H|split; [reflexivity|]].
  split; [exact H1|split; [exact H2|split; [exact H3|]]].
  rewrite H4. reflexivity.
Defined.

Definition blank_wallet : list Z := repeat 32%Z 10.

Lemma validate_wallet_accepts_blank_witness :
  (10 <= List.length blank_wallet)%nat /\ Forall (fun c => is_space c = true) blank_wallet /\
  validate_wallet blank_wallet = inr [].
Proof.
  assert (H1 : (10 <= List.length blank_wallet)%nat) by (vm_compute; lia).
  assert (H2 : Forall (fun c => is_space c = true) blank_wallet)
    by (repeat constructor).
  exact (conj H1 (conj H2 (validate_wallet_accepts_blank _ H1 H2))).
Defined.

(** The answer for a 1000 PnL at an 80% split and nothing paid:
    800.0 ((25 * 2^48) * 2^-43) at 80.0 ((5 * 2^50) * 2^-46). *)
Definition available_1000_80 : AvailablePayoutOut :=
  mkAvailablePayoutOut 1 (S754_finite false 7036874417766400 (-43))
    (S754_finite false 5629499534213120 (-46))
    min_payout_amount true false.

Lemma available_payout_bounds_witness :
  get_available_payout py_sum 1 7 funded_trader rows_1000_80 [] = Data available_1000_80 /\
  py_fle fzero (available_amount available_1000_80) = true /\
  (can_request available_1000_80 = true ->
   py_fle min_payout_amount (available_amount available_1000_80) = true).
Proof.
  assert (H : get_available_payout py_sum 1 7 funded_trader rows_1000_80 []
              = Data available_1000_80) by (vm_compute; reflexivity).
  exact (conj H (available_payout_bounds _ _ _ _ _ _ _ H)).
Defined.

(** The payout of a request of 100.0, as answered and as stored. *)
Definition payout_100 : Payout := mkPayout 7 1 (DFin 100) (DFin 0) (DFin 100) pending.

Lemma second_payout_request_refused_witness :
  request_payout py_sum (mkPayoutRequest 1 (float_of_Q 100)) 7 funded_trader rows_1000_80 []
    = (Data payout_100, [payout_100]) /\
  b_challenge_id (mkPayoutRequest 1 (float_of_Q 60))
    = b_challenge_id (mkPayoutRequest 1 (float_of_Q 100)) /\
  py_flt (b_amount (mkPayoutRequest 1 (float_of_Q 60))) min_payout_amount = false /\
  fst (request_payout py_sum (mkPayoutRequest 1 (float_of_Q 60)) 7 funded_trader
         rows_1000_80 [payout_100])
    = HTTPError 400 "Cannot request payout now".
Proof.
  assert (H1 : request_payout py_sum (mkPayoutRequest 1 (float_of_Q 100)) 7 funded_trader
                 rows_1000_80 [] = (Data payout_100, [payout_100]))
    by (vm_compute; reflexivity).
  assert (H2 : b_challenge_id (mkPayoutRequest 1 (float_of_Q 60))
               = b_challenge_id (mkPayoutRequest 1 (float_of_Q 100))) by reflexivity.
  assert (H3 : py_flt (b_amount (mkPayoutRequest 1 (float_of_Q 60))) min_payout_amount = false)
    by (vm_compute; reflexivity).
  exact (conj H1 (conj H2 (conj H3
    (second_payout_request_refused _ _ _ _ _ _ _ _ _ H1 H2 H3)))).
Defined.

(* ================================================================== *)
(** * The legacy trading backend *)

Import Legacy.

(** X7: the PnL of a SHORT trade is the negation of the PnL of the LONG trade with the same entry, close and size; the leverage does not enter the PnL. *)
Theorem trade_pnl_short_mirrors_long (entry close size : Q) (lev1 lev2 : Z) :
  calculate_trade_pnl SHORT entry close size lev1
  = - calculate_trade_pnl LONG entry close size lev2.
Proof.
  unfold calculate_trade_pnl. rewrite <- round_cents_opp.
  apply round_cents_Qeq. ring.
Qed.

Definition priced (prices : Prices) (t : Trade) : bool :=
  match price_get prices (symbol t) with Some _ => true | None => false end.

Lemma unrealized_fold_filter (prices : Prices) (ts : list Trade) (acc : Q) :
  fold_left (fun acc trade =>
               match price_get prices (symbol trade) with
               | Some price => acc + calculate_unrealized_pnl trade price
               | None => acc
               end) ts acc
  = fold_left (fun acc trade =>
               match price_get prices (symbol trade) with
               | Some price => acc + calculate_unrealized_pnl trade price
               | None => acc
               end) (filter (priced prices) ts) acc.
Proof.
  revert acc. induction ts as [|t ts IH]; intro acc; [reflexivity|].
  simpl. unfold priced at 1. destruct (price_get prices (symbol t)) eqn:E; simpl.
  - rewrite E. apply IH.
  - apply IH.
Qed.

(** X8: open trades whose symbol has no price contribute nothing to the equity: the equity equals the equity over the priced trades only. *)
Theorem calculate_equity_skips_unpriced (account : Account) (ts : list Trade)
    (prices : Prices) :
  calculate_equity account ts prices
  = calculate_equity account
      (filter (fun t => match price_get prices (symbol t) with
                        | Some _ => true | None => false end) ts) prices.
Proof.
  unfold calculate_equity, unrealized_total. f_equal. f_equal.
  apply (unrealized_fold_filter prices ts 0).
Qed.

(** X10: when the number of winning trades is between 0 and the number of trades, the win rate lies between 0 and 100. *)
Theorem win_rate_between_0_and_100 (total winning : Z) :
  (0 <= winning <= total)%Z ->
  0 <= calculate_win_rate total winning <= 100.
Proof.
  intros [H0 H1]. unfold calculate_win_rate.
  destruct (Z.eqb_spec total 0) as [->|Ht]; [split; discriminate|].
  assert (Hp : 0 < inject_Z total) by (change 0 with (inject_Z 0); rewrite <- Zlt_Qlt; lia).
  assert (Hw : 0 <= inject_Z winning) by (change 0 with (inject_Z 0); rewrite <- Zle_Qle; lia).
  assert (Hle : inject_Z winning <= inject_Z total) by (rewrite <- Zle_Qle; exact H1).
  split.
  - apply round_cents_nonneg.
    apply Qmult_le_0_compat; [|discriminate].
    apply Qle_shift_div_l; [exact Hp|]. rewrite Qmult_0_l. exact Hw.
  - apply round_cents_le_100.
    assert (inject_Z winning / inject_Z total <= 1).
    { apply Qle_shift_div_r; [exact Hp|]. rewrite Qmult_1_l. exact Hle. }
    setoid_replace 100 with (1 * 100) at 2 by ring.
    apply Qmult_le_compat_r; [assumption|discriminate].
Qed.

(** X11: for a positive peak and an equity between 0 and the peak, the trailing drawdown percentage lies between 0 and 100. *)
Theorem trailing_drawdown_between_0_and_100 (equity peak : Q) :
  0 < peak -> 0 <= equity <= peak ->
  0 <= calculate_trailing_drawdown_pct equity peak <= 100.
Proof.
  intros Hp [H0 H1]. unfold calculate_trailing_drawdown_pct.
  destruct (Qeq_bool peak 0) eqn:E.
  - split; discriminate.
  - split.
    + apply round_cents_nonneg.
      apply Qmult_le_0_compat; [|discriminate].
      apply Qle_shift_div_l; [exact Hp|]. rewrite Qmult_0_l. lra.
    + apply round_cents_le_100.
      assert ((peak - equity) / peak <= 1).
      { apply Qle_shift_div_r; [exact Hp|]. lra. }
      setoid_replace 100 with (1 * 100) at 2 by ring.
      apply Qmult_le_compat_r; [assumption|discriminate].
Qed.

Lemma Qopp_cents (m : Z) : - (m # 100) = (- m) # 100.
Proof. reflexivity. Qed.

Lemma div_zero_pct (a b : Q) : b == 0 -> a / b * 100 == 0.
Proof.
  intro H. unfold Qdiv. rewrite H. change (/ 0) with 0. ring.
Qed.

(** X12: an account whose daily drawdown percentage reaches minus the daily limit (a limit in cents) is failed for the daily drawdown, whatever its trailing drawdown. *)
Theorem check_drawdown_rules_daily_at_limit (account : Account) (equity : Q) (md : Z) :
  max_daily_drawdown_pct account == md # 100 ->
  (equity - day_start_balance account) / day_start_balance account * 100 <= - (md # 100) ->
  check_drawdown_rules account equity = (true, Some DAILY_DRAWDOWN_EXCEEDED).
Proof.
  intros Hm Hx. unfold check_drawdown_rules, calculate_daily_drawdown_pct.
  assert (Hle : (if Qeq_bool (day_start_balance account) 0 then 0
                 else round_cents ((equity - day_start_balance account)
                                   / day_start_balance account * 100))
                <= - max_daily_drawdown_pct account).
  { rewrite Hm. destruct (Qeq_bool (day_start_balance account) 0) eqn:E.
    - apply Qeq_bool_iff in E. rewrite (div_zero_pct _ _ E) in Hx. exact Hx.
    - rewrite Qopp_cents in *. apply round_cents_le, Hx. }
  apply Qle_bool_iff in Hle. rewrite Hle. reflexivity.
Qed.

(** X13: when the drawdown rules let an account pass (limits in cents), its daily drawdown is strictly above minus the daily limit (if the day-start balance is not zero) and its trailing drawdown strictly below the trailing limit (if the peak is not zero). *)
Theorem check_drawdown_rules_pass_within_limits (account : Account) (equity : Q)
    (md mt : Z) :
  max_daily_drawdown_pct account == md # 100 ->
  max_trailing_drawdown_pct account == mt # 100 ->
  check_drawdown_rules account equity = (false, None) ->
  (~ day_start_balance account == 0 ->
   - (md # 100) < (equity - day_start_balance account) / day_start_balance account * 100) /\
  (~ peak_equity account == 0 ->
   (peak_equity account - equity) / peak_equity account * 100 < mt # 100).
Proof.
  intros Hm Ht H. unfold check_drawdown_rules in H.
  destruct (Qle_bool _ _) eqn:Ed; [discriminate|].
  destruct (Qgeb _ _) eqn:Et; [discriminate|]. clear H. split.
  - intro Hz. apply Qnot_le_lt. intro Hx.
    unfold calculate_daily_drawdown_pct in Ed.
    assert (E : Qeq_bool (day_start_balance account) 0 = false).
    { destruct (Qeq_bool _ 0) eqn:E'; [|reflexivity].
      apply Qeq_bool_iff in E'. contradiction. }
    rewrite E in Ed. rewrite Qopp_cents in Hx.
    pose proof (round_cents_le _ _ Hx) as Hr. rewrite <- Qopp_cents in Hr.
    rewrite <- Hm in Hr. apply Qle_bool_iff in Hr. congruence.
  - intro Hz. apply Qnot_le_lt. intro Hx.
    apply Qgeb_false in Et. unfold calculate_trailing_drawdown_pct in Et.
    assert (E : Qeq_bool (peak_equity account) 0 = false).
    { destruct (Qeq_bool _ 0) eqn:E'; [|reflexivity].
      apply Qeq_bool_iff in E'. contradiction. }
    rewrite E in Et. pose proof (round_cents_ge _ _ Hx) as Hr.
    rewrite <- Ht in Hr. apply (Qlt_not_le _ _ Et Hr).
Qed.

(** X14: the phase check passes exactly when the account has the minimum trading days, its balance reaches the initial balance grown by the profit target, and it is not funded; a passing account is left ACTIVE. *)
Theorem check_phase_completion_passes (now : Z) (account : Account) :
  (fst (check_phase_completion now account) = true <->
   (min_trading_days account <= trading_days_count account)%Z /\
   initial_balance account * (1 + profit_target_pct account / 100)
     <= current_balance account /\
   phase account <> FUNDED) /\
  (fst (check_phase_completion now account) = true ->
   status (snd (check_phase_completion now account)) = ACTIVE).
Proof.
  unfold check_phase_completion.
  destruct (Z.geb_spec (trading_days_count account) (min_trading_days account)) as [Hd|Hd];
  destruct (Qgeb (current_balance account) _) eqn:Ep; simpl.
  - apply Qgeb_true in Ep.
    destruct (phase account); simpl.
    + split; [split; [intros _; repeat split; auto; discriminate|reflexivity]|reflexivity].
    + split; [split; [intros _; repeat split; auto; discriminate|reflexivity]|reflexivity].
    + split; [split; [discriminate|intros (_ & _ & H); congruence]|discriminate].
  - apply Qgeb_false in Ep.
    split; [split; [discriminate|]|discriminate].
    intros (_ & H & _). exfalso. apply (Qlt_not_le _ _ Ep H).
  - split; [split; [discriminate|]|discriminate]. intros (H & _). lia.
  - split; [split; [discriminate|]|discriminate]. intros (H & _). lia.
Qed.

(** X15: an account that has just passed a phase does not pass again on the next check, at any time: the new phase starts with zero trading days, and a funded account never passes. *)
Theorem check_phase_completion_not_twice (now now' : Z) (account : Account) :
  fst (check_phase_completion now account) = true ->
  fst (check_phase_completion now' (snd (check_phase_completion now account))) = false.
Proof.
  intro H. unfold check_phase_completion in *.
  destruct (negb _); [discriminate|].
  destruct (phase account); simpl in *; [|destruct (negb _); reflexivity|discriminate].
  destruct (Z.geb _ _); reflexivity.
Qed.

(** X16: updating the day start twice within the same day gives the same account as updating it once. *)
Theorem day_start_update_idempotent (now1 now2 : Z) (account : Account) :
  day_start now1 = day_start now2 ->
  check_and_update_day_start now2 (check_and_update_day_start now1 account)
  = check_and_update_day_start now1 account.
Proof.
  intro H. unfold check_and_update_day_start at 2 3.
  destruct (day_start_date account) as [d|] eqn:Ed.
  - destruct (Z.ltb_spec d (day_start now1)) as [Hl|Hl].
    + unfold check_and_update_day_start; simpl. rewrite <- H, Z.ltb_irrefl. reflexivity.
    + unfold check_and_update_day_start. rewrite Ed, <- H.
      destruct (Z.ltb_spec d (day_start now1)); [lia|reflexivity].
  - unfold check_and_update_day_start; simpl. rewrite <- H, Z.ltb_irrefl. reflexivity.
Qed.

Lemma cents_add (k m : Z) : (k # 100) + (m # 100) == (k + m) # 100.
Proof. unfold Qeq, Qplus. simpl. lia. Qed.

Lemma close_priced_spec (cr : CloseReason) (prices : Prices) (now : Z)
    (ts : list Trade) :
  forall (acc : Account) (k : Z), current_balance acc == k # 100 ->
  let (a', ts') := close_priced cr prices now acc ts in
  status a' = status acc /\ fail_reason a' = fail_reason acc /\
  map t_status ts' = map (fun t => if priced prices t then CLOSED else t_status t) ts /\
  total_trades a' = (total_trades acc + Z.of_nat (List.length (filter (priced prices) ts)))%Z /\
  current_balance a' == current_balance acc
    + fold_right Qplus 0 (map (fun t => match price_get prices (symbol t) with
                                        | Some p => calculate_unrealized_pnl t p
                                        | None => 0 end) ts).
Proof.
  induction ts as [|t ts IH]; intros acc k Hk; simpl.
  - repeat split; try reflexivity; try lia. ring.
  - unfold priced at 1 3. destruct (price_get prices (symbol t)) as [p|] eqn:Ep.
    + set (pnl := calculate_trade_pnl (direction t) (entry_price t) p
                    (position_size t) (leverage t)).
      assert (Hpn : exists m, pnl = m # 100) by apply round_cents_num.
      destruct Hpn as [m Hm].
      assert (Hb : round_cents (current_balance acc + pnl) == (k + m) # 100).
      { apply round_cents_exact. rewrite Hk, Hm. apply cents_add. }
      specialize (IH (book_trade (round_cents (current_balance acc + pnl)) pnl acc)
                     (k + m)%Z Hb).
      destruct (close_priced cr prices now _ ts) as [a' ts'].
      simpl in IH. destruct IH as (H1 & H2 & H3 & H4 & H5).
      simpl. rewrite H3. repeat split; try assumption.
      * rewrite H4. lia.
      * rewrite H5, Hb. unfold calculate_unrealized_pnl. fold pnl.
        rewrite <- cents_add, <- Hk, <- Hm. ring.
    + specialize (IH acc k Hk).
      destruct (close_priced cr prices now acc ts) as [a' ts'].
      destruct IH as (H1 & H2 & H3 & H4 & H5).
      simpl. rewrite H3. repeat split; try assumption.
      rewrite H5. ring.
Qed.

(** X17: failing an account (balance in cents) marks it FAILED with the reason, closes exactly its priced open trades, counts one trade per closed trade, and adds only their PnL to the balance, not the margin they had reserved. *)
Theorem fail_account_books_pnl_not_margin (account : Account) (reason : FailReason)
    (detail : string) (open_trades : list Trade) (prices : Prices) (now k : Z) :
  current_balance account == k # 100 ->
  let (a', ts') := fail_account account reason detail open_trades prices now in
  status a' = FAILED /\ fail_reason a' = Some reason /\
  map t_status ts' = map (fun t => match price_get prices (symbol t) with
                                   | Some _ => CLOSED
                                   | None => t_status t end) open_trades /\
  total_trades a' = (total_trades account + Z.of_nat (List.length
                       (filter (fun t => match price_get prices (symbol t) with
                                         | Some _ => true | None => false end)
                               open_trades)))%Z /\
  current_balance a' == current_balance account
    + fold_right Qplus 0 (map (fun t => match price_get prices (symbol t) with
                                        | Some p => calculate_unrealized_pnl t p
                                        | None => 0 end) open_trades).
Proof.
  intro Hk. unfold fail_account.
  pose proof (close_priced_spec
                (match reason with
                 | DAILY_DRAWDOWN_EXCEEDED => DAILY_DRAWDOWN
                 | TRAILING_DRAWDOWN_EXCEEDED => TRAILING_DRAWDOWN end)
                prices now open_trades (mark_failed reason detail now account) k Hk) as H.
  destruct (close_priced _ _ _ _ _) as [a' ts'].
  destruct H as (H1 & H2 & H3 & H4 & H5). repeat split; try assumption.
  rewrite H3. apply map_ext. intro t. unfold priced.
  destruct (price_get prices (symbol t)); reflexivity.
Qed.

Lemma check_and_update_day_start_balance (now : Z) (a : Account) :
  current_balance (check_and_update_day_start now a) = current_balance a /\
  id (check_and_update_day_start now a) = id a.
Proof.
  unfold check_and_update_day_start.
  destruct (day_start_date a); [destruct (Z.ltb _ _)|]; split; reflexivity.
Qed.

(** *** The Decimal context *)

Lemma log10_fuel_spec (fuel : nat) (n : Z) :
  (0 < n)%Z -> (n < 10 ^ Z.of_nat fuel)%Z ->
  (0 <= log10_fuel fuel n /\ 10 ^ log10_fuel fuel n <= n < 10 ^ (log10_fuel fuel n + 1))%Z.
Proof.
  revert n. induction fuel as [|f IH]; intros n Hn Hlt.
  - simpl in Hlt. lia.
  - simpl. destruct (Z.ltb_spec n 10) as [H10|H10].
    + simpl. lia.
    + assert (H1 : (0 < n / 10)%Z) by (apply Z.div_str_pos; lia).
      assert (H2 : (n / 10 < 10 ^ Z.of_nat f)%Z).
      { apply Z.div_lt_upper_bound; [lia|].
        rewrite Nat2Z.inj_succ, Z.pow_succ_r in Hlt by lia. exact Hlt. }
      destruct (IH _ H1 H2) as [H3 [H4 H5]].
      set (k := log10_fuel f (n / 10)) in *.
      replace (Z.succ k + 1)%Z with (Z.succ (k + 1)) by lia.
      rewrite !Z.pow_succ_r by lia.
      pose proof (Z.mod_pos_bound n 10) as M. pose proof (Z.div_mod n 10) as D.
      lia.
Qed.

Lemma zlog10_spec (n : Z) :
  (0 < n)%Z -> (0 <= zlog10 n /\ 10 ^ zlog10 n <= n < 10 ^ (zlog10 n + 1))%Z.
Proof.
  intro Hn. apply log10_fuel_spec; [exact Hn|].
  rewrite Nat2Z.inj_succ, Z2Nat.id by apply Z.log2_nonneg.
  destruct (Z.log2_spec n Hn) as [_ H].
  eapply Z.lt_le_trans; [exact H|].
  apply Z.pow_le_mono_l. split; [lia|lia].
Qed.

Lemma Q10_neq_0 : ~ (10 : Q) == 0.
Proof. unfold Qeq. simpl. discriminate. Qed.

Lemma pow10_pos (e : Z) : 0 < pow10 e.
Proof. apply Qpower_0_lt. reflexivity. Qed.

Lemma pow10_le (a b : Z) : (a <= b)%Z -> pow10 a <= pow10 b.
Proof. intro H. apply Qpower_le_compat_l; [exact H|discriminate]. Qed.

Lemma pow10_sub (a b : Z) : (0 <= a)%Z -> (0 <= b)%Z ->
  pow10 (a - b) == inject_Z (10 ^ a) / inject_Z (10 ^ b).
Proof.
  intros Ha Hb. unfold pow10. rewrite Qpower_minus by apply Q10_neq_0.
  rewrite !Zpower_Qpower by assumption. reflexivity.
Qed.

(** [adjexp x] is floor(log10 |x|). *)
Lemma adjexp_spec (x : Q) :
  ~ x == 0 -> pow10 (adjexp x) <= Qabs x /\ Qabs x < pow10 (adjexp x + 1).
Proof.
  intro Hx. destruct x as [m d].
  assert (Hm : (0 < Z.abs m)%Z).
  { unfold Qeq in Hx. simpl in Hx. lia. }
  change (Qabs (m # d)) with (Z.abs m # d).
  unfold adjexp. simpl Qnum. simpl Qden.
  set (n := Z.abs m) in *.
  destruct (zlog10_spec n Hm) as [Ln0 [Ln1 Ln2]].
  destruct (zlog10_spec (Zpos d) eq_refl) as [Ld0 [Ld1 Ld2]].
  set (ln := zlog10 n) in *. set (ld := zlog10 (Zpos d)) in *.
  assert (Hup : n # d < pow10 (ln - ld + 1)).
  { replace (ln - ld + 1)%Z with ((ln + 1) - ld)%Z by ring.
    rewrite pow10_sub by lia.
    apply Qlt_shift_div_l; [unfold Qlt; simpl; lia|].
    unfold Qlt. simpl.
    assert (0 < 10 ^ ld)%Z by lia.
    nia. }
  assert (Hlo : pow10 (ln - ld - 1) <= n # d).
  { replace (ln - ld - 1)%Z with (ln - (ld + 1))%Z by ring.
    rewrite pow10_sub by lia.
    apply Qle_shift_div_r; [unfold Qlt; simpl; lia|].
    unfold Qle. simpl.
    assert (0 < 10 ^ ln)%Z by lia.
    nia. }
  destruct (Qle_bool (pow10 (ln - ld)) (n # d)) eqn:E.
  - split; [apply Qle_bool_iff; exact E|exact Hup].
  - split; [exact Hlo|].
    replace (ln - ld - 1 + 1)%Z with (ln - ld)%Z by ring.
    apply Qnot_le_lt. intro H. apply Qle_bool_iff in H. congruence.
Qed.

Lemma adjexp_unique (x : Q) (a : Z) :
  pow10 a <= Qabs x -> Qabs x < pow10 (a + 1) -> adjexp x = a.
Proof.
  intros H1 H2.
  assert (Hx : ~ x == 0).
  { intro H. rewrite H in H1. simpl in H1. pose proof (pow10_pos a). lra. }
  destruct (adjexp_spec x Hx) as [H3 H4].
  destruct (Z.lt_total (adjexp x) a) as [Hl|[He|Hl]]; [|exact He|].
  - pose proof (pow10_le (adjexp x + 1) a ltac:(lia)). lra.
  - pose proof (pow10_le (a + 1) (adjexp x) ltac:(lia)). lra.
Qed.

Lemma adjexp_opp_sub (a b : Q) : ~ a - b == 0 -> adjexp (b - a) = adjexp (a - b).
Proof.
  intro H. destruct (adjexp_spec (a - b) H) as [H1 H2].
  assert (E : Qabs (b - a) == Qabs (a - b)).
  { rewrite <- Qabs_opp. apply Qabs_wd. ring. }
  apply adjexp_unique; rewrite E; assumption.
Qed.

(** A positive exact result whose adjusted exponent is at least Etiny
    does not round to zero. *)
Lemma dec_fix_pos (x : Q) :
  0 < x -> (dec_Etiny <= adjexp x)%Z ->
  dec_fix x = inl Overflow \/ exists v, dec_fix x = inr v /\ 0 < v.
Proof.
  intros Hx Ha. unfold dec_fix.
  destruct (Qeq_bool x 0) eqn:E0.
  { apply Qeq_bool_iff in E0. lra. }
  cbv zeta.
  destruct (dec_Emax <? adjexp x)%Z; [left; reflexivity|].
  set (e := Z.max (adjexp x - dec_prec + 1) dec_Etiny).
  assert (He : (e <= adjexp x)%Z) by (unfold e, dec_prec; lia).
  assert (Hnz : ~ x == 0) by (intro H; rewrite H in Hx; apply (Qlt_irrefl 0); exact Hx).
  destruct (adjexp_spec x Hnz) as [H1 _].
  rewrite Qabs_pos in H1 by lra.
  assert (Hr : (1 <= round_half_even (x / pow10 e))%Z).
  { apply round_half_even_ge. apply Qle_shift_div_l; [apply pow10_pos|].
    apply (Qle_trans _ (pow10 e)); [rewrite Qmult_1_l; apply Qle_refl|].
    apply (Qle_trans _ (pow10 (adjexp x))); [apply pow10_le, He|exact H1]. }
  assert (Hv : 0 < inject_Z (round_half_even (x / pow10 e)) * pow10 e).
  { apply Qmult_lt_0_compat; [|apply pow10_pos].
    unfold Qlt. simpl. lia. }
  set (v := inject_Z (round_half_even (x / pow10 e)) * pow10 e) in *.
  destruct (Qeq_bool v 0); [right; eexists; split; [reflexivity|exact Hv]|].
  destruct (dec_Emax <? adjexp v)%Z; [left; reflexivity|].
  right. eexists. split; [reflexivity|exact Hv].
Qed.

Ltac split_ifs :=
  repeat match goal with |- context [if ?b then _ else _] => destruct b end.

Lemma dec_fix_not_value (x : Q) : dec_fix x <> inl ValueError.
Proof. unfold dec_fix. cbv zeta. split_ifs; discriminate. Qed.

Lemma dec_div_not_value (a b : Q) : dec_div a b <> inl ValueError.
Proof. unfold dec_div. split_ifs; try discriminate. apply dec_fix_not_value. Qed.

Lemma dec_quantize_not_value (x : Q) (e : Z) : dec_quantize x e <> inl ValueError.
Proof. unfold dec_quantize. cbv zeta. split_ifs; discriminate. Qed.

Lemma dbind_value {A B : Type} (m : Exc + A) (k : A -> Exc + B) :
  dbind m k = inl ValueError -> m = inl ValueError \/ exists a, m = inr a /\ k a = inl ValueError.
Proof. destruct m as [e|a]; simpl; intro H; [left; congruence|right; eauto]. Qed.

(** [calculate_position_size_from_risk] raises [ValueError] only at its
    stop-distance check. *)
Lemma sizing_value_error (balance risk_pct entry stop : Q) (dir : TradeDirection) (lev : Z) :
  calculate_position_size_from_risk balance risk_pct entry stop dir lev = inl ValueError ->
  exists sd, dec_fix (match dir with LONG => entry - stop | SHORT => stop - entry end) = inr sd
             /\ sd <= 0.
Proof.
  unfold calculate_position_size_from_risk. intro H.
  apply dbind_value in H as [H|[br [_ H]]]; [destruct (dec_fix_not_value _ H)|].
  apply dbind_value in H as [H|[ra [_ H]]]; [destruct (dec_div_not_value _ _ H)|].
  assert (Hm : (match dir with LONG => dec_sub entry stop | SHORT => dec_sub stop entry end)
               = dec_fix (match dir with LONG => entry - stop | SHORT => stop - entry end))
    by (destruct dir; reflexivity).
  rewrite Hm in H. clear Hm.
  apply dbind_value in H as [H|[sd [Hsd H]]]; [destruct (dec_fix_not_value _ H)|].
  exists sd. split; [exact Hsd|].
  destruct (Qle_bool sd 0) eqn:Es; [apply Qle_bool_iff; exact Es|].
  apply dbind_value in H as [H|[ps [_ H]]]; [destruct (dec_div_not_value _ _ H)|].
  apply dbind_value in H as [H|[nv [_ H]]]; [destruct (dec_fix_not_value _ H)|].
  apply dbind_value in H as [H|[mu [_ H]]]; [destruct (dec_div_not_value _ _ H)|].
  apply dbind_value in H as [H|[q1 [_ H]]]; [destruct (dec_quantize_not_value _ _ H)|].
  apply dbind_value in H as [H|[q2 [_ H]]]; [destruct (dec_quantize_not_value _ _ H)|].
  apply dbind_value in H as [H|[q3 [_ H]]]; [destruct (dec_quantize_not_value _ _ H)|].
  discriminate.
Qed.

(** X18: once the direction checks have accepted the take-profit and the stop-loss, opening a trade never answers the sizing error 400 'Stop loss не корректен для выбранного направления', provided the stop distance is not below the smallest subnormal Decimal (its adjusted exponent is at least Etiny = -1000026); every Decimal operation of the sizing is rounded to the default context. *)
Theorem open_trade_no_stop_loss_error (now : Z) (entry : Q) (new_id : Z)
    (account : Account) (body : OpenTradeRequest) :
  (dec_Etiny <= adjexp (entry - o_stop_loss body))%Z ->
  open_trade now entry new_id account body
    <> HTTPError 400 "Stop loss не корректен для выбранного направления".
Proof.
  intro Ha. unfold open_trade.
  destruct (is_active (status account)); simpl; [|discriminate].
  assert (Hd : forall dir, 0 < match dir with LONG => entry - o_stop_loss body
                                        | SHORT => o_stop_loss body - entry end ->
            match calculate_position_size_from_risk
                    (current_balance (check_and_update_day_start now account))
                    (o_risk_pct body) entry (o_stop_loss body) dir (o_leverage body) with
            | inl ValueError => False | _ => True end).
  { intros dir Hpos.
    destruct (calculate_position_size_from_risk _ _ _ _ _ _) as [e|sd] eqn:Ec; [|exact I].
    destruct e; try exact I.
    destruct (sizing_value_error _ _ _ _ _ _ Ec) as [sd [Hsd Hle]].
    assert (Ha' : (dec_Etiny <= adjexp (match dir with LONG => entry - o_stop_loss body
                                        | SHORT => o_stop_loss body - entry end))%Z).
    { destruct dir; [exact Ha|]. rewrite adjexp_opp_sub; [exact Ha|].
      intro H0. simpl in Hpos. lra. }
    destruct (dec_fix_pos _ Hpos Ha') as [Ho|[v [Hv Hp]]]; rewrite Hsd in *;
      [discriminate|]. injection Hv as <-. lra. }
  destruct (o_direction body) eqn:Ed.
  - destruct (Qle_bool (o_take_profit body) entry); [discriminate|].
    destruct (Qle_bool entry (o_stop_loss body)) eqn:Es; [discriminate|].
    assert (Hp : 0 < entry - o_stop_loss body).
    { apply Qnot_le_lt. intro H. apply not_true_iff_false in Es. apply Es, Qle_bool_iff. lra. }
    specialize (Hd LONG Hp).
    destruct (calculate_position_size_from_risk _ _ _ _ _ _) as [e|sd];
      [destruct e; try contradiction; discriminate|].
    destruct (Qgtb _ _); discriminate.
  - destruct (Qle_bool entry (o_take_profit body)); [discriminate|].
    destruct (Qle_bool (o_stop_loss body) entry) eqn:Es; [discriminate|].
    assert (Hp : 0 < o_stop_loss body - entry).
    { apply Qnot_le_lt. intro H. apply not_true_iff_false in Es. apply Es, Qle_bool_iff. lra. }
    specialize (Hd SHORT Hp).
    destruct (calculate_position_size_from_risk _ _ _ _ _ _) as [e|sd];
      [destruct e; try contradiction; discriminate|].
    destruct (Qgtb _ _); discriminate.
Qed.

(** X19: a trade is only opened on an ACTIVE account, is OPEN, reserves a margin not above the balance, and the balance becomes the rounded balance minus that margin, which is non-negative. *)
Theorem open_trade_reserves_margin (now : Z) (entry : Q) (new_id : Z)
    (account : Account) (body : OpenTradeRequest) (account' : Account) (trade : Trade) :
  open_trade now entry new_id account body = Data (account', trade) ->
  status account = ACTIVE /\ t_status trade = OPEN /\
  margin_used trade <= current_balance account /\
  current_balance account' = round_cents (current_balance account - margin_used trade) /\
  0 <= current_balance account'.
Proof.
  unfold open_trade.
  destruct (status account) eqn:Est; simpl; try discriminate.
  destruct (check_and_update_day_start_balance now account) as [Hb _].
  destruct (match o_direction body with LONG => _ | SHORT => _ end); [discriminate|].
  destruct (calculate_position_size_from_risk _ _ _ _ _ _) as [e|sd];
    [destruct e; discriminate|].
  destruct (Qgtb (ps_margin_used sd) _) eqn:Em; [discriminate|].
  intro H. injection H as <- <-. simpl. apply Qgtb_false in Em. rewrite Hb in *.
  repeat split; try assumption.
  apply round_cents_nonneg. lra.
Qed.

(** X20: closing an open trade of the account always succeeds, whatever the account status, including a FAILED or PASSED account. *)
Theorem close_trade_ignores_account_status (now : Z) (close_price : Q)
    (prices : Prices) (detail_of : FailReason -> string) (account : Account)
    (db : list Trade) (r : Trade) :
  In r db -> account_id r = id account -> t_status r = OPEN ->
  exists res, close_trade now close_price prices detail_of account db (trade_id r)
              = Data res.
Proof.
  intros Hin Ha Ho. unfold close_trade.
  destruct (find _ db) as [t|] eqn:Ef.
  - cbv zeta. destruct (check_drawdown_rules _ _) as [[|] [reason|]];
      try (destruct (fail_account _ _ _ _ _ _));
      try (destruct (check_phase_completion _ _)); eexists; reflexivity.
  - exfalso. apply find_none with (x := r) in Ef; [|exact Hin].
    rewrite Ha, Ho, !Z.eqb_refl in Ef. discriminate.
Qed.

Lemma update_trading_days_keeps (now : Z) (a : Account) (db : list Trade) :
  id (update_trading_days now a db) = id a /\
  current_balance (update_trading_days now a db) = current_balance a /\
  peak_equity (update_trading_days now a db) = peak_equity a /\
  phase (update_trading_days now a db) = phase a.
Proof.
  unfold update_trading_days. destruct (Nat.eqb _ _); repeat split.
Qed.

Lemma update_peak_equity_spec (a : Account) (e : Q) :
  e <= peak_equity (update_peak_equity a e) /\
  id (update_peak_equity a e) = id a /\
  current_balance (update_peak_equity a e) = current_balance a /\
  phase (update_peak_equity a e) = phase a.
Proof.
  unfold update_peak_equity. destruct (Qgtb e (peak_equity a)) eqn:E.
  - repeat split. apply Qle_refl.
  - apply Qgtb_false in E. repeat split. exact E.
Qed.

Lemma close_priced_keeps_peak (cr : CloseReason) (prices : Prices) (now : Z)
    (ts : list Trade) :
  forall acc, peak_equity (fst (close_priced cr prices now acc ts)) = peak_equity acc.
Proof.
  induction ts as [|t ts IH]; intro acc; [reflexivity|]. simpl.
  destruct (price_get prices (symbol t)).
  - specialize (IH (book_trade (round_cents (current_balance acc
                   + calculate_trade_pnl (direction t) (entry_price t) q
                       (position_size t) (leverage t)))
                   (calculate_trade_pnl (direction t) (entry_price t) q
                       (position_size t) (leverage t)) acc)).
    destruct (close_priced _ _ _ _ ts). exact IH.
  - specialize (IH acc). destruct (close_priced _ _ _ _ ts). exact IH.
Qed.

Lemma check_phase_completion_keeps_peak (now : Z) (a : Account) :
  phase a <> EVALUATION ->
  peak_equity (snd (check_phase_completion now a)) = peak_equity a.
Proof.
  intro H. unfold check_phase_completion.
  destruct (negb _); [reflexivity|]. destruct (phase a); [congruence|reflexivity..].
Qed.

Lemma find_only (p f : Trade -> bool) (db : list Trade) (t : Trade) :
  filter f db = [t] -> p t = true -> (forall r, p r = true -> f r = true) ->
  find p db = Some t.
Proof.
  intros Hf Hp Himp. destruct (find p db) as [x|] eqn:E.
  - apply find_some in E as [Hx Hpx].
    assert (In x (filter f db)) by (apply filter_In; auto).
    rewrite Hf in H. destruct H as [->|[]]. reflexivity.
  - assert (In t (filter f db)) by (rewrite Hf; left; reflexivity).
    apply filter_In in H as [Hin _]. apply find_none with (x := t) in E; [|exact Hin].
    congruence.
Qed.

(** X21: when closing the account's only open trade with its priced symbol (balance and margin in cents, account not in evaluation), the peak equity afterwards is at least the balance plus the margin plus twice the trade's PnL: the freshly closed trade still counts as open in the equity. *)
Theorem close_trade_counts_pnl_twice_in_peak (now : Z) (close_price : Q)
    (prices : Prices) (detail_of : FailReason -> string) (account : Account)
    (db : list Trade) (t : Trade) (k m : Z) (account' : Account)
    (db' : list Trade) (t' : Trade) :
  filter (fun r => (Z.eqb (account_id r) (id account) && is_open (t_status r))%bool) db
    = [t] ->
  price_get prices (symbol t) = Some close_price ->
  phase account <> EVALUATION ->
  current_balance account == k # 100 -> margin_used t == m # 100 ->
  close_trade now close_price prices detail_of account db (trade_id t)
    = Data (account', db', t') ->
  current_balance account + margin_used t
    + 2 * calculate_trade_pnl (direction t) (entry_price t) close_price
            (position_size t) (leverage t)
  <= peak_equity account'.
Proof.
  intros Hf Hp Hph Hk Hm H. unfold close_trade in H.
  rewrite (find_only _ _ db t Hf) in H.
  2:{ assert (In t (filter (fun r => (Z.eqb (account_id r) (id account)
                                      && is_open (t_status r))%bool) db))
        by (rewrite Hf; left; reflexivity).
      apply filter_In in H0 as [_ H0]. rewrite Z.eqb_refl. exact H0. }
  2:{ intros r Hr. apply andb_true_iff in Hr as [Hr Hr3].
      apply andb_true_iff in Hr as [_ Hr2]. rewrite Hr2, Hr3. reflexivity. }
  cbv zeta in H.
  set (pnl := calculate_trade_pnl (direction t) (entry_price t) close_price
                (position_size t) (leverage t)) in *.
  set (a1 := book_trade _ pnl account) in H.
  set (a2 := update_trading_days now a1 db) in H.
  destruct (update_trading_days_keeps now a1 db) as (I2 & B2 & P2 & Ph2).
  fold a2 in I2, B2, P2, Ph2.
  assert (Hopen : replace_row (close_trade_row close_price pnl MANUAL now t)
                    (filter (fun r => (Z.eqb (account_id r) (id a2)
                                       && is_open (t_status r))%bool) db)
                  = [close_trade_row close_price pnl MANUAL now t]).
  { rewrite I2. simpl id. rewrite Hf. simpl. rewrite Z.eqb_refl. reflexivity. }
  rewrite Hopen in H.
  set (equity := calculate_equity a2 [close_trade_row close_price pnl MANUAL now t] prices)
    in H.
  destruct (round_cents_num (current_balance account + margin_used t + pnl)) as [n Hn].
  assert (Hpe' : exists p, pnl = p # 100)
    by (unfold pnl; try unfold calculate_trade_pnl; apply round_cents_num).
  destruct Hpe' as [p Hpe].
  assert (Hb1 : round_cents (current_balance account + margin_used t + pnl)
                == (k + m + p) # 100).
  { apply round_cents_exact. rewrite Hk, Hm, Hpe.
    unfold Qeq, Qplus. simpl. lia. }
  assert (Heq : equity == current_balance account + margin_used t + 2 * pnl).
  { unfold equity, calculate_equity, unrealized_total. simpl fold_left.
    rewrite Hp. rewrite B2. simpl current_balance.
    unfold calculate_unrealized_pnl. simpl. fold pnl.
    assert (Hx : round_cents (current_balance account + margin_used t + pnl)
                 + (0 + pnl) == (k + m + p + p) # 100).
    { rewrite Hb1, Hpe. unfold Qeq, Qplus. simpl. lia. }
    rewrite (round_cents_Qeq _ _ Hx).
    rewrite (round_cents_exact (k + m + p + p) _ (Qeq_refl _)).
    rewrite Hk, Hm, Hpe. unfold Qeq, Qplus, Qmult. cbn [Qnum Qden]. lia. }
  set (a3 := update_peak_equity a2 equity) in H.
  destruct (update_peak_equity_spec a2 equity) as (G3 & _ & _ & Ph3). fold a3 in G3, Ph3.
  assert (Hph3 : phase a3 <> EVALUATION) by (rewrite Ph3, Ph2; exact Hph).
  destruct (check_drawdown_rules a3 equity) as [[|] [reason|]].
  - unfold fail_account in H.
    pose proof (close_priced_keeps_peak
                  (match reason with
                   | DAILY_DRAWDOWN_EXCEEDED => DAILY_DRAWDOWN
                   | TRAILING_DRAWDOWN_EXCEEDED => TRAILING_DRAWDOWN end)
                  prices now [close_trade_row close_price pnl MANUAL now t]
                  (mark_failed reason (detail_of reason) now a3)) as Hk3.
    destruct (close_priced _ _ _ _ _) as [a4 ts4]. simpl in Hk3.
    injection H as <- _ _. rewrite Hk3, <- Heq. exact G3.
  - pose proof (check_phase_completion_keeps_peak now a3 Hph3) as Hc;
      destruct (check_phase_completion now a3) as [b a4]; simpl in Hc;
      injection H as <- _ _; rewrite Hc, <- Heq; exact G3.
  - pose proof (check_phase_completion_keeps_peak now a3 Hph3) as Hc;
      destruct (check_phase_completion now a3) as [b a4]; simpl in Hc;
      injection H as <- _ _; rewrite Hc, <- Heq; exact G3.
  - pose proof (check_phase_completion_keeps_peak now a3 Hph3) as Hc;
      destruct (check_phase_completion now a3) as [b a4]; simpl in Hc;
      injection H as <- _ _; rewrite Hc, <- Heq; exact G3.
Qed.

(** ** Witnesses: legacy backend *)

Lemma win_rate_between_0_and_100_witness :
  (0 <= 2 <= 3)%Z /\ 0 <= calculate_win_rate 3 2 <= 100.
Proof.
  assert (H : (0 <= 2 <= 3)%Z) by lia.
  exact (conj H (win_rate_between_0_and_100 3 2 H)).
Defined.

Lemma trailing_drawdown_between_0_and_100_witness :
  0 < 10900 /\ 0 <= 9810 <= 10900 /\
  0 <= calculate_trailing_drawdown_pct 9810 10900 <= 100.
Proof.
  assert (H1 : 0 < 10900) by reflexivity.
  assert (H2 : 0 <= 9810 <= 10900) by (split; apply Qle_bool_iff; reflexivity).
  exact (conj H1 (conj H2 (trailing_drawdown_between_0_and_100 _ _ H1 H2))).
Defined.

(** An evaluation account: 10,000 initial, 10,900 now, day started at 10,000. *)
Definition acct_eval : Account :=
  mkAccount 1 EVALUATION ACTIVE 10000 10900 10900 10000 (Some day0) 5 10 8 5 5 3 2 80
    None None None None.

Definition acct_funded : Account :=
  mkAccount 1 FUNDED ACTIVE 10000 10900 10900 10000 (Some day0) 5 10 8 5 5 3 2 80
    None None None None.

Definition btc_long : Trade :=
  mkTrade 11 1 "BTCUSDT" LONG OPEN 5 (1 # 10) 5000 1000 50000 55000 48000 None None None None.

Definition eth_short : Trade :=
  mkTrade 12 1 "ETHUSDT" SHORT OPEN 2 1 3000 1500 3000 2800 3100 None None None None.

Definition prices_btc : Prices := [("BTCUSDT"%string, 52000)].

Lemma check_drawdown_rules_daily_at_limit_witness :
  max_daily_drawdown_pct acct_eval == 500 # 100 /\
  (9500 - day_start_balance acct_eval) / day_start_balance acct_eval * 100 <= - (500 # 100) /\
  check_drawdown_rules acct_eval 9500 = (true, Some DAILY_DRAWDOWN_EXCEEDED).
Proof.
  assert (H1 : max_daily_drawdown_pct acct_eval == 500 # 100) by reflexivity.
  assert (H2 : (9500 - day_start_balance acct_eval) / day_start_balance acct_eval * 100
               <= - (500 # 100)) by (apply Qle_bool_iff; reflexivity).
  exact (conj H1 (conj H2 (check_drawdown_rules_daily_at_limit _ _ _ H1 H2))).
Defined.

Lemma check_drawdown_rules_pass_within_limits_witness :
  max_daily_drawdown_pct acct_eval == 500 # 100 /\
  max_trailing_drawdown_pct acct_eval == 1000 # 100 /\
  check_drawdown_rules acct_eval 10900 = (false, None) /\
  (~ day_start_balance acct_eval == 0 ->
   - (500 # 100) < (10900 - day_start_balance acct_eval) / day_start_balance acct_eval * 100) /\
  (~ peak_equity acct_eval == 0 ->
   (peak_equity acct_eval - 10900) / peak_equity acct_eval * 100 < 1000 # 100).
Proof.
  assert (H1 : max_daily_drawdown_pct acct_eval == 500 # 100) by reflexivity.
  assert (H2 : max_trailing_drawdown_pct acct_eval == 1000 # 100) by reflexivity.
  assert (H3 : check_drawdown_rules acct_eval 10900 = (false, None)) by reflexivity.
  exact (conj H1 (conj H2 (conj H3
    (check_drawdown_rules_pass_within_limits _ _ _ _ H1 H2 H3)))).
Defined.

Lemma check_phase_completion_not_twice_witness :
  fst (check_phase_completion day0 acct_eval) = true /\
  fst (check_phase_completion (day0 + 86400)%Z (snd (check_phase_completion day0 acct_eval)))
    = false.
Proof.
  assert (H : fst (check_phase_completion day0 acct_eval) = true) by reflexivity.
  exact (conj H (check_phase_completion_not_twice _ _ _ H)).
Defined.

(** The same account, its day last started yesterday. *)
Definition acct_stale : Account :=
  mkAccount 1 EVALUATION ACTIVE 10000 10900 10900 10000 (Some (day0 - 86400)%Z) 5 10 8 5 5 3 2 80
    None None None None.

Lemma day_start_update_idempotent_witness :
  day_start (day0 + 100) = day_start (day0 + 50000) /\
  check_and_update_day_start (day0 + 50000) (check_and_update_day_start (day0 + 100) acct_stale)
  = check_and_update_day_start (day0 + 100) acct_stale.
Proof.
  assert (H : day_start (day0 + 100) = day_start (day0 + 50000)) by reflexivity.
  exact (conj H (day_start_update_idempotent _ _ _ H)).
Defined.

Lemma fail_account_books_pnl_not_margin_witness :
  current_balance acct_eval == 1090000 # 100 /\
  let (a', ts') := fail_account acct_eval DAILY_DRAWDOWN_EXCEEDED "daily"
                     [btc_long; eth_short] prices_btc day0 in
  status a' = FAILED /\ fail_reason a' = Some DAILY_DRAWDOWN_EXCEEDED /\
  map t_status ts' = map (fun t => match price_get prices_btc (symbol t) with
                                   | Some _ => CLOSED
                                   | None => t_status t end) [btc_long; eth_short] /\
  total_trades a' = (total_trades acct_eval + Z.of_nat (List.length
                       (filter (fun t => match price_get prices_btc (symbol t) with
                                         | Some _ => true | None => false end)
                               [btc_long; eth_short])))%Z /\
  current_balance a' == current_balance acct_eval
    + fold_right Qplus 0 (map (fun t => match price_get prices_btc (symbol t) with
                                        | Some p => calculate_unrealized_pnl t p
                                        | None => 0 end) [btc_long; eth_short]).
Proof.
  assert (H : current_balance acct_eval == 1090000 # 100) by reflexivity.
  exact (conj H (fail_account_books_pnl_not_margin acct_eval DAILY_DRAWDOWN_EXCEEDED "daily"
    [btc_long; eth_short] prices_btc day0 _ H)).
Defined.

Definition body_btc_long : OpenTradeRequest :=
  mkOpenTradeRequest "BTCUSDT" LONG 5 1 55000 48000.

Lemma open_trade_no_stop_loss_error_witness :
  (dec_Etiny <= adjexp (50000 - o_stop_loss body_btc_long))%Z /\
  open_trade day0 50000 11 acct_eval body_btc_long
    <> HTTPError 400 "Stop loss не корректен для выбранного направления".
Proof.
  assert (H : (dec_Etiny <= adjexp (50000 - o_stop_loss body_btc_long))%Z)
    by (vm_compute; discriminate).
  exact (conj H (open_trade_no_stop_loss_error _ _ _ _ _ H)).
Defined.

Definition acct_eval_opened : Account := set_current_balance (1035500 # 100) acct_eval.

Definition btc_opened : Trade :=
  mkTrade 11 1 "BTCUSDT" LONG OPEN 5 (5450000 # 100000000) (272500 # 100) (54500 # 100)
    50000 55000 48000 None None None None.

Lemma open_trade_reserves_margin_witness :
  open_trade day0 50000 11 acct_eval body_btc_long = Data (acct_eval_opened, btc_opened) /\
  status acct_eval = ACTIVE /\ t_status btc_opened = OPEN /\
  margin_used btc_opened <= current_balance acct_eval /\
  current_balance acct_eval_opened
    = round_cents (current_balance acct_eval - margin_used btc_opened) /\
  0 <= current_balance acct_eval_opened.
Proof.
  assert (H : open_trade day0 50000 11 acct_eval body_btc_long
              = Data (acct_eval_opened, btc_opened)) by reflexivity.
  exact (conj H (open_trade_reserves_margin _ _ _ _ _ _ _ H)).
Defined.

Definition acct_failed : Account :=
  mkAccount 1 EVALUATION FAILED 10000 8900 10900 10000 (Some day0) 5 10 8 5 5 3 2 80
    (Some TRAILING_DRAWDOWN_EXCEEDED) None (Some day0) None.

Lemma close_trade_ignores_account_status_witness :
  In btc_long [btc_long] /\ account_id btc_long = id acct_failed /\
  t_status btc_long = OPEN /\
  exists res, close_trade day0 52000 prices_btc (fun _ => "drawdown"%string) acct_failed
                [btc_long] (trade_id btc_long) = Data res.
Proof.
  assert (H1 : In btc_long [btc_long]) by (left; reflexivity).
  assert (H2 : account_id btc_long = id acct_failed) by reflexivity.
  assert (H3 : t_status btc_long = OPEN) by reflexivity.
  exact (conj H1 (conj H2 (conj H3 (close_trade_ignores_account_status _ _ _ _ _ _ _ H1 H2 H3)))).
Defined.

Definition acct_funded_closed : Account :=
  mkAccount 1 FUNDED ACTIVE 10000 (1210000 # 100) (1230000 # 100) 10000 (Some day0) 5 10 8 5 5
    4 3 80 None None None None.

Definition btc_closed : Trade :=
  mkTrade 11 1 "BTCUSDT" LONG CLOSED 5 (1 # 10) 5000 1000 50000 55000 48000 (Some 52000)
    (Some (20000 # 100)) (Some MANUAL) (Some day0).

Lemma close_trade_counts_pnl_twice_in_peak_witness :
  filter (fun r => (Z.eqb (account_id r) (id acct_funded) && is_open (t_status r))%bool)
    [btc_long] = [btc_long] /\
  price_get prices_btc (symbol btc_long) = Some 52000 /\
  phase acct_funded <> EVALUATION /\
  current_balance acct_funded == 1090000 # 100 /\ margin_used btc_long == 100000 # 100 /\
  close_trade day0 52000 prices_btc (fun _ => "drawdown"%string) acct_funded [btc_long]
    (trade_id btc_long) = Data (acct_funded_closed, [btc_closed], btc_closed) /\
  current_balance acct_funded + margin_used btc_long
    + 2 * calculate_trade_pnl (direction btc_long) (entry_price btc_long) 52000
            (position_size btc_long) (leverage btc_long)
  <= peak_equity acct_funded_closed.
Proof.
  assert (H1 : filter (fun r => (Z.eqb (account_id r) (id acct_funded)
                                 && is_open (t_status r))%bool) [btc_long] = [btc_long])
    by reflexivity.
  assert (H2 : price_get prices_btc (symbol btc_long) = Some 52000) by reflexivity.
  assert (H3 : phase acct_funded <> EVALUATION) by discriminate.
  assert (H4 : current_balance acct_funded == 1090000 # 100) by reflexivity.
  assert (H5 : margin_used btc_long == 100000 # 100) by reflexivity.
  assert (H6 : close_trade day0 52000 prices_btc (fun _ => "drawdown"%string) acct_funded
                 [btc_long] (trade_id btc_long)
               = Data (acct_funded_closed, [btc_closed], btc_closed)) by reflexivity.
  exact (conj H1 (conj H2 (conj H3 (conj H4 (conj H5 (conj H6
    (close_trade_counts_pnl_twice_in_peak _ _ _ _ _ _ _ _ _ _ _ _ H1 H2 H3 H4 H5 H6))))))).
Defined.

